(** * sonatype-resource-automation: a shallow embedding and its properties

    The development follows the Go packages of the repository:

    - [GoStrings], [GoErrors], [GoInt] : the few functions of Go's
                      [strings], [slices], [errors] and [fmt] packages
                      that the code calls, and its [int];
    - [Config]      : internal/config (models, operation-config resolver,
                      job store);
    - [RoleEngine]  : internal/service/role_engine.go;
    - [Client]      : internal/client, as an interface of calls, with
                      programs over that interface and their traces;
    - [Service]     : internal/service (creation and deletion workflows,
                      progress tracker);
    - [Server]      : internal/server (batch validation, fan-in, and the
                      job store under concurrent batches);
    - [Examples]    : concrete configurations, requests and a scripted
                      client;
    - [JobLifecycle]: the shape of a job in each status;
    - [Handlers]    : internal/server (the batch handler and its
                      responses);
    - [Traces]      : kinds of client calls;
    - [Creation]    : internal/service (the role and user steps of the
                      creation workflow, and the workflow);
    - [Operation]   : internal/service/iq_deletion.go and the operation
                      of one request in internal/server/sync.go, over
                      the two clients;
    - [HTTP]        : internal/client (the HTTP layer and the methods of
                      the two clients over it).

    The definitions come first; the properties follow, one module of
    facts for each module of definitions.

    Go values are modelled as the code has them: [string] for strings,
    [Z] for [int] (64 bit, wrap-around written out where the code does
    arithmetic), [list] for slices, [gmap] for maps, [option] for
    pointers that may be nil and for [error] values that may be nil. *)

From Stdlib Require Import ZArith Ascii String DecimalString.
From stdpp Require Import base decidable option list gmap strings.

#[local] Set Warnings "-clear-no-such-hyp".

Local Open Scope string_scope.
Local Open Scope Z_scope.
Local Open Scope list_scope.

(* ================================================================== *)
(** * Go library functions used by the code *)
(* ================================================================== *)

Module GoStrings.

(** [slices.Contains(l, x)] on a slice of strings. *)
Fixpoint Contains (l : list string) (x : string) : bool :=
  match l with
  | [] => false
  | y :: l' => if String.eqb y x then true else Contains l' x
  end.

(** [strings.HasSuffix(s, suffix)]. *)
Fixpoint HasSuffix (s suffix : string) : bool :=
  if String.eqb s suffix then true
  else match s with
       | EmptyString => false
       | String _ s' => HasSuffix s' suffix
       end.

(** [strings.Contains(s, substr)]. *)
Fixpoint StringsContains (s substr : string) : bool :=
  if String.prefix substr s then true
  else match s with
       | EmptyString => false
       | String _ s' => StringsContains s' substr
       end.

(** Lower-casing of one byte of the ASCII range. *)
Definition lowerAscii (c : ascii) : ascii :=
  let n := nat_of_ascii c in
  if (65 <=? n)%nat && (n <=? 90)%nat then ascii_of_nat (n + 32) else c.

(** [strings.ToLower] restricted to ASCII input; the resolver below is
    stated for an arbitrary lower-casing function and instantiated with
    this one for the concrete examples. *)
Fixpoint ToLowerASCII (s : string) : string :=
  match s with
  | EmptyString => EmptyString
  | String c s' => String (lowerAscii c) (ToLowerASCII s')
  end.

(** [fmt.Sprintf("%d", n)]. *)
Definition Itoa (n : Z) : string := NilZero.string_of_int (Z.to_int n).

End GoStrings.

(** Go's [error] values, as far as the code builds and inspects them:
    the client's [HTTPError], plain messages, and [fmt.Errorf] with a
    wrapped cause ([%w]). *)
Module GoErrors.

Inductive error : Type :=
| HTTPError (StatusCode : Z) (Body : string)
| errorString (msg : string)
| wrapError (msg : string) (cause : error).

(** [err.Error()]; a wrapping message is followed by ": " and the cause. *)
Fixpoint Error (e : error) : string :=
  match e with
  | HTTPError code body => "HTTP " +:+ GoStrings.Itoa code +:+ ": " +:+ body
  | errorString msg => msg
  | wrapError msg cause => msg +:+ ": " +:+ Error cause
  end.

(** [errors.As(err, &httpErr)]: the first [HTTPError] of the chain. *)
Fixpoint AsHTTPError (e : error) : option Z :=
  match e with
  | HTTPError code _ => Some code
  | errorString _ => None
  | wrapError _ cause => AsHTTPError cause
  end.

(** [http.StatusNotFound]. *)
Definition StatusNotFound : Z := 404.

End GoErrors.

(** Go's [int] on the 64-bit platforms the program is built for. *)
Module GoInt.

Definition MaxInt : Z := 2 ^ 63 - 1.

(** The value of an [int] expression whose mathematical value is [z]. *)
Definition wrapInt (z : Z) : Z := (z + 2 ^ 63) mod 2 ^ 64 - 2 ^ 63.

End GoInt.

(* ================================================================== *)
(** * internal/config *)
(* ================================================================== *)

Module Config.
Import GoStrings GoErrors.

(** ** models.go *)

Module OperationConfig.
Record t := {
  Action : string;
  LdapUsername : string;
  OrganizationID : string;
  RemoteURL : string;
  ExtraRoles : list string;
  BaseRoles : list string;
  RepositoryName : string;
  PrivilegeName : string;
  RoleName : string;
  PackageManager : string;
  Shared : bool;
  AppID : string
}.
End OperationConfig.

Module RepositoryRequest.
Record t := {
  OrganizationName : string;
  LdapUsername : string;
  PackageManager : string;
  Shared : bool;
  AppID : string
}.
End RepositoryRequest.

Module FailedRequest.
Record t := {
  Request : RepositoryRequest.t;
  Reason : string
}.
End FailedRequest.

(** The [map[string]any] fields of the package-manager entry play no part
    in the resolver and are left out. *)
Module PackageManager.
Record t := {
  DefaultURL : string;
  PrivilegeFormat : string;
  APIEndpointPath : string
}.
End PackageManager.

(** ** config.go: the static configuration and the resolver *)

Record Config := {
  BaseRoles : list string;
  ExtraRoles : list string;
  Orgs : gmap string string;
  PackageManagers : gmap string PackageManager.t
}.

Section Resolver.
(** [strings.ToLower]. *)
Variable ToLower : string → string.

Definition CreateOpConfig (c : Config) (r : RepositoryRequest.t) (action : string)
  : option OperationConfig.t * option error :=
  match Orgs c !! RepositoryRequest.OrganizationName r with
  | None =>
      (None, Some (errorString ("organization '"
                     +:+ RepositoryRequest.OrganizationName r +:+ "' not found")))
  | Some orgID =>
      match PackageManagers c !! RepositoryRequest.PackageManager r with
      | None =>
          (None, Some (errorString ("package manager '"
                         +:+ RepositoryRequest.PackageManager r +:+ "' not found")))
      | Some manager =>
          let remoteURL := PackageManager.DefaultURL manager in
          let suffix := if RepositoryRequest.Shared r then "shared"
                        else RepositoryRequest.AppID r in
          let repoName := ToLower (RepositoryRequest.PackageManager r)
                            +:+ "-release-" +:+ suffix in
          let roleName := if RepositoryRequest.Shared r then "repositories.share"
                          else RepositoryRequest.LdapUsername r in
          (Some {| OperationConfig.Action := action;
                   OperationConfig.LdapUsername := RepositoryRequest.LdapUsername r;
                   OperationConfig.OrganizationID := orgID;
                   OperationConfig.RemoteURL := remoteURL;
                   OperationConfig.ExtraRoles := ExtraRoles c;
                   OperationConfig.BaseRoles := BaseRoles c;
                   OperationConfig.RepositoryName := repoName;
                   OperationConfig.PrivilegeName := repoName;
                   OperationConfig.RoleName := roleName;
                   OperationConfig.PackageManager := RepositoryRequest.PackageManager r;
                   (* the literal in the source names no further field: the
                      remaining two keep Go's zero values *)
                   OperationConfig.Shared := false;
                   OperationConfig.AppID := "" |}, None)
      end
  end.
End Resolver.

(** ** job.go *)

Definition JobStatus := string.
Definition JobStatusPending : JobStatus := "pending".
Definition JobStatusProcessing : JobStatus := "processing".
Definition JobStatusCompleted : JobStatus := "completed".
Definition JobStatusFailed : JobStatus := "failed".

Module Job.
Record t := {
  ID : string;
  Status : JobStatus;
  Action : string;
  CreatedAt : Z;
  UpdatedAt : Z;
  TotalRequests : Z;
  SuccessfulOperations : Z;
  FailedOperations : Z;
  NotProcessedOperations : Z;
  FailedRequests : list FailedRequest.t;
  Message : string
}.

Definition setUpdatedAt (now : Z) (j : t) : t :=
  {| ID := ID j; Status := Status j; Action := Action j;
     CreatedAt := CreatedAt j; UpdatedAt := now;
     TotalRequests := TotalRequests j;
     SuccessfulOperations := SuccessfulOperations j;
     FailedOperations := FailedOperations j;
     NotProcessedOperations := NotProcessedOperations j;
     FailedRequests := FailedRequests j; Message := Message j |}.
End Job.

(** The store is the map behind the mutex; every operation below is one
    critical section. [time.Now()] is an argument. *)
Definition NewJobStore : gmap string Job.t := ∅.

Definition CreateJob (js : gmap string Job.t) (id action : string)
    (totalRequests : Z) (now : Z) : gmap string Job.t * Job.t :=
  let job := {| Job.ID := id;
                Job.Status := JobStatusPending;
                Job.Action := action;
                Job.CreatedAt := now;
                Job.UpdatedAt := now;
                Job.TotalRequests := totalRequests;
                Job.SuccessfulOperations := 0;
                Job.FailedOperations := 0;
                Job.NotProcessedOperations := totalRequests;
                Job.FailedRequests := [];
                Job.Message := "Job queued" |} in
  (<[id := job]> js, job).

Definition GetJob (js : gmap string Job.t) (id : string) : option Job.t * bool :=
  match js !! id with
  | Some job => (Some job, true)
  | None => (None, false)
  end.

Definition UpdateJob (js : gmap string Job.t) (id : string)
    (updateFn : Job.t → Job.t) (now : Z) : gmap string Job.t * option error :=
  match js !! id with
  | None => (js, Some (errorString ("job " +:+ id +:+ " not found")))
  | Some job => (<[id := Job.setUpdatedAt now (updateFn job)]> js, None)
  end.

End Config.

(* ================================================================== *)
(** * internal/service/role_engine.go *)
(* ================================================================== *)

Module RoleEngine.
Import GoStrings.

Record RoleDecisionEngine := {
  baseRoles : list string;
  extraRoles : list string;
  afterRemoval : list string
}.

(** The two filtering loops of the constructor. *)
Fixpoint filterEmpty (l : list string) : list string :=
  match l with
  | [] => []
  | r :: l' => if String.eqb r "" then filterEmpty l' else r :: filterEmpty l'
  end.

Definition NewRoleDecisionEngine (baseRoles extraRoles : list string)
  : RoleDecisionEngine :=
  let filteredExtra := filterEmpty extraRoles in
  let filteredBase := filterEmpty baseRoles in
  {| baseRoles := filteredBase; extraRoles := filteredExtra; afterRemoval := [] |}.

Definition SetAfterRemovalRoles (rde : RoleDecisionEngine) (roles : list string)
  : RoleDecisionEngine :=
  {| baseRoles := baseRoles rde; extraRoles := extraRoles rde; afterRemoval := roles |}.

(** The loop of [HasOtherRoles], over what is left of [afterRemoval]. *)
Fixpoint hasOtherLoop (base extra after : list string) : bool :=
  match after with
  | [] => false
  | r :: rest =>
      if Contains base r then hasOtherLoop base extra rest
      else if String.eqb r "repositories.share" then hasOtherLoop base extra rest
      else if Contains extra r then hasOtherLoop base extra rest
      else true
  end.

Definition HasOtherRoles (rde : RoleDecisionEngine) : bool :=
  hasOtherLoop (baseRoles rde) (extraRoles rde) (afterRemoval rde).

(** The state of the two loops of [DecideFinalRoles]: the map used as a
    set, and the slice being appended to. *)
Definition Acc : Type := gset string * list string.

Definition add (acc : Acc) (r : string) : Acc :=
  ({[ r ]} ∪ acc.1, acc.2 ++ [r]).

(** Body of the loop over the base roles. *)
Definition baseStep (acc : Acc) (br : string) : Acc :=
  if decide (br ∈ acc.1) then acc else add acc br.

(** Body of the loop over [afterRemoval]. *)
Definition remainingStep (extra : list string) (keepExtra : bool)
    (acc : Acc) (r : string) : Acc :=
  if decide (r ∈ acc.1) then acc
  else if Contains extra r then (if keepExtra then add acc r else acc)
  else add acc r.

Definition DecideFinalRoles (rde : RoleDecisionEngine) : list string :=
  let keepExtra := HasOtherRoles rde in
  let acc0 : Acc := (∅, []) in
  let acc1 := fold_left baseStep (baseRoles rde) acc0 in
  let acc2 := fold_left (remainingStep (extraRoles rde) keepExtra)
                        (afterRemoval rde) acc1 in
  acc2.2.

Fixpoint removedLoop (finalRoles extra : list string) : list string :=
  match extra with
  | [] => []
  | r :: rest =>
      if negb (Contains finalRoles r) then r :: removedLoop finalRoles rest
      else removedLoop finalRoles rest
  end.

Definition GetRemovedExtraRoles (rde : RoleDecisionEngine) : list string :=
  removedLoop (DecideFinalRoles rde) (extraRoles rde).

(** ** The decision as the specification words it *)

(** A list with every later duplicate skipped: the first occurrence of
    each element stays, in the original order. *)
Fixpoint skipDuplicates (l : list string) : list string :=
  match l with
  | [] => []
  | x :: l' => x :: filter (λ y, y ≠ x) (skipDuplicates l')
  end.

(** A role of [afterRemoval] that is not a base role is kept unless it
    is an extra role and the user has no other role. *)
Definition kept (rde : RoleDecisionEngine) (r : string) : Prop :=
  (r ∉ baseRoles rde) ∧ (r ∈ extraRoles rde → HasOtherRoles rde = true).

#[global] Instance kept_dec rde r : Decision (kept rde r).
Proof. unfold kept. apply _. Defined.

Definition FinalRolesSpec (rde : RoleDecisionEngine) : list string :=
  app (skipDuplicates (baseRoles rde))
      (skipDuplicates (filter (kept rde) (afterRemoval rde))).

End RoleEngine.

(* ================================================================== *)
(** * internal/client *)
(* ================================================================== *)

Module Client.
Import GoErrors Config.

(** ** types.go (the [Attributes] map of a repository is left out) *)

Module Repository.
Record t := {
  Name : string;
  Format : string;
  Type_ : string;
  Url : string;
  Online : bool
}.
End Repository.

Module Privilege.
Record t := {
  Name : string;
  Description : string;
  Actions : list string;
  Format : string;
  Repository : string;
  Type_ : string
}.
End Privilege.

Module Role.
Record t := {
  ID : string;
  Name : string;
  Description : string;
  Privileges : list string;
  Roles : list string
}.

Definition setPrivileges (privileges : list string) (r : t) : t :=
  {| ID := ID r; Name := Name r; Description := Description r;
     Privileges := privileges; Roles := Roles r |}.
End Role.

Module User.
Record t := {
  UserID : string;
  FirstName : string;
  LastName : string;
  EmailAddress : string;
  Source : string;
  Status : string;
  Roles : list string
}.

Definition setRoles (roles : list string) (u : t) : t :=
  {| UserID := UserID u; FirstName := FirstName u; LastName := LastName u;
     EmailAddress := EmailAddress u; Source := Source u;
     Status := Status u; Roles := roles |}.

Definition setStatus (status : string) (u : t) : t :=
  {| UserID := UserID u; FirstName := FirstName u; LastName := LastName u;
     EmailAddress := EmailAddress u; Source := Source u;
     Status := status; Roles := Roles u |}.
End User.

(** ** The Nexus client as the workflows see it

    One constructor per method the workflows call, indexed by what the
    method returns: a pointer that may be nil is an [option], a nil
    [error] is [None], and a pair is returned as Go returns it. *)
Inductive NexusCall : Type → Type :=
| GetRepository (name : string) : NexusCall (option Repository.t * option error)
| GetRepositories : NexusCall (list Repository.t * option error)
| CreateProxyRepository (config : OperationConfig.t) : NexusCall (option error)
| DeleteRepository (name : string) : NexusCall (option error)
| GetPrivilege (name : string) : NexusCall (option Privilege.t * option error)
| GetPrivileges : NexusCall (list Privilege.t * option error)
| CreatePrivilege (config : OperationConfig.t) : NexusCall (option error)
| DeletePrivilege (name : string) : NexusCall (option error)
| GetRole (name : string) : NexusCall (option Role.t * option error)
| CreateRole (config : OperationConfig.t) : NexusCall (option error)
| UpdateRole (role : Role.t) : NexusCall (option error)
| DeleteRole (name : string) : NexusCall (option error)
| GetUser (username : string) : NexusCall (option User.t * option error)
| UpdateUser (user : User.t) : NexusCall (option error).

(** A workflow: a value, or a call to the client and what is done with
    its answer. The loops of the workflows run over finite slices, so the
    programs are finite. *)
Inductive Prog (A : Type) : Type :=
| Ret (a : A)
| Call {X : Type} (c : NexusCall X) (k : X → Prog A).
Arguments Ret {A} a.
Arguments Call {A X} c k.

Fixpoint bind {A B : Type} (p : Prog A) (f : A → Prog B) : Prog B :=
  match p with
  | Ret a => f a
  | Call c k => Call c (λ x, bind (k x) f)
  end.

#[global] Instance Prog_ret : MRet Prog := @Ret.
#[global] Instance Prog_bind : MBind Prog := λ A B f p, bind p f.

Definition call {X : Type} (c : NexusCall X) : Prog X := Call c Ret.

(** ** Traces *)

(** A call together with the client's answer. *)
Inductive Event : Type :=
| EvGetRepository (name : string) (r : option Repository.t * option error)
| EvGetRepositories (r : list Repository.t * option error)
| EvCreateProxyRepository (config : OperationConfig.t) (r : option error)
| EvDeleteRepository (name : string) (r : option error)
| EvGetPrivilege (name : string) (r : option Privilege.t * option error)
| EvGetPrivileges (r : list Privilege.t * option error)
| EvCreatePrivilege (config : OperationConfig.t) (r : option error)
| EvDeletePrivilege (name : string) (r : option error)
| EvGetRole (name : string) (r : option Role.t * option error)
| EvCreateRole (config : OperationConfig.t) (r : option error)
| EvUpdateRole (role : Role.t) (r : option error)
| EvDeleteRole (name : string) (r : option error)
| EvGetUser (username : string) (r : option User.t * option error)
| EvUpdateUser (user : User.t) (r : option error).

Definition event {X : Type} (c : NexusCall X) : X → Event :=
  match c in NexusCall X return X → Event with
  | GetRepository name => EvGetRepository name
  | GetRepositories => EvGetRepositories
  | CreateProxyRepository config => EvCreateProxyRepository config
  | DeleteRepository name => EvDeleteRepository name
  | GetPrivilege name => EvGetPrivilege name
  | GetPrivileges => EvGetPrivileges
  | CreatePrivilege config => EvCreatePrivilege config
  | DeletePrivilege name => EvDeletePrivilege name
  | GetRole name => EvGetRole name
  | CreateRole config => EvCreateRole config
  | UpdateRole role => EvUpdateRole role
  | DeleteRole name => EvDeleteRole name
  | GetUser username => EvGetUser username
  | UpdateUser user => EvUpdateUser user
  end.

(** An implementation of the client over some state [W] of the remote
    system (the real server, or a mock). *)
Definition Handler (W : Type) : Type := ∀ X : Type, NexusCall X → W → X * W.

(** Running a workflow against an implementation: its result, the final
    state of the remote system, and the calls made with their answers. *)
Fixpoint run {W A : Type} (h : Handler W) (p : Prog A) (w : W)
  : A * W * list Event :=
  match p with
  | Ret a => (a, w, [])
  | Call c k =>
      let '(x, w1) := h _ c w in
      let '(a, w2, tr) := run h (k x) w1 in
      (a, w2, event c x :: tr)
  end.

(** The runs of a workflow over every possible behaviour of the client:
    [exec p tr a] when [p] makes the calls of [tr], receives the answers
    recorded there, and returns [a]. *)
Fixpoint exec {A : Type} (p : Prog A) (tr : list Event) (a : A) : Prop :=
  match p with
  | Ret a' => tr = [] ∧ a = a'
  | Call c k => ∃ x tr', tr = event c x :: tr' ∧ exec (k x) tr' a
  end.

(** Names passed to [DeleteRepository] and [DeletePrivilege], in call
    order. *)
Fixpoint deletedRepositories (tr : list Event) : list string :=
  match tr with
  | [] => []
  | EvDeleteRepository name _ :: tr' => name :: deletedRepositories tr'
  | _ :: tr' => deletedRepositories tr'
  end.

Fixpoint deletedPrivileges (tr : list Event) : list string :=
  match tr with
  | [] => []
  | EvDeletePrivilege name _ :: tr' => name :: deletedPrivileges tr'
  | _ :: tr' => deletedPrivileges tr'
  end.

(** The result and the trace of a run. *)
Definition outcome {W A : Type} (h : Handler W) (p : Prog A) (w : W) : A :=
  (run h p w).1.1.

Definition trace {W A : Type} (h : Handler W) (p : Prog A) (w : W)
  : list Event :=
  (run h p w).2.

End Client.

(* ================================================================== *)
(** * internal/service *)
(* ================================================================== *)

Module Service.
Import GoStrings GoErrors Config Client RoleEngine.

(** The result map of a workflow run. *)
Definition Result : Type := gmap string string.

(** ** deletion.go: NexusCleaner

    Every method reads the operation config [cfg] of its receiver; log
    calls have no effect on the workflow and are left out. *)
Module NexusCleaner.

Definition DeleteRepositoryByName (cfg : OperationConfig.t) (name : string)
  : Prog (option error) :=
  err ← call (Client.DeleteRepository name);
  match err with
  | Some e => mret (Some (wrapError ("delete repository '" +:+ name +:+ "'") e))
  | None => mret None
  end.

Definition DeleteRepository (cfg : OperationConfig.t) : Prog (option error) :=
  DeleteRepositoryByName cfg (OperationConfig.RepositoryName cfg).

Definition DeletePrivilegeByName (cfg : OperationConfig.t) (name : string)
  : Prog (option error) :=
  err ← call (Client.DeletePrivilege name);
  match err with
  | Some e => mret (Some (wrapError ("delete privilege '" +:+ name +:+ "'") e))
  | None => mret None
  end.

Definition DeletePrivilege (cfg : OperationConfig.t) : Prog (option error) :=
  DeletePrivilegeByName cfg (OperationConfig.PrivilegeName cfg).

Definition CleanupRole (cfg : OperationConfig.t) : Prog (option error) :=
  let roleName := OperationConfig.RoleName cfg in
  '(role, err) ← call (Client.GetRole roleName);
  match err with
  | Some e =>
      mret (Some (wrapError ("cleanup role '" +:+ roleName
                               +:+ "': get role failed") e))
  | None =>
      match role with
      | None => mret None
      | Some role =>
          let privileges := Role.Privileges role in
          if (length privileges =? 0)%nat then
            err ← call (Client.DeleteRole roleName);
            match err with
            | Some e =>
                mret (Some (wrapError ("cleanup role '" +:+ roleName
                                         +:+ "': delete empty role failed") e))
            | None => mret None
            end
          else mret None
      end
  end.

Definition ForceDeleteRole (cfg : OperationConfig.t) (roleName : string)
  : Prog (option error) :=
  err ← call (Client.DeleteRole roleName);
  match err with
  | Some e =>
      match AsHTTPError e with
      | Some code =>
          if (code =? StatusNotFound)%Z then mret None
          else mret (Some (wrapError ("force delete role '" +:+ roleName +:+ "'") e))
      | None =>
          mret (Some (wrapError ("force delete role '" +:+ roleName +:+ "'") e))
      end
  | None => mret None
  end.

Definition DisableUserAndResetRoles (cfg : OperationConfig.t)
  : Prog (option error) :=
  let username := OperationConfig.LdapUsername cfg in
  '(user, err) ← call (Client.GetUser username);
  match err with
  | Some e =>
      mret (Some (wrapError ("disable user '" +:+ username
                               +:+ "': get user failed") e))
  | None =>
      match user with
      | None => mret (Some (errorString ("user '" +:+ username +:+ "' not found")))
      | Some user =>
          let user := User.setRoles (OperationConfig.BaseRoles cfg) user in
          let user := User.setStatus "disabled" user in
          err ← call (Client.UpdateUser user);
          match err with
          | Some e =>
              mret (Some (wrapError ("disable user '" +:+ username
                                       +:+ "': update failed") e))
          | None => mret None
          end
      end
  end.

(** The loop that drops the first occurrence of the target role. *)
Fixpoint removeFirst (roleName : string) (roles : list string) : list string :=
  match roles with
  | [] => []
  | r :: rest => if String.eqb r roleName then rest
                 else r :: removeFirst roleName rest
  end.

Definition CleanupUserRoles (cfg : OperationConfig.t) : Prog (option error) :=
  let username := OperationConfig.LdapUsername cfg in
  let roleName := OperationConfig.RoleName cfg in
  '(user, err) ← call (Client.GetUser username);
  match err with
  | Some e =>
      mret (Some (wrapError ("cleanup user roles for '" +:+ username
                               +:+ "': get user failed") e))
  | None =>
      match user with
      | None => mret None
      | Some user =>
          let roles := User.Roles user in
          (* the rest of the method, once the role list is settled *)
          let finish (roles : list string) : Prog (option error) :=
            let roleEngine :=
              NewRoleDecisionEngine (OperationConfig.BaseRoles cfg)
                                    (OperationConfig.ExtraRoles cfg) in
            let roleEngine := SetAfterRemovalRoles roleEngine roles in
            let finalRoles := DecideFinalRoles roleEngine in
            let user := User.setRoles finalRoles user in
            err ← call (Client.UpdateUser user);
            match err with
            | Some e =>
                mret (Some (wrapError ("cleanup user roles for '" +:+ username
                                         +:+ "': update user failed") e))
            | None => mret None
            end in
          if negb (String.eqb roleName "") then
            '(roleInfo, err) ← call (Client.GetRole roleName);
            match err with
            | Some e =>
                mret (Some (wrapError ("cleanup user roles for '" +:+ username
                                         +:+ "': get role '" +:+ roleName
                                         +:+ "' failed") e))
            | None =>
                let canRemove :=
                  match roleInfo with
                  | Some roleInfo =>
                      if (0 <? length (Role.Privileges roleInfo))%nat
                      then false else true
                  | None => true
                  end in
                if canRemove then finish (removeFirst roleName roles)
                else finish roles
            end
          else finish roles
      end
  end.

End NexusCleaner.

(** ** deletion.go: DeletionManager *)
Module DeletionManager.

(** The two sweeps of offboarding: a failed deletion is logged and the
    loop goes on. *)
Fixpoint sweepRepositories (cfg : OperationConfig.t) (suffix : string)
    (allRepos : list Repository.t) : Prog unit :=
  match allRepos with
  | [] => mret tt
  | repo :: rest =>
      if HasSuffix (Repository.Name repo) suffix then
        _ ← NexusCleaner.DeleteRepositoryByName cfg (Repository.Name repo);
        sweepRepositories cfg suffix rest
      else sweepRepositories cfg suffix rest
  end.

Fixpoint sweepPrivileges (cfg : OperationConfig.t) (suffix : string)
    (allPrivs : list Privilege.t) : Prog unit :=
  match allPrivs with
  | [] => mret tt
  | priv :: rest =>
      if HasSuffix (Privilege.Name priv) suffix then
        _ ← NexusCleaner.DeletePrivilegeByName cfg (Privilege.Name priv);
        sweepPrivileges cfg suffix rest
      else sweepPrivileges cfg suffix rest
  end.

Definition offboardingResult (cfg : OperationConfig.t) : Result :=
  {[ "action" := OperationConfig.Action cfg;
     "mode" := "offboarding";
     "ldap_username" := OperationConfig.LdapUsername cfg;
     "app_id" := OperationConfig.AppID cfg ]}.

Definition standardResult (cfg : OperationConfig.t) : Result :=
  {[ "action" := OperationConfig.Action cfg;
     "repository_name" := OperationConfig.RepositoryName cfg;
     "ldap_username" := OperationConfig.LdapUsername cfg;
     "organization_id" := OperationConfig.OrganizationID cfg ]}.

Definition Run (cfg : OperationConfig.t) : Prog (option Result * option error) :=
  if OperationConfig.Shared cfg && negb (String.eqb (OperationConfig.AppID cfg) "")
  then
    err ← NexusCleaner.DisableUserAndResetRoles cfg;
    match err with
    | Some e => mret (None, Some e)
    | None =>
        _ ← NexusCleaner.ForceDeleteRole cfg (OperationConfig.LdapUsername cfg);
        '(allRepos, err) ← call Client.GetRepositories;
        match err with
        | Some e =>
            mret (None, Some (wrapError "offboarding: failed to list repositories" e))
        | None =>
            let suffix := "-release-" +:+ OperationConfig.AppID cfg in
            _ ← sweepRepositories cfg suffix allRepos;
            '(allPrivs, err) ← call Client.GetPrivileges;
            match err with
            | Some e =>
                mret (None, Some (wrapError "offboarding: failed to list privileges" e))
            | None =>
                _ ← sweepPrivileges cfg suffix allPrivs;
                mret (Some (offboardingResult cfg), None)
            end
        end
    end
  else if String.eqb (OperationConfig.RoleName cfg) "repositories.share" then
    err ← NexusCleaner.CleanupUserRoles cfg;
    match err with
    | Some e => mret (None, Some e)
    | None => mret (Some (standardResult cfg), None)
    end
  else
    err ← NexusCleaner.DeleteRepository cfg;
    match err with
    | Some e => mret (None, Some e)
    | None =>
        err ← NexusCleaner.DeletePrivilege cfg;
        match err with
        | Some e => mret (None, Some e)
        | None =>
            err ← NexusCleaner.CleanupRole cfg;
            match err with
            | Some e => mret (None, Some e)
            | None =>
                err ← NexusCleaner.CleanupUserRoles cfg;
                match err with
                | Some e => mret (None, Some e)
                | None => mret (Some (standardResult cfg), None)
                end
            end
        end
    end.

End DeletionManager.

(** ** creation.go: NexusCreator (the two existence-checked steps) *)
Module NexusCreator.

Definition CreateRepository (cfg : OperationConfig.t) : Prog (option error) :=
  '(_, err) ← call (Client.GetRepository (OperationConfig.RepositoryName cfg));
  match err with
  | None => mret None
  | Some _ =>
      err ← call (Client.CreateProxyRepository cfg);
      match err with
      | Some e =>
          mret (Some (wrapError
            ("create proxy repository '" +:+ OperationConfig.RepositoryName cfg
               +:+ "' (package_manager='" +:+ OperationConfig.PackageManager cfg
               +:+ "', remote_url='" +:+ OperationConfig.RemoteURL cfg +:+ "')") e))
      | None => mret None
      end
  end.

Definition CreatePrivilege (cfg : OperationConfig.t) : Prog (option error) :=
  '(_, err) ← call (Client.GetPrivilege (OperationConfig.PrivilegeName cfg));
  match err with
  | None => mret None
  | Some _ =>
      err ← call (Client.CreatePrivilege cfg);
      match err with
      | Some e =>
          mret (Some (wrapError
            ("create privilege '" +:+ OperationConfig.PrivilegeName cfg
               +:+ "' for repository '" +:+ OperationConfig.RepositoryName cfg
               +:+ "'") e))
      | None => mret None
      end
  end.

End NexusCreator.

(** ** progress_tracker.go

    The tracker is a store and a job id; each method is one [UpdateJob]
    whose error is dropped. *)
Module JobProgressTracker.

Definition SetProcessing (js : gmap string Job.t) (jobID : string) (now : Z)
  : gmap string Job.t :=
  (UpdateJob js jobID (λ job,
     {| Job.ID := Job.ID job;
        Job.Status := JobStatusProcessing;
        Job.Action := Job.Action job;
        Job.CreatedAt := Job.CreatedAt job;
        Job.UpdatedAt := Job.UpdatedAt job;
        Job.TotalRequests := Job.TotalRequests job;
        Job.SuccessfulOperations := Job.SuccessfulOperations job;
        Job.FailedOperations := Job.FailedOperations job;
        Job.NotProcessedOperations := Job.NotProcessedOperations job;
        Job.FailedRequests := Job.FailedRequests job;
        Job.Message := "Processing requests" |}) now).1.

Definition Finalize (js : gmap string Job.t) (jobID : string)
    (successful failed notProcessed total : Z)
    (failedRequests : list FailedRequest.t) (now : Z) : gmap string Job.t :=
  (UpdateJob js jobID (λ job,
     let '(status, message) :=
       if (failed =? 0)%Z then
         (JobStatusCompleted,
          "Successfully processed all " +:+ Itoa successful +:+ " requests")
       else if (successful =? 0)%Z then
         (JobStatusFailed, "All " +:+ Itoa failed +:+ " requests failed")
       else
         (JobStatusCompleted,
          "Processed " +:+ Itoa successful +:+ " of " +:+ Itoa total
            +:+ " requests with " +:+ Itoa failed +:+ " errors") in
     {| Job.ID := Job.ID job;
        Job.Status := status;
        Job.Action := Job.Action job;
        Job.CreatedAt := Job.CreatedAt job;
        Job.UpdatedAt := Job.UpdatedAt job;
        Job.TotalRequests := Job.TotalRequests job;
        Job.SuccessfulOperations := successful;
        Job.FailedOperations := failed;
        Job.NotProcessedOperations := notProcessed;
        Job.FailedRequests := failedRequests;
        Job.Message := message |}) now).1.

Definition MarkFailed (js : gmap string Job.t) (jobID : string)
    (totalRequests : Z) (now : Z) : gmap string Job.t :=
  (UpdateJob js jobID (λ job,
     {| Job.ID := Job.ID job;
        Job.Status := JobStatusFailed;
        Job.Action := Job.Action job;
        Job.CreatedAt := Job.CreatedAt job;
        Job.UpdatedAt := Job.UpdatedAt job;
        Job.TotalRequests := totalRequests;
        Job.SuccessfulOperations := Job.SuccessfulOperations job;
        Job.FailedOperations := totalRequests;
        Job.NotProcessedOperations := 0;
        Job.FailedRequests := Job.FailedRequests job;
        Job.Message := "All " +:+ Itoa totalRequests +:+ " requests failed" |})
     now).1.

End JobProgressTracker.

End Service.

(* ================================================================== *)
(** * internal/server *)
(* ================================================================== *)

Module Server.
Import GoStrings GoErrors GoInt Config Service.

(** ** consts.go, types.go *)

Definition MethodCreate : string := "create".
Definition MethodDelete : string := "delete".

Module ValidationError.
Record t := {
  Request : RepositoryRequest.t;
  Reasons : list string
}.
End ValidationError.

Module ValidationResult.
Record t := {
  ValidRequests : list RepositoryRequest.t;
  InvalidRequests : list ValidationError.t
}.
End ValidationResult.

(** ** handlers.go: validateBatchRequest

    The three checks of the loop body, in source order; each gives the
    reason with which the request is rejected, if it is. *)
Definition checkPackageManager (action : string) (req : RepositoryRequest.t)
  : option string :=
  if String.eqb action MethodDelete && RepositoryRequest.Shared req then
    if negb (String.eqb (RepositoryRequest.PackageManager req) "")
    then Some "packageManager must be empty for shared delete operations"
    else None
  else
    if String.eqb (RepositoryRequest.PackageManager req) ""
    then Some "packageManager is required for this operation type"
    else None.

Definition checkAppIDShared (action : string) (req : RepositoryRequest.t)
  : option string :=
  if String.eqb action MethodCreate then
    if RepositoryRequest.Shared req
       && negb (String.eqb (RepositoryRequest.AppID req) "")
    then Some "appid not allowed for shared repos on create"
    else None
  else if String.eqb action MethodDelete then
    if RepositoryRequest.Shared req
       && String.eqb (RepositoryRequest.AppID req) ""
    then Some "appid required for shared repos on delete (offboarding)"
    else None
  else None.

Definition checkNonShared (req : RepositoryRequest.t) : option string :=
  if negb (RepositoryRequest.Shared req)
     && String.eqb (RepositoryRequest.AppID req) ""
  then Some "appid required for non-shared repos"
  else None.

(** One iteration of the loop: the first failing check ends it. *)
Definition validateStep (action : string) (acc : ValidationResult.t)
    (req : RepositoryRequest.t) : ValidationResult.t :=
  let reject (reason : string) :=
    {| ValidationResult.ValidRequests := ValidationResult.ValidRequests acc;
       ValidationResult.InvalidRequests :=
         ValidationResult.InvalidRequests acc
           ++ [ {| ValidationError.Request := req;
                   ValidationError.Reasons := [reason] |} ] |} in
  match checkPackageManager action req with
  | Some reason => reject reason
  | None =>
      match checkAppIDShared action req with
      | Some reason => reject reason
      | None =>
          match checkNonShared req with
          | Some reason => reject reason
          | None =>
              {| ValidationResult.ValidRequests :=
                   ValidationResult.ValidRequests acc ++ [req];
                 ValidationResult.InvalidRequests :=
                   ValidationResult.InvalidRequests acc |}
          end
      end
  end.

(** [batch] is the [Requests] slice of the parsed body. *)
Definition validateBatchRequest (batch : list RepositoryRequest.t)
    (action : string) : ValidationResult.t :=
  fold_left (validateStep action) batch
    {| ValidationResult.ValidRequests := [];
       ValidationResult.InvalidRequests := [] |}.

(** ** sync.go: ProcessBatchAsync *)

Module operationResult.
Record t := {
  Success : bool;
  Error : string
}.
End operationResult.

Module batchResult.
Record t := {
  request : RepositoryRequest.t;
  result : operationResult.t
}.
End batchResult.

(** The synchronous part: the job is created for the valid requests.
    [jobID] is the identifier drawn by [uuid.New()]. *)
Definition queueJob (js : gmap string Job.t) (validationResult : ValidationResult.t)
    (batchRequest : list RepositoryRequest.t) (action jobID : string) (now : Z)
  : gmap string Job.t * (string * Z * Z * Z) :=
  let totalRequests := Z.of_nat (length batchRequest) in
  let validCount :=
    Z.of_nat (length (ValidationResult.ValidRequests validationResult)) in
  let invalidCount :=
    Z.of_nat (length (ValidationResult.InvalidRequests validationResult)) in
  ((CreateJob js jobID action validCount now).1,
   (jobID, totalRequests, validCount, invalidCount)).

(** Fan-in: one iteration of the loop over the closed results channel. *)
Definition fanInStep (acc : Z * Z * list FailedRequest.t) (res : batchResult.t)
  : Z * Z * list FailedRequest.t :=
  let '(successfulOps, failedOps, failedRequests) := acc in
  if operationResult.Success (batchResult.result res) then
    (wrapInt (successfulOps + 1), failedOps, failedRequests)
  else
    (successfulOps, wrapInt (failedOps + 1),
     failedRequests
       ++ [ {| FailedRequest.Request := batchResult.request res;
               FailedRequest.Reason :=
                 operationResult.Error (batchResult.result res) |} ]).

Definition fanIn (results : list batchResult.t) : Z * Z * list FailedRequest.t :=
  fold_left fanInStep results (0, 0, []).

(** The end of the background task: [results] is what the workers left
    on the channel, one entry per request, in completion order. *)
Definition finishBatch (js : gmap string Job.t) (jobID : string)
    (requests : list RepositoryRequest.t) (results : list batchResult.t)
    (now : Z) : gmap string Job.t :=
  let '(successfulOps, failedOps, failedRequests) := fanIn results in
  JobProgressTracker.Finalize js jobID successfulOps failedOps 0
    (Z.of_nat (length requests)) failedRequests now.

(** ** The job store under concurrent batches

    A background task between its launch and its last update of the job:
    the job id it tracks, the valid requests it works on, and whether it
    has marked the job as processing yet. *)
Record Task := {
  taskJobID : string;
  taskRequests : list RepositoryRequest.t;
  taskStarted : bool
}.

Record System := {
  jobs : gmap string Job.t;
  tasks : list Task
}.

Definition initial : System := {| jobs := NewJobStore; tasks := [] |}.

(** One critical section of the store: a call of [CreateJob] on an
    identifier that no running task tracks, or a step of a batch. A slice
    holds at most [MaxInt] elements, and [uuid.New()] gives an identifier
    not in use. *)
Inductive step : System → System → Prop :=
| step_create js ts id action totalRequests now :
    (∀ t, t ∈ ts → taskJobID t ≠ id) →
    step {| jobs := js; tasks := ts |}
         {| jobs := (CreateJob js id action totalRequests now).1; tasks := ts |}
| step_submit js ts validationResult batchRequest action jobID now :
    js !! jobID = None →
    Z.of_nat (length (ValidationResult.ValidRequests validationResult)) ≤ MaxInt →
    step {| jobs := js; tasks := ts |}
         {| jobs := (queueJob js validationResult batchRequest action jobID now).1;
            tasks := {| taskJobID := jobID;
                        taskRequests :=
                          ValidationResult.ValidRequests validationResult;
                        taskStarted := false |} :: ts |}
| step_processing js ts1 ts2 jobID requests now :
    step {| jobs := js;
            tasks := ts1 ++ {| taskJobID := jobID; taskRequests := requests;
                               taskStarted := false |} :: ts2 |}
         {| jobs := JobProgressTracker.SetProcessing js jobID now;
            tasks := ts1 ++ {| taskJobID := jobID; taskRequests := requests;
                               taskStarted := true |} :: ts2 |}
| step_finalize js ts1 ts2 jobID requests results now :
    batchResult.request <$> results ≡ₚ requests →
    step {| jobs := js;
            tasks := ts1 ++ {| taskJobID := jobID; taskRequests := requests;
                               taskStarted := true |} :: ts2 |}
         {| jobs := finishBatch js jobID requests results now;
            tasks := ts1 ++ ts2 |}
| step_mark_failed js ts1 ts2 jobID requests started totalRequests now :
    step {| jobs := js;
            tasks := ts1 ++ {| taskJobID := jobID; taskRequests := requests;
                               taskStarted := started |} :: ts2 |}
         {| jobs := JobProgressTracker.MarkFailed js jobID totalRequests now;
            tasks := ts1 ++ ts2 |}.

Inductive reachable : System → Prop :=
| reachable_initial : reachable initial
| reachable_step s s' : reachable s → step s s' → reachable s'.

(** ** The statements of the specification *)

(** When a request passes validation, in the specification's words. *)
Definition acceptedSpec (action : string) (req : RepositoryRequest.t) : Prop :=
  (action = MethodDelete ∧ RepositoryRequest.Shared req = true →
   RepositoryRequest.PackageManager req = "")
  ∧ (¬ (action = MethodDelete ∧ RepositoryRequest.Shared req = true) →
     RepositoryRequest.PackageManager req ≠ "")
  ∧ (action = MethodCreate → RepositoryRequest.Shared req = true →
     RepositoryRequest.AppID req = "")
  ∧ (action = MethodDelete → RepositoryRequest.Shared req = true →
     RepositoryRequest.AppID req ≠ "")
  ∧ (RepositoryRequest.Shared req = false → RepositoryRequest.AppID req ≠ "").

#[global] Instance acceptedSpec_dec action req : Decision (acceptedSpec action req).
Proof. unfold acceptedSpec. apply _. Defined.

(** The results of the requests that succeeded, and of those that
    failed, in completion order. *)
Definition successes (results : list batchResult.t) : list batchResult.t :=
  filter (λ res, operationResult.Success (batchResult.result res) = true) results.

Definition failures (results : list batchResult.t) : list batchResult.t :=
  filter (λ res, operationResult.Success (batchResult.result res) = false) results.

Definition toFailedRequest (res : batchResult.t) : FailedRequest.t :=
  {| FailedRequest.Request := batchResult.request res;
     FailedRequest.Reason := operationResult.Error (batchResult.result res) |}.

(** The counters of a job add up. *)
Definition countersAddUp (job : Job.t) : Prop :=
  Job.TotalRequests job
  = Job.SuccessfulOperations job + Job.FailedOperations job
    + Job.NotProcessedOperations job.

(** What holds of a background task that has not made its last update:
    its job is in the store, was created for its requests, and records
    no success yet. *)
Definition taskTracked (js : gmap string Job.t) (t : Task) : Prop :=
  ∃ job, js !! taskJobID t = Some job
    ∧ Job.TotalRequests job = Z.of_nat (length (taskRequests t))
    ∧ Job.SuccessfulOperations job = 0
    ∧ Z.of_nat (length (taskRequests t)) ≤ MaxInt.

Definition systemInvariant (s : System) : Prop :=
  (∀ id job, jobs s !! id = Some job → countersAddUp job)
  ∧ Forall (taskTracked (jobs s)) (tasks s)
  ∧ NoDup (taskJobID <$> tasks s).

End Server.

(* ================================================================== *)
(** * Concrete configurations, requests and clients *)
(* ================================================================== *)

Module Examples.
Import GoStrings GoErrors Config Client Service Server.

Definition npmManager : PackageManager.t :=
  {| PackageManager.DefaultURL := "https://registry.npmjs.org";
     PackageManager.PrivilegeFormat := "";
     PackageManager.APIEndpointPath := "" |}.

Definition mavenManager : PackageManager.t :=
  {| PackageManager.DefaultURL := "https://repo1.maven.org/maven2";
     PackageManager.PrivilegeFormat := "maven2";
     PackageManager.APIEndpointPath := "" |}.

(** The configuration of the repository's resolver test, with one more
    package manager whose key has a capital letter. *)
Definition testConfig : Config :=
  {| BaseRoles := ["base-role"];
     ExtraRoles := ["extra-role"];
     Orgs := {[ "org1" := "org-id-1" ]};
     PackageManagers := {[ "npm" := npmManager; "Maven" := mavenManager ]} |}.

(** A create request for an application repository, and one for the
    shared repository; both pass batch validation. *)
Definition appRequest : RepositoryRequest.t :=
  {| RepositoryRequest.OrganizationName := "org1";
     RepositoryRequest.LdapUsername := "user1";
     RepositoryRequest.PackageManager := "npm";
     RepositoryRequest.Shared := false;
     RepositoryRequest.AppID := "app1" |}.

Definition mavenRequest : RepositoryRequest.t :=
  {| RepositoryRequest.OrganizationName := "org1";
     RepositoryRequest.LdapUsername := "user1";
     RepositoryRequest.PackageManager := "Maven";
     RepositoryRequest.Shared := false;
     RepositoryRequest.AppID := "app1" |}.

Definition sharedRequest : RepositoryRequest.t :=
  {| RepositoryRequest.OrganizationName := "org1";
     RepositoryRequest.LdapUsername := "user1";
     RepositoryRequest.PackageManager := "npm";
     RepositoryRequest.Shared := true;
     RepositoryRequest.AppID := "" |}.

(** A scripted Nexus client: every lookup of a repository fails with a
    server error, one repository deletion fails, and the role named
    after the user is already gone. *)
Definition repositoryNamed (name : string) : Repository.t :=
  {| Repository.Name := name; Repository.Format := "npm";
     Repository.Type_ := "proxy"; Repository.Url := "";
     Repository.Online := true |}.

Definition privilegeNamed (name : string) : Privilege.t :=
  {| Privilege.Name := name; Privilege.Description := "";
     Privilege.Actions := ["BROWSE"; "READ"; "EDIT"; "ADD"; "DELETE"];
     Privilege.Format := "npm"; Privilege.Repository := name;
     Privilege.Type_ := "repository-view" |}.

Definition user1 : User.t :=
  {| User.UserID := "user1"; User.FirstName := "User"; User.LastName := "One";
     User.EmailAddress := "user1@example.com"; User.Source := "LDAP";
     User.Status := "active";
     User.Roles := ["user1"; "extra-role"; "base-role"] |}.

Definition emptyRole (name : string) : Role.t :=
  {| Role.ID := name; Role.Name := name; Role.Description := "";
     Role.Privileges := []; Role.Roles := [] |}.

Definition scriptedRepositories : list Repository.t :=
  [repositoryNamed "npm-release-app-9";
   repositoryNamed "maven-release-app-9";
   repositoryNamed "npm-release-app-99"].

Definition scriptedPrivileges : list Privilege.t :=
  [privilegeNamed "other-priv";
   privilegeNamed "npm-release-app-9";
   privilegeNamed "maven-release-app-9"].

Definition scripted {X : Type} (c : NexusCall X) : X :=
  match c in NexusCall X return X with
  | GetRepository _ => (None, Some (HTTPError 500 "server error"))
  | GetRepositories => (scriptedRepositories, None)
  | CreateProxyRepository _ => None
  | DeleteRepository name =>
      if String.eqb name "npm-release-app-9"
      then Some (HTTPError 500 "server error") else None
  | GetPrivilege name => (Some (privilegeNamed name), None)
  | GetPrivileges => (scriptedPrivileges, None)
  | CreatePrivilege _ => None
  | DeletePrivilege _ => None
  | GetRole name => (Some (emptyRole name), None)
  | CreateRole _ => None
  | UpdateRole _ => None
  | DeleteRole name =>
      if String.eqb name "user1"
      then Some (HTTPError 404 "not found") else None
  | GetUser _ => (Some user1, None)
  | UpdateUser _ => None
  end.

Definition scriptedClient : Handler unit := λ X c w, (scripted c, w).

(** An offboarding descriptor, and a standard delete descriptor. *)
Definition offboardConfig : OperationConfig.t :=
  {| OperationConfig.Action := "delete";
     OperationConfig.LdapUsername := "user1";
     OperationConfig.OrganizationID := "org-id-1";
     OperationConfig.RemoteURL := "";
     OperationConfig.ExtraRoles := ["extra-role"];
     OperationConfig.BaseRoles := ["base-role"];
     OperationConfig.RepositoryName := "npm-release-app-9";
     OperationConfig.PrivilegeName := "npm-release-app-9";
     OperationConfig.RoleName := "user1";
     OperationConfig.PackageManager := "";
     OperationConfig.Shared := true;
     OperationConfig.AppID := "app-9" |}.

Definition standardConfig : OperationConfig.t :=
  {| OperationConfig.Action := "delete";
     OperationConfig.LdapUsername := "user1";
     OperationConfig.OrganizationID := "org-id-1";
     OperationConfig.RemoteURL := "https://registry.npmjs.org";
     OperationConfig.ExtraRoles := ["extra-role"];
     OperationConfig.BaseRoles := ["base-role"];
     OperationConfig.RepositoryName := "npm-release-app1";
     OperationConfig.PrivilegeName := "npm-release-app1";
     OperationConfig.RoleName := "app-role";
     OperationConfig.PackageManager := "npm";
     OperationConfig.Shared := false;
     OperationConfig.AppID := "" |}.

(** A delete batch: an offboarding request, a shared delete that names
    a package manager (to be rejected), and an application delete. *)
Definition offboardRequest : RepositoryRequest.t :=
  {| RepositoryRequest.OrganizationName := "org1";
     RepositoryRequest.LdapUsername := "user1";
     RepositoryRequest.PackageManager := "";
     RepositoryRequest.Shared := true;
     RepositoryRequest.AppID := "app-9" |}.

Definition badRequest : RepositoryRequest.t :=
  {| RepositoryRequest.OrganizationName := "org1";
     RepositoryRequest.LdapUsername := "user1";
     RepositoryRequest.PackageManager := "npm";
     RepositoryRequest.Shared := true;
     RepositoryRequest.AppID := "app-9" |}.

Definition deleteBatch : list RepositoryRequest.t :=
  [offboardRequest; badRequest; appRequest].

Definition validated : ValidationResult.t :=
  validateBatchRequest deleteBatch MethodDelete.

(** What the two workers leave on the channel: the application delete
    finishes first and succeeds, the offboarding fails. *)
Definition deleteResults : list batchResult.t :=
  [ {| batchResult.request := appRequest;
       batchResult.result := {| operationResult.Success := true;
                                operationResult.Error := "" |} |};
    {| batchResult.request := offboardRequest;
       batchResult.result :=
         {| operationResult.Success := false;
            operationResult.Error := "package manager '' not found" |} |} ].

(** The store along the life of that batch. *)
Definition submitted : System :=
  {| jobs := (queueJob (jobs initial) validated deleteBatch MethodDelete
                "job-1" 10).1;
     tasks := [ {| taskJobID := "job-1";
                   taskRequests := ValidationResult.ValidRequests validated;
                   taskStarted := false |} ] |}.

Definition processing : System :=
  {| jobs := JobProgressTracker.SetProcessing (jobs submitted) "job-1" 11;
     tasks := [ {| taskJobID := "job-1";
                   taskRequests := ValidationResult.ValidRequests validated;
                   taskStarted := true |} ] |}.

Definition finalized : System :=
  {| jobs := finishBatch (jobs processing) "job-1"
               (ValidationResult.ValidRequests validated) deleteResults 12;
     tasks := [] |}.

Definition processingJob : Job.t :=
  {| Job.ID := "job-1";
     Job.Status := JobStatusProcessing;
     Job.Action := "delete";
     Job.CreatedAt := 10;
     Job.UpdatedAt := 11;
     Job.TotalRequests := 2;
     Job.SuccessfulOperations := 0;
     Job.FailedOperations := 0;
     Job.NotProcessedOperations := 2;
     Job.FailedRequests := [];
     Job.Message := "Processing requests" |}.

Definition finalizedJob : Job.t :=
  {| Job.ID := "job-1";
     Job.Status := JobStatusCompleted;
     Job.Action := "delete";
     Job.CreatedAt := 10;
     Job.UpdatedAt := 12;
     Job.TotalRequests := 2;
     Job.SuccessfulOperations := 1;
     Job.FailedOperations := 1;
     Job.NotProcessedOperations := 0;
     Job.FailedRequests :=
       [ {| FailedRequest.Request := offboardRequest;
            FailedRequest.Reason := "package manager '' not found" |} ];
     Job.Message := "Processed 1 of 2 requests with 1 errors" |}.

(** A create batch of three requests, one of which names an unknown
    organization; its worker fails at the resolver, with the resolver's
    error text as the reason. *)
Definition badOrgRequest : RepositoryRequest.t :=
  {| RepositoryRequest.OrganizationName := "no-such-org";
     RepositoryRequest.LdapUsername := "user1";
     RepositoryRequest.PackageManager := "npm";
     RepositoryRequest.Shared := false;
     RepositoryRequest.AppID := "app2" |}.

Definition createBatch : list RepositoryRequest.t :=
  [appRequest; badOrgRequest; mavenRequest].

Definition succeeded (req : RepositoryRequest.t) : batchResult.t :=
  {| batchResult.request := req;
     batchResult.result := {| operationResult.Success := true;
                              operationResult.Error := "" |} |}.

Definition resolverFailure (req : RepositoryRequest.t) : batchResult.t :=
  {| batchResult.request := req;
     batchResult.result :=
       {| operationResult.Success := false;
          operationResult.Error :=
            match (CreateOpConfig ToLowerASCII testConfig req MethodCreate).2 with
            | Some err => GoErrors.Error err
            | None => ""
            end |} |}.

Definition createResults : list batchResult.t :=
  [resolverFailure badOrgRequest; succeeded mavenRequest; succeeded appRequest].

Definition createFinalized : gmap string Job.t :=
  let validationResult := validateBatchRequest createBatch MethodCreate in
  let requests := ValidationResult.ValidRequests validationResult in
  let js := (queueJob NewJobStore validationResult createBatch MethodCreate
               "job-2" 20).1 in
  let js := JobProgressTracker.SetProcessing js "job-2" 21 in
  finishBatch js "job-2" requests createResults 22.

End Examples.

(* ================================================================== *)
(** * The life of a job *)
(* ================================================================== *)

Module JobLifecycle.
Import GoInt Config Server.

(** What the counters of a job look like in each status. *)
Definition jobShape (job : Job.t) : Prop :=
  (Job.Status job = JobStatusPending ∨ Job.Status job = JobStatusProcessing →
   Job.SuccessfulOperations job = 0 ∧ Job.FailedOperations job = 0
   ∧ Job.NotProcessedOperations job = Job.TotalRequests job
   ∧ Job.FailedRequests job = [])
  ∧ (Job.Status job = JobStatusCompleted →
     Job.NotProcessedOperations job = 0
     ∧ Job.FailedOperations job = Z.of_nat (length (Job.FailedRequests job))
     ∧ (Job.FailedOperations job = 0 ∨ 0 < Job.SuccessfulOperations job))
  ∧ (Job.Status job = JobStatusFailed →
     Job.NotProcessedOperations job = 0 ∧ Job.SuccessfulOperations job = 0)
  ∧ (Job.Status job = JobStatusPending ∨ Job.Status job = JobStatusProcessing
     ∨ Job.Status job = JobStatusCompleted ∨ Job.Status job = JobStatusFailed).

(** A running task's job has not been finalized. *)
Definition taskOpen (js : gmap string Job.t) (t : Task) : Prop :=
  ∃ job, js !! taskJobID t = Some job
    ∧ (Job.Status job = JobStatusPending ∨ Job.Status job = JobStatusProcessing)
    ∧ Z.of_nat (length (taskRequests t)) ≤ MaxInt.

Definition lifecycleInvariant (s : System) : Prop :=
  (∀ id job, jobs s !! id = Some job → jobShape job)
  ∧ Forall (taskOpen (jobs s)) (tasks s)
  ∧ NoDup (taskJobID <$> tasks s).

End JobLifecycle.

(* ================================================================== *)
(** * internal/server: the batch handler *)
(* ================================================================== *)

Module Handlers.
Import GoStrings GoErrors GoInt Config Service Server.

(** ** response_builder.go: the response payloads, before their keys are
    rewritten to camelCase *)

Module InvalidRequestResponse.
Record t := {
  OrganizationName : string;
  LdapUsername : string;
  PackageManager : string;
  Shared : bool;
  AppID : string;
  ValidationErrors : list string
}.
End InvalidRequestResponse.

Module ValidationSummary.
Record t := {
  TotalRequests : Z;
  ValidRequests : Z;
  InvalidRequests : Z;
  FailedValidations : list InvalidRequestResponse.t
}.
End ValidationSummary.

Module AcceptedResponse.
Record t := {
  Success : bool;
  Message : string;
  JobID : string;
  Status : string;
  Validation : ValidationSummary.t
}.
End AcceptedResponse.

(** [Details] is either absent or the text of the binding error. *)
Module ErrorResponse.
Record t := {
  Success : bool;
  Error : string;
  Message : string;
  Details : option string
}.
End ErrorResponse.

Module ValidationFailedResponse.
Record t := {
  Success : bool;
  Message : string;
  Error : string;
  Count : Z;
  Details : list InvalidRequestResponse.t
}.
End ValidationFailedResponse.

Definition ConvertValidationErrorsToResponse
    (validationErrors : list ValidationError.t)
  : list InvalidRequestResponse.t :=
  (λ ve,
     {| InvalidRequestResponse.OrganizationName :=
          RepositoryRequest.OrganizationName (ValidationError.Request ve);
        InvalidRequestResponse.LdapUsername :=
          RepositoryRequest.LdapUsername (ValidationError.Request ve);
        InvalidRequestResponse.PackageManager :=
          RepositoryRequest.PackageManager (ValidationError.Request ve);
        InvalidRequestResponse.Shared :=
          RepositoryRequest.Shared (ValidationError.Request ve);
        InvalidRequestResponse.AppID :=
          RepositoryRequest.AppID (ValidationError.Request ve);
        InvalidRequestResponse.ValidationErrors := ValidationError.Reasons ve |})
  <$> validationErrors.

Definition BuildAcceptedResponse (jobID : string)
    (totalRequests validCount invalidCount : Z)
    (validationResult : ValidationResult.t) : AcceptedResponse.t :=
  {| AcceptedResponse.Success := true;
     AcceptedResponse.Message := "Job queued for processing";
     AcceptedResponse.JobID := jobID;
     AcceptedResponse.Status := "pending";
     AcceptedResponse.Validation :=
       {| ValidationSummary.TotalRequests := totalRequests;
          ValidationSummary.ValidRequests := validCount;
          ValidationSummary.InvalidRequests := invalidCount;
          ValidationSummary.FailedValidations :=
            ConvertValidationErrorsToResponse
              (ValidationResult.InvalidRequests validationResult) |} |}.

Definition BuildErrorResponse (errorCode errorMessage : string)
    (details : option string) : ErrorResponse.t :=
  {| ErrorResponse.Success := false;
     ErrorResponse.Error := errorCode;
     ErrorResponse.Message := errorMessage;
     ErrorResponse.Details := details |}.

Definition BuildValidationFailedResponse (validationResult : ValidationResult.t)
  : ValidationFailedResponse.t :=
  {| ValidationFailedResponse.Success := false;
     ValidationFailedResponse.Message := "All requests failed validation";
     ValidationFailedResponse.Error := "validation_failed";
     ValidationFailedResponse.Count :=
       Z.of_nat (length (ValidationResult.InvalidRequests validationResult));
     ValidationFailedResponse.Details :=
       ConvertValidationErrorsToResponse
         (ValidationResult.InvalidRequests validationResult) |}.

(** ** handlers.go: processBatch *)

Inductive Body : Type :=
| ErrorBody (r : ErrorResponse.t)
| ValidationFailedBody (r : ValidationFailedResponse.t)
| AcceptedBody (r : AcceptedResponse.t).

Definition StatusUnprocessableEntity : Z := 422.
Definition StatusAccepted : Z := 202.

(** [bound] is what [ShouldBindJSON] leaves: the requests of the body and
    the binding error, if any. The handler answers with a status code and
    a body; when it accepts the batch the store has the new job, and the
    background task is launched. *)
Definition processBatch (js : gmap string Job.t)
    (bound : list RepositoryRequest.t * option error)
    (action jobID : string) (now : Z) : gmap string Job.t * (Z * Body) :=
  let '(batch, err) := bound in
  match err with
  | Some err =>
      (js, (StatusUnprocessableEntity,
            ErrorBody (BuildErrorResponse "invalid_request_body"
                         "Invalid request body" (Some (GoErrors.Error err)))))
  | None =>
      if (length batch =? 0)%nat then
        (js, (StatusUnprocessableEntity,
              ErrorBody (BuildErrorResponse "validation_failed"
                           "Batch must contain at least one request" None)))
      else
        let validationResult := validateBatchRequest batch action in
        if (length (ValidationResult.ValidRequests validationResult) =? 0)%nat
        then
          (js, (StatusUnprocessableEntity,
                ValidationFailedBody
                  (BuildValidationFailedResponse validationResult)))
        else
          let '(js', (jobID, totalRequests, validCount, invalidCount)) :=
            queueJob js validationResult batch action jobID now in
          (js', (StatusAccepted,
                 AcceptedBody
                   (BuildAcceptedResponse jobID totalRequests validCount
                      invalidCount validationResult)))
  end.

(** A request passes the three checks of the validation loop. *)
Definition passes (action : string) (req : RepositoryRequest.t) : Prop :=
  checkPackageManager action req = None
  ∧ checkAppIDShared action req = None
  ∧ checkNonShared req = None.

#[global] Instance passes_dec action req : Decision (passes action req).
Proof. unfold passes. apply _. Defined.

End Handlers.

(* ================================================================== *)
(** * Kinds of client calls *)
(* ================================================================== *)

Module Traces.
Import Client.

(** The calls that delete something on the server. *)
Definition isDeletion (ev : Event) : bool :=
  match ev with
  | EvDeleteRepository _ _ | EvDeletePrivilege _ _ | EvDeleteRole _ _ => true
  | _ => false
  end.

(** The calls that change something on the server. *)
Definition isMutation (ev : Event) : bool :=
  match ev with
  | EvCreateProxyRepository _ _ | EvCreatePrivilege _ _ | EvCreateRole _ _
  | EvUpdateRole _ _ | EvUpdateUser _ _
  | EvDeleteRepository _ _ | EvDeletePrivilege _ _ | EvDeleteRole _ _ => true
  | _ => false
  end.

End Traces.

(** A descriptor for a delete from the shared repository. *)
Module MoreExamples.
Import Config.

Definition sharedConfig : OperationConfig.t :=
  {| OperationConfig.Action := "delete";
     OperationConfig.LdapUsername := "user1";
     OperationConfig.OrganizationID := "org-id-1";
     OperationConfig.RemoteURL := "https://registry.npmjs.org";
     OperationConfig.ExtraRoles := ["extra-role"];
     OperationConfig.BaseRoles := ["base-role"];
     OperationConfig.RepositoryName := "npm-release-shared";
     OperationConfig.PrivilegeName := "npm-release-shared";
     OperationConfig.RoleName := "repositories.share";
     OperationConfig.PackageManager := "npm";
     OperationConfig.Shared := false;
     OperationConfig.AppID := "" |}.

End MoreExamples.

(* ================================================================== *)
(** * internal/service: the creation workflow *)
(* ================================================================== *)

Module Creation.
Import GoStrings GoErrors Config Client Service.

(** [AddPrivilegeToRole]; the global lock around the method orders the
    calls of concurrent operations and does not change what one
    operation does. *)
Definition AddPrivilegeToRole (cfg : OperationConfig.t) : Prog (option error) :=
  let roleName := OperationConfig.RoleName cfg in
  let privilegeName := OperationConfig.PrivilegeName cfg in
  (* the rest of the method, once [role] is settled *)
  let continue (role : option Role.t) : Prog (option error) :=
    match role with
    | Some role =>
        let privileges := Role.Privileges role in
        if Contains privileges privilegeName then mret None
        else
          let privileges := privileges ++ [privilegeName] in
          let role := Role.setPrivileges privileges role in
          err ← call (Client.UpdateRole role);
          match err with
          | Some e =>
              mret (Some (wrapError ("add privilege to role '" +:+ roleName
                                       +:+ "': update role failed") e))
          | None => mret None
          end
    | None =>
        err ← call (Client.CreateRole cfg);
        match err with
        | Some e =>
            mret (Some (wrapError ("add privilege '" +:+ privilegeName
                                     +:+ "' to role '" +:+ roleName
                                     +:+ "': create role failed") e))
        | None => mret None
        end
    end in
  '(role, err) ← call (Client.GetRole roleName);
  match err with
  | Some e =>
      let failed : Prog (option error) :=
        mret (Some (wrapError ("add privilege '" +:+ privilegeName
                                 +:+ "' to role '" +:+ roleName
                                 +:+ "': get role failed") e)) in
      match AsHTTPError e with
      | Some code =>
          if (code =? StatusNotFound)%Z then continue None else failed
      | None => failed
      end
  | None => continue role
  end.

(** The two loops of [AddRoleToUser] over the configured roles. *)
Fixpoint addMissing (currentRoles roles : list string) : list string :=
  match roles with
  | [] => currentRoles
  | r :: rest =>
      if negb (String.eqb r "") && negb (Contains currentRoles r)
      then addMissing (currentRoles ++ [r]) rest
      else addMissing currentRoles rest
  end.

(** The role list [AddRoleToUser] computes from the user's. *)
Definition assignedRoles (cfg : OperationConfig.t) (currentRoles : list string)
  : list string :=
  let currentRoles :=
    if negb (Contains currentRoles (OperationConfig.RoleName cfg))
    then currentRoles ++ [OperationConfig.RoleName cfg]
    else currentRoles in
  let currentRoles := addMissing currentRoles (OperationConfig.ExtraRoles cfg) in
  addMissing currentRoles (OperationConfig.BaseRoles cfg).

Definition AddRoleToUser (cfg : OperationConfig.t) : Prog (option error) :=
  let username := OperationConfig.LdapUsername cfg in
  '(user, err) ← call (Client.GetUser username);
  match err with
  | Some e =>
      mret (Some (wrapError ("add role to user '" +:+ username
                               +:+ "': get user failed") e))
  | None =>
      match user with
      | None => mret (Some (errorString ("user '" +:+ username +:+ "' not found")))
      | Some user =>
          let user := User.setRoles (assignedRoles cfg (User.Roles user)) user in
          err ← call (Client.UpdateUser user);
          match err with
          | Some e =>
              mret (Some (wrapError ("add role to user '" +:+ username
                                       +:+ "': update user failed") e))
          | None => mret None
          end
      end
  end.

(** ** CreationManager *)
Module CreationManager.

Definition creationResult (cfg : OperationConfig.t) : Result :=
  {[ "action" := OperationConfig.Action cfg;
     "repository_name" := OperationConfig.RepositoryName cfg;
     "ldap_username" := OperationConfig.LdapUsername cfg;
     "organization_id" := OperationConfig.OrganizationID cfg ]}.

Definition Run (cfg : OperationConfig.t) : Prog (option Result * option error) :=
  err ← NexusCreator.CreateRepository cfg;
  match err with
  | Some e => mret (None, Some e)
  | None =>
      err ← NexusCreator.CreatePrivilege cfg;
      match err with
      | Some e => mret (None, Some e)
      | None =>
          err ← AddPrivilegeToRole cfg;
          match err with
          | Some e => mret (None, Some e)
          | None =>
              err ← AddRoleToUser cfg;
              match err with
              | Some e => mret (None, Some e)
              | None => mret (Some (creationResult cfg), None)
              end
          end
      end
  end.

End CreationManager.

End Creation.

(* ================================================================== *)
(** * The IQ Server cleanup and the operation of one request *)
(* ================================================================== *)

Module Operation.
Import GoStrings GoErrors Config Client RoleEngine Service Server Creation.

(** ** The IQ Server client as the workflows see it *)
Inductive IQCall : Type → Type :=
| AddOwnerRoleToUser (opConfig : OperationConfig.t) : IQCall (option error)
| RemoveOwnerRoleFromUser (opConfig : OperationConfig.t) : IQCall (option error).

(** A workflow over the two clients. *)
Inductive Flow (A : Type) : Type :=
| Done (a : A)
| Nexus {X : Type} (c : NexusCall X) (k : X → Flow A)
| IQ {X : Type} (c : IQCall X) (k : X → Flow A).
Arguments Done {A} a.
Arguments Nexus {A X} c k.
Arguments IQ {A X} c k.

Fixpoint flowBind {A B : Type} (p : Flow A) (f : A → Flow B) : Flow B :=
  match p with
  | Done a => f a
  | Nexus c k => Nexus c (λ x, flowBind (k x) f)
  | IQ c k => IQ c (λ x, flowBind (k x) f)
  end.

#[global] Instance Flow_ret : MRet Flow := @Done.
#[global] Instance Flow_bind : MBind Flow := λ A B f p, flowBind p f.

(** A workflow of the Nexus client alone, as part of a larger one. *)
Fixpoint lift {A : Type} (p : Prog A) : Flow A :=
  match p with
  | Ret a => Done a
  | Call c k => Nexus c (λ x, lift (k x))
  end.

Definition iq {X : Type} (c : IQCall X) : Flow X := IQ c Done.

(** A call to either client together with the answer. *)
Inductive Step : Type :=
| OnNexus (ev : Event)
| EvAddOwnerRoleToUser (opConfig : OperationConfig.t) (r : option error)
| EvRemoveOwnerRoleFromUser (opConfig : OperationConfig.t) (r : option error).

Definition iqStep {X : Type} (c : IQCall X) : X → Step :=
  match c in IQCall X return X → Step with
  | AddOwnerRoleToUser opConfig => EvAddOwnerRoleToUser opConfig
  | RemoveOwnerRoleFromUser opConfig => EvRemoveOwnerRoleFromUser opConfig
  end.

Definition IQHandler (W : Type) : Type := ∀ X : Type, IQCall X → W → X * W.

Fixpoint runFlow {W A : Type} (hn : Handler W) (hi : IQHandler W)
    (p : Flow A) (w : W) : A * W * list Step :=
  match p with
  | Done a => (a, w, [])
  | Nexus c k =>
      let '(x, w1) := hn _ c w in
      let '(a, w2, tr) := runFlow hn hi (k x) w1 in
      (a, w2, OnNexus (event c x) :: tr)
  | IQ c k =>
      let '(x, w1) := hi _ c w in
      let '(a, w2, tr) := runFlow hn hi (k x) w1 in
      (a, w2, iqStep c x :: tr)
  end.

(** The runs of a workflow over every behaviour of the two clients. *)
Fixpoint flowExec {A : Type} (p : Flow A) (tr : list Step) (a : A) : Prop :=
  match p with
  | Done a' => tr = [] ∧ a = a'
  | Nexus c k => ∃ x tr', tr = OnNexus (event c x) :: tr' ∧ flowExec (k x) tr' a
  | IQ c k => ∃ x tr', tr = iqStep c x :: tr' ∧ flowExec (k x) tr' a
  end.

(** ** iq_deletion.go *)
Module IQServerCleaner.

(** The loop of [shouldRemoveOwnerRole] over the remaining roles. *)
Fixpoint onlyBaseLoop (base roles : list string) : bool :=
  match roles with
  | [] => true
  | r :: rest => if negb (Contains base r) then false else onlyBaseLoop base rest
  end.

(** [nexusClient] tells whether the cleaner was given a Nexus client. *)
Definition shouldRemoveOwnerRole (nexusClient : bool) (cfg : OperationConfig.t)
  : Prog (bool * option error) :=
  if negb nexusClient then
    mret (false, Some (errorString
      "evaluate owner role removal: nexus client not configured"))
  else
    let username := OperationConfig.LdapUsername cfg in
    '(user, err) ← call (Client.GetUser username);
    match err with
    | Some e =>
        mret (false, Some (wrapError ("evaluate owner role removal: get user '"
                                        +:+ username +:+ "' failed") e))
    | None =>
        match user with
        | None => mret (false, None)
        | Some user =>
            let roles := User.Roles user in
            let roles :=
              if negb (String.eqb (OperationConfig.RoleName cfg) "")
              then NexusCleaner.removeFirst (OperationConfig.RoleName cfg) roles
              else roles in
            let roleEngine :=
              NewRoleDecisionEngine (OperationConfig.BaseRoles cfg)
                                    (OperationConfig.ExtraRoles cfg) in
            let roleEngine := SetAfterRemovalRoles roleEngine roles in
            let hasOtherRoles := HasOtherRoles roleEngine in
            let shareRoleAssigned := Contains roles "repositories.share" in
            (* the rest of the method, once [shareRoleEmpty] is settled *)
            let conclude (shareRoleEmpty : bool) : Prog (bool * option error) :=
              let onlyBaseRole :=
                (0 <? length (OperationConfig.BaseRoles cfg))%nat
                && (0 <? length roles)%nat in
              let onlyBaseRole :=
                if onlyBaseRole
                then onlyBaseLoop (OperationConfig.BaseRoles cfg) roles
                else onlyBaseRole in
              let shouldRemove :=
                negb hasOtherRoles && shareRoleEmpty && onlyBaseRole in
              mret (shouldRemove, None) in
            if shareRoleAssigned then
              '(shareRole, err) ← call (Client.GetRole "repositories.share");
              match err with
              | Some e =>
                  mret (false,
                        Some (wrapError
                          "evaluate owner role removal: get repositories.share role failed"
                          e))
              | None =>
                  match shareRole with
                  | Some shareRole =>
                      if (0 <? length (Role.Privileges shareRole))%nat
                      then conclude false else conclude true
                  | None => conclude true
                  end
              end
            else conclude true
        end
    end.

Definition CleanupUserFromOrganization (nexusClient : bool)
    (cfg : OperationConfig.t) : Flow (option error) :=
  if String.eqb (OperationConfig.OrganizationID cfg) "" then mret None
  else
    '(removeOwner, err) ← lift (shouldRemoveOwnerRole nexusClient cfg);
    match err with
    | Some e => mret (Some e)
    | None =>
        if negb removeOwner then mret None
        else
          err ← iq (RemoveOwnerRoleFromUser cfg);
          match err with
          | Some e => mret (Some (wrapError "remove owner role" e))
          | None => mret None
          end
    end.

End IQServerCleaner.

Module IQDeletionManager.

Definition cleanupResult (cfg : OperationConfig.t) : Result :=
  {[ "action" := OperationConfig.Action cfg;
     "ldap_username" := OperationConfig.LdapUsername cfg;
     "organization_id" := OperationConfig.OrganizationID cfg ]}.

Definition Run (nexusClient : bool) (cfg : OperationConfig.t)
  : Flow (option Result * option error) :=
  err ← IQServerCleaner.CleanupUserFromOrganization nexusClient cfg;
  match err with
  | Some e => mret (None, Some e)
  | None => mret (Some (cleanupResult cfg), None)
  end.

End IQDeletionManager.

(** ** sync.go: attemptOperation *)

Section Attempt.
(** [strings.ToLower], and the configuration of the batch manager. *)
Variable ToLower : string → string.
Variable cfg : Config.

(** The end of [attemptOperation]. *)
Definition operationOutcome (opErr : option error) : operationResult.t :=
  match opErr with
  | Some e => {| operationResult.Success := false;
                 operationResult.Error := Error e |}
  | None => {| operationResult.Success := true; operationResult.Error := "" |}
  end.

(** [ctxErr] is [ctx.Err()] when the context is done at the start, and
    [None] otherwise. The manager's Nexus client is the one its workflows
    call, so the cleaner is built with a client. *)
Definition attemptOperation (ctxErr : option error) (action : string)
    (req : RepositoryRequest.t) : Flow operationResult.t :=
  match ctxErr with
  | Some e =>
      mret {| operationResult.Success := false;
              operationResult.Error := "request cancelled: " +:+ Error e |}
  | None =>
      let '(opConfig, err) := CreateOpConfig ToLower cfg req action in
      match err with
      | Some e =>
          mret {| operationResult.Success := false;
                  operationResult.Error := Error e |}
      | None =>
          match opConfig with
          | None =>
              (* not reached: the resolver returns a descriptor or an error *)
              mret {| operationResult.Success := false;
                      operationResult.Error := "" |}
          | Some opConfig =>
              if String.eqb action MethodCreate then
                '(_, opErr) ← lift (CreationManager.Run opConfig);
                match opErr with
                | Some e => mret (operationOutcome (Some e))
                | None =>
                    if negb (String.eqb (OperationConfig.OrganizationID opConfig) "")
                    then
                      opErr ← iq (AddOwnerRoleToUser opConfig);
                      mret (operationOutcome opErr)
                    else mret (operationOutcome None)
                end
              else if String.eqb action MethodDelete then
                '(_, opErr) ← lift (DeletionManager.Run opConfig);
                match opErr with
                | Some e => mret (operationOutcome (Some e))
                | None =>
                    '(_, opErr) ← IQDeletionManager.Run true opConfig;
                    mret (operationOutcome opErr)
                end
              else
                mret (operationOutcome
                        (Some (errorString ("unsupported action: " +:+ action))))
          end
      end
  end.

End Attempt.

(** ** A scripted IQ Server client *)
Definition scriptedIQ : IQHandler unit :=
  λ X c w,
    (match c in IQCall X return X with
     | AddOwnerRoleToUser _ => None
     | RemoveOwnerRoleFromUser _ => None
     end, w).

(** A user left with the base role and the role of the request. *)
Definition leavingUser : User.t :=
  {| User.UserID := "user2"; User.FirstName := "User"; User.LastName := "Two";
     User.EmailAddress := "user2@example.com"; User.Source := "LDAP";
     User.Status := "active";
     User.Roles := ["user2"; "base-role"] |}.

Definition leavingClient : Handler unit :=
  λ X c w,
    (match c in NexusCall X return X with
     | GetUser _ => (Some leavingUser, None)
     | c => Examples.scripted c
     end, w).

Definition leavingRequest : RepositoryRequest.t :=
  {| RepositoryRequest.OrganizationName := "org1";
     RepositoryRequest.LdapUsername := "user2";
     RepositoryRequest.PackageManager := "npm";
     RepositoryRequest.Shared := false;
     RepositoryRequest.AppID := "app1" |}.

Definition leavingConfig : OperationConfig.t :=
  {| OperationConfig.Action := "delete";
     OperationConfig.LdapUsername := "user2";
     OperationConfig.OrganizationID := "org-id-1";
     OperationConfig.RemoteURL := "https://registry.npmjs.org";
     OperationConfig.ExtraRoles := ["extra-role"];
     OperationConfig.BaseRoles := ["base-role"];
     OperationConfig.RepositoryName := "npm-release-app1";
     OperationConfig.PrivilegeName := "npm-release-app1";
     OperationConfig.RoleName := "user2";
     OperationConfig.PackageManager := "npm";
     OperationConfig.Shared := false;
     OperationConfig.AppID := "" |}.

End Operation.

(* ================================================================== *)
(** * internal/client: the HTTP clients *)
(* ================================================================== *)

Module HTTP.
Import GoStrings GoErrors Config Client.

(** [http.StatusOK] and the like. *)
Definition StatusOK : Z := 200.
Definition StatusNoContent : Z := 204.
Definition StatusBadRequest : Z := 400.

(** What the clients read of a [resty.Response]. *)
Module Response.
Record t := {
  StatusCode : Z;
  Body : string
}.
End Response.

(** types.go: a role of IQ Server. *)
Module IQRole.
Record t := {
  ID : string;
  Name : string;
  Description : string;
  Type_ : string
}.
End IQRole.

(** The request bodies the clients send, before their JSON encoding. *)
Inductive Payload : Type :=
| NoBody
| PrivilegeConfig (name description : string) (actions : list string)
    (format repository : string)
| RoleConfig (id name description : string) (privileges roles : list string)
| RoleBody (role : Role.t)
| UserBody (user : User.t).

(** The library functions the clients rely on: [strings.TrimSpace], and
    [json.Unmarshal] at each type it is used at, returning the decoded
    value and the error. *)
Class Runtime := {
  TrimSpace : string → string;
  unmarshalRepository : string → Repository.t * option error;
  unmarshalRepositories : string → list Repository.t * option error;
  unmarshalPrivilege : string → Privilege.t * option error;
  unmarshalPrivileges : string → list Privilege.t * option error;
  unmarshalRole : string → Role.t * option error;
  unmarshalUsers : string → list User.t * option error;
  unmarshalIQRoles : string → list IQRole.t * option error
}.

(** A client method: a value, or a request executed by resty and what
    is done with the response and the transport error. *)
Inductive Req (A : Type) : Type :=
| Return (a : A)
| Execute (method endpoint : string) (body : Payload)
    (params : gmap string string) (k : Response.t * option error → Req A).
Arguments Return {A} a.
Arguments Execute {A} method endpoint body params k.

Fixpoint reqBind {A B : Type} (p : Req A) (f : A → Req B) : Req B :=
  match p with
  | Return a => f a
  | Execute method endpoint body params k =>
      Execute method endpoint body params (λ x, reqBind (k x) f)
  end.

#[global] Instance Req_ret : MRet Req := @Return.
#[global] Instance Req_bind : MBind Req := λ A B f p, reqBind p f.

(** A request together with its answer. *)
Module Exchange.
Record t := {
  method : string;
  endpoint : string;
  body : Payload;
  params : gmap string string;
  answer : Response.t * option error
}.
End Exchange.

(** A request and its answer, as a trace entry. *)
Definition exchange (method endpoint : string) (body : Payload)
    (params : gmap string string) (answer : Response.t * option error)
  : Exchange.t :=
  {| Exchange.method := method; Exchange.endpoint := endpoint;
     Exchange.body := body; Exchange.params := params;
     Exchange.answer := answer |}.

(** The runs of a client method over every behaviour of the server. *)
Fixpoint reqExec {A : Type} (p : Req A) (tr : list Exchange.t) (a : A) : Prop :=
  match p with
  | Return a' => tr = [] ∧ a = a'
  | Execute method endpoint body params k =>
      ∃ x tr',
        tr = {| Exchange.method := method; Exchange.endpoint := endpoint;
                Exchange.body := body; Exchange.params := params;
                Exchange.answer := x |} :: tr'
        ∧ reqExec (k x) tr' a
  end.

(** A server: from a request to its answer. *)
Definition Backend : Type :=
  string → string → Payload → gmap string string → Response.t * option error.

Fixpoint reqRun {A : Type} (server : Backend) (p : Req A)
  : A * list Exchange.t :=
  match p with
  | Return a => (a, [])
  | Execute method endpoint body params k =>
      let x := server method endpoint body params in
      let '(a, tr) := reqRun server (k x) in
      (a, {| Exchange.method := method; Exchange.endpoint := endpoint;
             Exchange.body := body; Exchange.params := params;
             Exchange.answer := x |} :: tr)
  end.

Section Clients.
Context {runtime : Runtime}.

(** ** http_client.go *)

Definition DoReq (method endpoint : string) (body : Payload)
    (params : gmap string string) : Req (option Response.t * option error) :=
  Execute method endpoint body params (λ '(response, err),
    match err with
    | Some e => Return (None, Some e)
    | None =>
        if (400 <=? Response.StatusCode response)%Z then
          let responseBody := TrimSpace (Response.Body response) in
          let responseBody :=
            if (1000 <? String.length responseBody)%nat
            then String.substring 0 1000 responseBody +:+ "â€¦"
            else responseBody in
          Return (None,
                  Some (HTTPError (Response.StatusCode response) responseBody))
        else Return (Some response, None)
    end).

(** [errors.As(err, &httpErr) && httpErr.StatusCode == code]. *)
Definition isStatus (err : error) (code : Z) : bool :=
  match AsHTTPError err with
  | Some status => (status =? code)%Z
  | None => false
  end.

(** ** nexus.go

    [DoReq] returns a response exactly when it returns no error; where
    a method reads the response, the case of no response and no error
    is given the method's success value. *)

Definition GetRepository (name : string)
  : Req (option Repository.t * option error) :=
  '(resp, err) ← DoReq "GET" ("/v1/repositories/" +:+ name) NoBody ∅;
  match err, resp with
  | Some e, _ => mret (None, Some (wrapError ("get repository '" +:+ name +:+ "'") e))
  | None, None => mret (None, None)
  | None, Some resp =>
      let '(repo, err) := unmarshalRepository (Response.Body resp) in
      match err with
      | Some e =>
          mret (None, Some (wrapError ("get repository '" +:+ name
                                         +:+ "': failed to unmarshal response") e))
      | None => mret (Some repo, None)
      end
  end.

Definition GetRepositories : Req (list Repository.t * option error) :=
  '(resp, err) ← DoReq "GET" "/v1/repositories" NoBody ∅;
  match err, resp with
  | Some e, _ => mret ([], Some (wrapError "get repositories" e))
  | None, None => mret ([], None)
  | None, Some resp =>
      let '(repos, err) := unmarshalRepositories (Response.Body resp) in
      match err with
      | Some e =>
          mret ([], Some (wrapError
                 "get repositories: failed to unmarshal response" e))
      | None => mret (repos, None)
      end
  end.

(** The end of the three deletions: the status of a response. *)
Definition deletedStatus (resp : option Response.t) : option error :=
  match resp with
  | Some resp =>
      if negb (Response.StatusCode resp =? StatusNoContent)%Z
         && negb (Response.StatusCode resp =? StatusNotFound)%Z
      then Some (errorString ("unexpected status: "
                                +:+ Itoa (Response.StatusCode resp)))
      else None
  | None => None
  end.

Definition DeleteRepository (name : string) : Req (option error) :=
  '(resp, err) ← DoReq "DELETE" ("/v1/repositories/" +:+ name) NoBody ∅;
  match err with
  | Some e => if isStatus e StatusNotFound then mret None else mret (Some e)
  | None => mret (deletedStatus resp)
  end.

Definition GetPrivilege (name : string)
  : Req (option Privilege.t * option error) :=
  '(resp, err) ← DoReq "GET" ("/v1/security/privileges/" +:+ name) NoBody ∅;
  match err, resp with
  | Some e, _ => mret (None, Some (wrapError ("get privilege '" +:+ name +:+ "'") e))
  | None, None => mret (None, None)
  | None, Some resp =>
      let '(priv, err) := unmarshalPrivilege (Response.Body resp) in
      match err with
      | Some e =>
          mret (None, Some (wrapError ("get privilege '" +:+ name
                                         +:+ "': failed to unmarshal response") e))
      | None => mret (Some priv, None)
      end
  end.

Definition GetPrivileges : Req (list Privilege.t * option error) :=
  '(resp, err) ← DoReq "GET" "/v1/security/privileges" NoBody ∅;
  match err, resp with
  | Some e, _ => mret ([], Some (wrapError "get privileges" e))
  | None, None => mret ([], None)
  | None, Some resp =>
      let '(privs, err) := unmarshalPrivileges (Response.Body resp) in
      match err with
      | Some e =>
          mret ([], Some (wrapError
                 "get privileges: failed to unmarshal response" e))
      | None => mret (privs, None)
      end
  end.

(** [ToLower] is [strings.ToLower]. *)
Definition CreatePrivilege (ToLower : string → string)
    (config : OperationConfig.t) : Req (option error) :=
  let pmLower := ToLower (OperationConfig.PackageManager config) in
  let privFormat := pmLower in
  let privFormat := if String.eqb privFormat "maven" then "maven2"
                    else privFormat in
  let privConfig :=
    PrivilegeConfig (OperationConfig.PrivilegeName config)
      ("All permissions for repository '"
         +:+ OperationConfig.RepositoryName config +:+ "'")
      ["BROWSE"; "READ"; "EDIT"; "ADD"; "DELETE"]
      privFormat
      (OperationConfig.RepositoryName config) in
  '(_, err) ← DoReq "POST" "/v1/security/privileges/repository-view"
                privConfig ∅;
  match err with
  | Some e =>
      mret (Some (wrapError
        ("create privilege '" +:+ OperationConfig.PrivilegeName config
           +:+ "' for repository '" +:+ OperationConfig.RepositoryName config
           +:+ "' (format='" +:+ privFormat +:+ "')") e))
  | None => mret None
  end.

Definition DeletePrivilege (name : string) : Req (option error) :=
  '(resp, err) ← DoReq "DELETE" ("/v1/security/privileges/" +:+ name) NoBody ∅;
  match err with
  | Some e => if isStatus e StatusNotFound then mret None else mret (Some e)
  | None => mret (deletedStatus resp)
  end.

Definition GetRole (name : string) : Req (option Role.t * option error) :=
  '(resp, err) ← DoReq "GET" ("/v1/security/roles/" +:+ name) NoBody ∅;
  match err, resp with
  | Some e, _ =>
      if isStatus e StatusNotFound then mret (None, None)
      else mret (None, Some (wrapError ("get role '" +:+ name +:+ "'") e))
  | None, None => mret (None, None)
  | None, Some resp =>
      let '(role, err) := unmarshalRole (Response.Body resp) in
      match err with
      | Some e =>
          mret (None, Some (wrapError ("get role '" +:+ name
                                         +:+ "': failed to unmarshal response") e))
      | None => mret (Some role, None)
      end
  end.

Definition CreateRole (config : OperationConfig.t) : Req (option error) :=
  let roleConfig :=
    RoleConfig (OperationConfig.RoleName config)
      (OperationConfig.RoleName config)
      ("Role for " +:+ OperationConfig.LdapUsername config)
      [OperationConfig.PrivilegeName config]
      [] in
  '(_, err) ← DoReq "POST" "/v1/security/roles" roleConfig ∅;
  match err with
  | Some e =>
      if isStatus e StatusBadRequest then mret None
      else mret (Some (wrapError
             ("create role '" +:+ OperationConfig.RoleName config
                +:+ "' for user '" +:+ OperationConfig.LdapUsername config
                +:+ "'") e))
  | None => mret None
  end.

Definition UpdateRole (role : Role.t) : Req (option error) :=
  if String.eqb (Role.ID role) "" then
    mret (Some (errorString "update role: role id is empty"))
  else
    '(_, err) ← DoReq "PUT" ("/v1/security/roles/" +:+ Role.ID role)
                  (RoleBody role) ∅;
    match err with
    | Some e => mret (Some (wrapError ("update role '" +:+ Role.ID role +:+ "'") e))
    | None => mret None
    end.

Definition DeleteRole (name : string) : Req (option error) :=
  '(resp, err) ← DoReq "DELETE" ("/v1/security/roles/" +:+ name) NoBody ∅;
  match err with
  | Some e => mret (Some e)
  | None => mret (deletedStatus resp)
  end.

(** The loop of [GetUser] over the decoded users. *)
Fixpoint findUser (userID : string) (users : list User.t) : option User.t :=
  match users with
  | [] => None
  | u :: rest => if String.eqb (User.UserID u) userID then Some u
                 else findUser userID rest
  end.

Definition GetUser (userID : string) : Req (option User.t * option error) :=
  let params : gmap string string := {[ "userId" := userID ]} in
  '(resp, err) ← DoReq "GET" "/v1/security/users" NoBody params;
  match err, resp with
  | Some e, _ => mret (None, Some (wrapError ("get user '" +:+ userID +:+ "'") e))
  | None, None => mret (None, None)
  | None, Some resp =>
      let '(users, err) := unmarshalUsers (Response.Body resp) in
      match err with
      | Some e =>
          mret (None, Some (wrapError ("get user '" +:+ userID
                                         +:+ "': failed to unmarshal response") e))
      | None => mret (findUser userID users, None)
      end
  end.

(** The two assignments of [UpdateUser] are made to the caller's user;
    no caller reads it afterwards. *)
Definition UpdateUser (user : User.t) : Req (option error) :=
  if String.eqb (User.UserID user) "" then
    mret (Some (errorString "update user: userId is empty"))
  else
    let user :=
      {| User.UserID := User.UserID user;
         User.FirstName := User.FirstName user;
         User.LastName := "useless";
         User.EmailAddress := "useless@example.com";
         User.Source := User.Source user;
         User.Status := User.Status user;
         User.Roles := User.Roles user |} in
    '(_, err) ← DoReq "PUT" ("/v1/security/users/" +:+ User.UserID user)
                  (UserBody user) ∅;
    match err with
    | Some e =>
        mret (Some (wrapError ("update user '" +:+ User.UserID user +:+ "'") e))
    | None => mret None
    end.

(** The Nexus client over HTTP. [CreateProxyRepository] builds its
    request from the package-manager table and is taken as given. *)
Definition nexusClient (ToLower : string → string)
    (createProxyRepository : OperationConfig.t → Req (option error))
    {X : Type} (c : NexusCall X) : Req X :=
  match c in NexusCall X return Req X with
  | Client.GetRepository name => GetRepository name
  | Client.GetRepositories => GetRepositories
  | Client.CreateProxyRepository config => createProxyRepository config
  | Client.DeleteRepository name => DeleteRepository name
  | Client.GetPrivilege name => GetPrivilege name
  | Client.GetPrivileges => GetPrivileges
  | Client.CreatePrivilege config => CreatePrivilege ToLower config
  | Client.DeletePrivilege name => DeletePrivilege name
  | Client.GetRole name => GetRole name
  | Client.CreateRole config => CreateRole config
  | Client.UpdateRole role => UpdateRole role
  | Client.DeleteRole name => DeleteRole name
  | Client.GetUser username => GetUser username
  | Client.UpdateUser user => UpdateUser user
  end.

(** A workflow with each call replaced by the client's method. *)
Fixpoint implement {A : Type} (impl : ∀ X, NexusCall X → Req X) (p : Prog A)
  : Req A :=
  match p with
  | Ret a => Return a
  | Call c k => impl _ c ≫= λ x, implement impl (k x)
  end.

(** ** The IQ Server client *)

Definition GetRoles : Req (list IQRole.t * option error) :=
  '(response, err) ← DoReq "GET" "/api/v2/roles" NoBody ∅;
  match err, response with
  | Some e, _ =>
      if isStatus e StatusNotFound then mret ([], None)
      else mret ([], Some (wrapError "get IQ Server roles" e))
  | None, None => mret ([], None)
  | None, Some response =>
      let '(roles, err) := unmarshalIQRoles (Response.Body response) in
      match err with
      | Some e =>
          mret ([], Some (wrapError
                 "get IQ Server roles: failed to unmarshal response" e))
      | None => mret (roles, None)
      end
  end.

(** The loop of [FindOwnerRoleID]. *)
Fixpoint findOwner (roles : list IQRole.t) : string * option error :=
  match roles with
  | [] => ("", None)
  | role :: rest =>
      if String.eqb (IQRole.Name role) "Owner" then
        if negb (String.eqb (IQRole.ID role) "") then (IQRole.ID role, None)
        else ("", Some (errorString
                    "find owner role: 'Owner' role exists but id is missing"))
      else findOwner rest
  end.

Definition FindOwnerRoleID : Req (string * option error) :=
  '(roles, err) ← GetRoles;
  match err with
  | Some e => mret ("", Some (wrapError "find owner role: get roles failed" e))
  | None => mret (findOwner roles)
  end.

Definition membershipEndpoint (opConfig : OperationConfig.t) (roleID : string)
  : string :=
  "/api/v2/roleMemberships/organization/"
    +:+ OperationConfig.OrganizationID opConfig
    +:+ "/role/" +:+ roleID
    +:+ "/user/" +:+ OperationConfig.LdapUsername opConfig.

Definition AddOwnerRoleToUser (opConfig : OperationConfig.t)
  : Req (option error) :=
  let context :=
    "add owner role to user '" +:+ OperationConfig.LdapUsername opConfig
      +:+ "' in organization '" +:+ OperationConfig.OrganizationID opConfig
      +:+ "'" in
  '(roleID, err) ← FindOwnerRoleID;
  match err with
  | Some e => mret (Some (wrapError context e))
  | None =>
      if String.eqb roleID "" then
        mret (Some (errorString (context +:+ ": owner role id not found")))
      else
        '(_, err) ← DoReq "PUT" (membershipEndpoint opConfig roleID) NoBody ∅;
        match err with
        | Some e => mret (Some (wrapError context e))
        | None => mret None
        end
  end.

Definition RemoveOwnerRoleFromUser (opConfig : OperationConfig.t)
  : Req (option error) :=
  let context :=
    "remove owner role from user '" +:+ OperationConfig.LdapUsername opConfig
      +:+ "' in organization '" +:+ OperationConfig.OrganizationID opConfig
      +:+ "'" in
  '(roleID, err) ← FindOwnerRoleID;
  match err with
  | Some e => mret (Some (wrapError context e))
  | None =>
      if String.eqb roleID "" then
        mret (Some (errorString (context +:+ ": owner role id not found")))
      else
        '(response, err) ← DoReq "DELETE" (membershipEndpoint opConfig roleID)
                             NoBody ∅;
        match err with
        | Some e =>
            if isStatus e StatusNotFound then mret None
            else mret (Some (wrapError context e))
        | None =>
            match response with
            | Some response =>
                let status := Response.StatusCode response in
                if negb (status =? StatusOK)%Z
                   && negb (status =? StatusNoContent)%Z
                   && negb (status =? StatusNotFound)%Z
                then mret (Some (errorString
                       (context +:+ ": unexpected status code " +:+ Itoa status)))
                else mret None
            | None => mret None
            end
        end
  end.

End Clients.

(** ** A scripted server *)

(** A runtime whose decoders ignore the document: every role document
    is an empty role named "role-1", and so on. *)
Definition scriptedRuntime : Runtime :=
  {| TrimSpace := λ s, s;
     unmarshalRepository := λ _, (Examples.repositoryNamed "repo-1", None);
     unmarshalRepositories := λ _, (Examples.scriptedRepositories, None);
     unmarshalPrivilege := λ _, (Examples.privilegeNamed "priv-1", None);
     unmarshalPrivileges := λ _, (Examples.scriptedPrivileges, None);
     unmarshalRole := λ _, (Examples.emptyRole "role-1", None);
     unmarshalUsers := λ _, ([Examples.user1], None);
     unmarshalIQRoles := λ _,
       ([ {| IQRole.ID := "r-0"; IQRole.Name := "Developer";
             IQRole.Description := ""; IQRole.Type_ := "" |};
          {| IQRole.ID := "r-1"; IQRole.Name := "Owner";
             IQRole.Description := ""; IQRole.Type_ := "" |} ], None) |}.

(** A server on which nothing exists: every deletion is answered 404,
    every other request 200. *)
Definition emptyServer : Backend :=
  λ method endpoint body params,
    if String.eqb method "DELETE"
    then ({| Response.StatusCode := 404; Response.Body := " not found " |}, None)
    else ({| Response.StatusCode := 200; Response.Body := "{}" |}, None).

End HTTP.

(* ================================================================== *)
(** * Properties *)
(* ================================================================== *)

Module GoStringsFacts.
Import GoStrings.

Lemma Contains_true l x : Contains l x = true ↔ x ∈ l.
Proof.
  induction l as [|y l IH]; cbn [Contains].
  - split; [done | intros H; inversion H].
  - destruct (String.eqb_spec y x) as [->|Hne].
    + split; [intros _; left | done].
    + rewrite IH. split; [by right | ].
      intros H. inversion H; subst; [congruence | done].
Qed.

Lemma Contains_false l x : Contains l x = false ↔ x ∉ l.
Proof.
  rewrite <- Contains_true. destruct (Contains l x); split; done.
Qed.

Lemma HasSuffix_true s suffix :
  HasSuffix s suffix = true ↔ ∃ p, s = p +:+ suffix.
Proof.
  induction s as [|a s IH]; cbn [HasSuffix].
  - destruct (String.eqb_spec "" suffix) as [<-|Hne].
    + split; [by exists "" | done].
    + split; [done | ].
      intros [p Hp]. destruct p as [|b p].
      * by change ("" = suffix) in Hp.
      * by change ("" = String b (p +:+ suffix)) in Hp.
  - destruct (String.eqb_spec (String a s) suffix) as [<-|Hne].
    + split; [by exists "" | done].
    + rewrite IH. split.
      * intros [p ->]. by exists (String a p).
      * intros [p Hp]. destruct p as [|b p].
        { by change (String a s = suffix) in Hp. }
        change (String a s = String b (p +:+ suffix)) in Hp.
        injection Hp as -> ->. by exists p.
Qed.

End GoStringsFacts.

Module RoleEngineFacts.
Import GoStrings GoStringsFacts RoleEngine.

(** ** Properties of [skipDuplicates] *)

Lemma elem_of_skipDuplicates l x : x ∈ skipDuplicates l ↔ x ∈ l.
Proof.
  induction l as [|y l IH]; simpl; [done|].
  rewrite !elem_of_cons, list_elem_of_filter, IH.
  destruct (decide (x = y)); naive_solver.
Qed.

Lemma NoDup_skipDuplicates l : NoDup (skipDuplicates l).
Proof.
  induction l as [|y l IH]; simpl; [constructor|].
  constructor; [|by apply NoDup_filter].
  rewrite list_elem_of_filter. naive_solver.
Qed.

Lemma skipDuplicates_filter (P : string → Prop) `{!∀ x, Decision (P x)} l :
  skipDuplicates (filter P l) = filter P (skipDuplicates l).
Proof.
  induction l as [|y l IH]; simpl; [done|].
  rewrite !filter_cons. destruct (decide (P y)) as [Hy|Hy]; simpl.
  - rewrite IH, !list_filter_filter. f_equal.
    apply list_filter_iff. naive_solver.
  - rewrite IH, list_filter_filter. apply list_filter_iff.
    intros x. split; [|naive_solver]. intros Hx. split; [done|congruence].
Qed.

Lemma filter_all (P : string → Prop) `{!∀ x, Decision (P x)} (l : list string) :
  (∀ x, P x) → filter P l = l.
Proof.
  intros HP. induction l as [|y l IH]; [done|].
  by rewrite filter_cons_True, IH.
Qed.

(** ** The loops of [DecideFinalRoles] *)

(** Both loop bodies skip a role already in the set and otherwise append
    it when a test on the role alone passes. *)
Definition stepWith (keep : string → bool) (acc : Acc) (r : string) : Acc :=
  if decide (r ∈ acc.1) then acc
  else if keep r then add acc r else acc.

Lemma baseStep_stepWith acc r : baseStep acc r = stepWith (λ _, true) acc r.
Proof. done. Qed.

Lemma remainingStep_stepWith extra keepExtra acc r :
  remainingStep extra keepExtra acc r
  = stepWith (λ r, if Contains extra r then keepExtra else true) acc r.
Proof.
  unfold remainingStep, stepWith.
  destruct (decide _); [done|]. by destruct (Contains extra r), keepExtra.
Qed.

Lemma fold_left_step_ext {A B} (f g : A → B → A) l a :
  (∀ a x, f a x = g a x) → fold_left f l a = fold_left g l a.
Proof.
  intros Hfg. revert a. induction l as [|x l IH]; intros a; simpl; [done|].
  by rewrite Hfg, IH.
Qed.

Lemma fold_stepWith keep l (S : gset string) (L : list string) :
  (∀ x, x ∈ S ↔ x ∈ L) →
  let acc := fold_left (stepWith keep) l (S, L) in
  acc.2 = L ++ skipDuplicates (filter (λ r, (r ∉ L) ∧ keep r = true) l)
  ∧ (∀ x, x ∈ acc.1 ↔ x ∈ acc.2).
Proof.
  revert S L. induction l as [|y l IH]; intros S L HSL; simpl.
  - by rewrite app_nil_r.
  - unfold stepWith at 2 4 6. simpl.
    destruct (decide (y ∈ S)) as [Hin|Hin].
    + rewrite filter_cons_False by (rewrite <- HSL; naive_solver).
      by apply IH.
    + destruct (keep y) eqn:Hk.
      * rewrite filter_cons_True by (rewrite <- HSL; naive_solver).
        unfold add; simpl.
        destruct (IH ({[y]} ∪ S) (L ++ [y])) as [IH1 IH2].
        { intros x. rewrite elem_of_union, elem_of_singleton, elem_of_app,
            list_elem_of_singleton, HSL. naive_solver. }
        split; [|done]. rewrite IH1. simpl. rewrite <- app_assoc. simpl.
        do 2 f_equal. rewrite <- skipDuplicates_filter, list_filter_filter.
        f_equal. apply list_filter_iff. intros x.
        rewrite elem_of_app, list_elem_of_singleton. naive_solver.
      * rewrite filter_cons_False by (rewrite Hk; naive_solver).
        by apply IH.
Qed.

(** The code and the specification's wording agree. *)
Lemma DecideFinalRoles_eq rde : DecideFinalRoles rde = FinalRolesSpec rde.
Proof.
  unfold DecideFinalRoles, FinalRolesSpec.
  rewrite (fold_left_step_ext baseStep (stepWith (λ _, true)))
    by apply baseStep_stepWith.
  rewrite (fold_left_step_ext (remainingStep _ _) _ _ _
             (remainingStep_stepWith _ _)).
  destruct (fold_stepWith (λ _, true) (baseRoles rde) ∅ []) as [Hb1 Hb2];
    [set_solver|].
  destruct (fold_left (stepWith (λ _, true)) (baseRoles rde) (∅, []))
    as [S L] eqn:Hacc. simpl in Hb1, Hb2.
  destruct (fold_stepWith (λ r, if Contains (extraRoles rde) r
                                then HasOtherRoles rde else true)
              (afterRemoval rde) S L Hb2) as [Ha1 _].
  rewrite Ha1, Hb1. simpl. rewrite filter_all by set_solver.
  do 2 f_equal. apply list_filter_iff. intros x. unfold kept.
  rewrite elem_of_skipDuplicates.
  destruct (Contains (extraRoles rde) x) eqn:Hc.
  - apply Contains_true in Hc. naive_solver.
  - apply Contains_false in Hc. naive_solver.
Qed.

Lemma hasOtherLoop_true base extra after :
  hasOtherLoop base extra after = true
  ↔ ∃ r, r ∈ after ∧ (r ∉ base) ∧ r ≠ "repositories.share" ∧ r ∉ extra.
Proof.
  induction after as [|x after IH]; cbn [hasOtherLoop].
  - split; [done|]. intros (r & Hr & _). inversion Hr.
  - destruct (Contains base x) eqn:Hb.
    { apply Contains_true in Hb. rewrite IH. set_solver. }
    apply Contains_false in Hb.
    destruct (String.eqb_spec x "repositories.share") as [Hs|Hs].
    { rewrite IH. set_solver. }
    destruct (Contains extra x) eqn:He.
    { apply Contains_true in He. rewrite IH. set_solver. }
    apply Contains_false in He. split; [|done].
    intros _. exists x. set_solver.
Qed.

Lemma filterEmpty_filter l : filterEmpty l = filter (λ r, r ≠ "") l.
Proof.
  induction l as [|r l IH]; simpl; [done|].
  rewrite filter_cons. destruct (String.eqb_spec r "") as [->|Hne].
  - by rewrite decide_False by naive_solver.
  - by rewrite decide_True, IH.
Qed.

Lemma elem_of_DecideFinalRoles rde r :
  r ∈ DecideFinalRoles rde
  ↔ r ∈ baseRoles rde
    ∨ (r ∈ afterRemoval rde ∧ (r ∈ extraRoles rde → HasOtherRoles rde = true)).
Proof.
  rewrite DecideFinalRoles_eq. unfold FinalRolesSpec.
  rewrite elem_of_app, !elem_of_skipDuplicates, list_elem_of_filter.
  unfold kept. destruct (decide (r ∈ baseRoles rde)); naive_solver.
Qed.

Lemma NoDup_DecideFinalRoles rde : NoDup (DecideFinalRoles rde).
Proof.
  rewrite DecideFinalRoles_eq. unfold FinalRolesSpec.
  apply NoDup_app. split_and!; try apply NoDup_skipDuplicates.
  intros r. rewrite !elem_of_skipDuplicates, list_elem_of_filter.
  unfold kept. naive_solver.
Qed.

(** The engine as the cleanup builds it: the constructor keeps the
    non-empty configured roles, in order. *)
Lemma NewRoleDecisionEngine_roles base extra after :
  let rde := SetAfterRemovalRoles (NewRoleDecisionEngine base extra) after in
  baseRoles rde = filter (λ r, r ≠ "") base
  ∧ extraRoles rde = filter (λ r, r ≠ "") extra
  ∧ afterRemoval rde = after.
Proof. simpl. by rewrite !filterEmpty_filter. Qed.

(** C3. [HasOtherRoles] answers true exactly when [afterRemoval] holds a
    role that is not a base role, not the shared role
    "repositories.share", and not an extra role. *)
Theorem HasOtherRoles_iff (rde : RoleDecisionEngine) :
  HasOtherRoles rde = true
  ↔ ∃ r, r ∈ afterRemoval rde ∧ (r ∉ baseRoles rde)
         ∧ r ≠ "repositories.share" ∧ (r ∉ extraRoles rde).
Proof. apply hasOtherLoop_true. Qed.

(** C2. [DecideFinalRoles] returns the base roles first, in configured
    order with duplicates skipped, followed by the roles of
    [afterRemoval] in their original order with duplicates skipped, where
    a role that is not a base role is kept unless it is an extra role and
    [HasOtherRoles] is false; no role occurs twice, and a role is in the
    result exactly when it is a base role or a kept role of
    [afterRemoval]. *)
Theorem DecideFinalRoles_spec (rde : RoleDecisionEngine) :
  DecideFinalRoles rde
  = skipDuplicates (baseRoles rde)
      ++ skipDuplicates
           (filter (λ r, (r ∉ baseRoles rde)
                         ∧ (r ∈ extraRoles rde → HasOtherRoles rde = true))
                   (afterRemoval rde))
  ∧ NoDup (DecideFinalRoles rde)
  ∧ ∀ r, r ∈ DecideFinalRoles rde
         ↔ r ∈ baseRoles rde
           ∨ (r ∈ afterRemoval rde
              ∧ (r ∈ extraRoles rde → HasOtherRoles rde = true)).
Proof.
  split_and!.
  - apply DecideFinalRoles_eq.
  - apply NoDup_DecideFinalRoles.
  - apply elem_of_DecideFinalRoles.
Qed.

(** With only base and extra roles left, no extra role survives unless it
    is also a base role. *)
Lemma DecideFinalRoles_no_project_roles rde :
  (∀ r, r ∈ afterRemoval rde → r ∈ baseRoles rde ∨ r ∈ extraRoles rde) →
  HasOtherRoles rde = false
  ∧ ∀ r, r ∈ extraRoles rde → r ∉ baseRoles rde → r ∉ DecideFinalRoles rde.
Proof.
  intros Hall.
  assert (HasOtherRoles rde = false) as Hno.
  { destruct (HasOtherRoles rde) eqn:H; [|done].
    apply hasOtherLoop_true in H as (r & Hr & ? & ? & ?).
    destruct (Hall r Hr); done. }
  split; [done|]. intros r He Hb. rewrite elem_of_DecideFinalRoles, Hno.
  naive_solver.
Qed.

(** With a project role left, every extra role of [afterRemoval] stays. *)
Lemma DecideFinalRoles_project_role rde p :
  p ∈ afterRemoval rde → p ∉ baseRoles rde → p ≠ "repositories.share" →
  p ∉ extraRoles rde →
  HasOtherRoles rde = true
  ∧ ∀ r, r ∈ afterRemoval rde → r ∈ DecideFinalRoles rde.
Proof.
  intros Hp Hb Hs He.
  assert (HasOtherRoles rde = true) as Hyes.
  { apply hasOtherLoop_true. by exists p. }
  split; [done|]. intros r Hr. rewrite elem_of_DecideFinalRoles. by right.
Qed.

End RoleEngineFacts.

Module ConfigFacts.
Import GoStrings GoErrors Config.

(** C8. Whenever both lookups succeed the resolver returns a descriptor
    whose repository name is the lower-cased package manager, then
    "-release-", then "shared" for a shared request and the application
    id otherwise; the privilege name is the same string; the role name is
    the LDAP user name unless the request is shared, in which case it is
    "repositories.share". *)
Theorem CreateOpConfig_names (ToLower : string → string) (c : Config)
    (r : RepositoryRequest.t) (action orgID : string) (manager : PackageManager.t) :
  Orgs c !! RepositoryRequest.OrganizationName r = Some orgID →
  PackageManagers c !! RepositoryRequest.PackageManager r = Some manager →
  ∃ cfg, CreateOpConfig ToLower c r action = (Some cfg, None)
    ∧ OperationConfig.RepositoryName cfg
      = ToLower (RepositoryRequest.PackageManager r) +:+ "-release-"
          +:+ (if RepositoryRequest.Shared r then "shared"
               else RepositoryRequest.AppID r)
    ∧ OperationConfig.PrivilegeName cfg = OperationConfig.RepositoryName cfg
    ∧ OperationConfig.RoleName cfg
      = (if RepositoryRequest.Shared r then "repositories.share"
         else RepositoryRequest.LdapUsername r).
Proof.
  intros Horg Hpm. unfold CreateOpConfig. rewrite Horg, Hpm.
  eexists. split; [reflexivity|]. simpl. done.
Qed.

Lemma CreateOpConfig_names_witness :
  Orgs Examples.testConfig
    !! RepositoryRequest.OrganizationName Examples.mavenRequest = Some "org-id-1"
  ∧ PackageManagers Examples.testConfig
      !! RepositoryRequest.PackageManager Examples.mavenRequest
    = Some Examples.mavenManager
  ∧ ∃ cfg, CreateOpConfig ToLowerASCII Examples.testConfig Examples.mavenRequest
             "create" = (Some cfg, None)
      ∧ OperationConfig.RepositoryName cfg = "maven-release-app1"
      ∧ OperationConfig.PrivilegeName cfg = OperationConfig.RepositoryName cfg
      ∧ OperationConfig.RoleName cfg = "user1".
Proof.
  split; [reflexivity|]. split; [reflexivity|].
  exact (CreateOpConfig_names ToLowerASCII Examples.testConfig
           Examples.mavenRequest "create" "org-id-1" Examples.mavenManager
           eq_refl eq_refl).
Defined.

(** The other fields of the descriptor, as the resolver fills them. *)
Lemma CreateOpConfig_fields ToLower c r action cfg err :
  CreateOpConfig ToLower c r action = (Some cfg, err) →
  err = None
  ∧ OperationConfig.Action cfg = action
  ∧ OperationConfig.LdapUsername cfg = RepositoryRequest.LdapUsername r
  ∧ Orgs c !! RepositoryRequest.OrganizationName r
    = Some (OperationConfig.OrganizationID cfg)
  ∧ PackageManager.DefaultURL
      <$> PackageManagers c !! RepositoryRequest.PackageManager r
    = Some (OperationConfig.RemoteURL cfg)
  ∧ OperationConfig.ExtraRoles cfg = ExtraRoles c
  ∧ OperationConfig.BaseRoles cfg = BaseRoles c
  ∧ OperationConfig.PackageManager cfg = RepositoryRequest.PackageManager r.
Proof.
  unfold CreateOpConfig.
  destruct (Orgs c !! _) as [orgID|]; [|done].
  destruct (PackageManagers c !! _) as [manager|]; [|done].
  intros [= <- <-]. simpl. done.
Qed.

(** The descriptor never carries the request's shared flag or
    application id: both keep Go's zero value. *)
Lemma CreateOpConfig_zero_fields ToLower c r action cfg err :
  CreateOpConfig ToLower c r action = (Some cfg, err) →
  OperationConfig.Shared cfg = false ∧ OperationConfig.AppID cfg = "".
Proof.
  unfold CreateOpConfig.
  destruct (Orgs c !! _) as [orgID|]; [|done].
  destruct (PackageManagers c !! _) as [manager|]; [|done].
  by intros [= <- <-].
Qed.

(** C4, at two requests that pass validation. For the application
    request the resolver succeeds and returns an empty application id
    where the request has "app1"; for the shared request it succeeds and
    returns shared = false where the request has shared = true. *)
Theorem CreateOpConfig_drops_shared_and_appID :
  (∃ cfg, CreateOpConfig ToLowerASCII Examples.testConfig Examples.appRequest
            "create" = (Some cfg, None)
     ∧ RepositoryRequest.AppID Examples.appRequest = "app1"
     ∧ OperationConfig.AppID cfg = "")
  ∧ (∃ cfg, CreateOpConfig ToLowerASCII Examples.testConfig
              Examples.sharedRequest "create" = (Some cfg, None)
       ∧ RepositoryRequest.Shared Examples.sharedRequest = true
       ∧ OperationConfig.Shared cfg = false).
Proof. split; eexists; (split; [reflexivity|]); done. Qed.

(** An offboarding request, which validation accepts only without a
    package manager, does not get past the package-manager lookup. *)
Example CreateOpConfig_offboarding_request :
  CreateOpConfig ToLowerASCII Examples.testConfig Examples.offboardRequest
    "delete"
  = (None, Some (errorString "package manager '' not found")).
Proof. reflexivity. Qed.

End ConfigFacts.

Module ServerFacts.
Import GoStrings GoErrors GoInt Config Service Server.

(** ** Batch validation *)

Lemma validateStep_accepted action acc req :
  action = MethodCreate ∨ action = MethodDelete →
  acceptedSpec action req →
  validateStep action acc req
  = {| ValidationResult.ValidRequests := ValidationResult.ValidRequests acc ++ [req];
       ValidationResult.InvalidRequests := ValidationResult.InvalidRequests acc |}.
Proof.
  intros Hact (Hpm1 & Hpm2 & Hc & Hd & Hn).
  unfold validateStep, checkPackageManager, checkAppIDShared, checkNonShared.
  destruct req as [org user pm shared app]; simpl in *.
  destruct Hact as [-> | ->]; simpl;
    destruct shared; simpl;
    destruct (String.eqb_spec pm ""); simpl;
    destruct (String.eqb_spec app ""); simpl;
    try done; exfalso; naive_solver.
Qed.

Lemma validateStep_rejected action acc req :
  action = MethodCreate ∨ action = MethodDelete →
  ¬ acceptedSpec action req →
  ∃ reason,
    validateStep action acc req
    = {| ValidationResult.ValidRequests := ValidationResult.ValidRequests acc;
         ValidationResult.InvalidRequests :=
           ValidationResult.InvalidRequests acc
             ++ [ {| ValidationError.Request := req;
                     ValidationError.Reasons := [reason] |} ] |}
    ∧ (action = MethodDelete → RepositoryRequest.Shared req = true →
       RepositoryRequest.PackageManager req ≠ "" →
       reason = "packageManager must be empty for shared delete operations").
Proof.
  intros Hact Hno.
  unfold validateStep, checkPackageManager, checkAppIDShared, checkNonShared.
  unfold acceptedSpec in Hno.
  destruct req as [org user pm shared app]; simpl in *.
  destruct Hact as [-> | ->]; simpl;
    destruct shared; simpl;
    destruct (String.eqb_spec pm ""); simpl;
    destruct (String.eqb_spec app ""); simpl;
    try (eexists; split; [reflexivity|]; done);
    exfalso; apply Hno; unfold MethodCreate, MethodDelete; naive_solver.
Qed.

Lemma validate_fold action batch acc :
  action = MethodCreate ∨ action = MethodDelete →
  let vr := fold_left (validateStep action) batch acc in
  ValidationResult.ValidRequests vr
  = ValidationResult.ValidRequests acc ++ filter (acceptedSpec action) batch
  ∧ ValidationError.Request <$> ValidationResult.InvalidRequests vr
    = (ValidationError.Request <$> ValidationResult.InvalidRequests acc)
        ++ filter (λ req, ¬ acceptedSpec action req) batch
  ∧ (∀ ve, ve ∈ ValidationResult.InvalidRequests acc →
           ve ∈ ValidationResult.InvalidRequests vr)
  ∧ (∀ req, req ∈ batch → action = MethodDelete →
       RepositoryRequest.Shared req = true →
       RepositoryRequest.PackageManager req ≠ "" →
       {| ValidationError.Request := req;
          ValidationError.Reasons :=
            ["packageManager must be empty for shared delete operations"] |}
       ∈ ValidationResult.InvalidRequests vr).
Proof.
  intros Hact. revert acc. induction batch as [|req batch IH]; intros acc; simpl.
  - rewrite !app_nil_r. split_and!; try done. intros req Hreq. inversion Hreq.
  - destruct (IH (validateStep action acc req)) as (IHv & IHi & IHm & IHr).
    destruct (decide (acceptedSpec action req)) as [Hyes|Hno].
    + rewrite (validateStep_accepted _ _ _ Hact Hyes) in *. simpl in *.
      rewrite filter_cons_True by done.
      rewrite filter_cons_False by naive_solver.
      split_and!; [by rewrite IHv, <- app_assoc|done|done|].
      intros r Hr Hd Hs Hp. apply elem_of_cons in Hr as [->|Hr]; [|by apply IHr].
      exfalso. destruct Hyes as (Hpm1 & _). by apply Hp, Hpm1.
    + destruct (validateStep_rejected _ acc _ Hact Hno) as (reason & Hstep & Hreason).
      rewrite Hstep in *. simpl in *.
      rewrite filter_cons_False by done.
      rewrite filter_cons_True by done.
      split_and!; [done| |..].
      * by rewrite IHi, fmap_app, <- app_assoc.
      * intros ve Hve. apply IHm, elem_of_app. by left.
      * intros r Hr Hd Hs Hp. apply elem_of_cons in Hr as [->|Hr]; [|by apply IHr].
        apply IHm, elem_of_app. right. rewrite (Hreason Hd Hs Hp).
        apply list_elem_of_singleton. done.
Qed.

(** C6. For the two actions of the API, the valid requests of a batch
    are exactly those that satisfy the specification's conditions, in
    batch order, and the invalid ones exactly the others; a shared
    delete request with a package manager is rejected, with one reason,
    which mentions "packageManager". *)
Theorem validateBatchRequest_spec (batch : list RepositoryRequest.t)
    (action : string) :
  action = MethodCreate ∨ action = MethodDelete →
  let vr := validateBatchRequest batch action in
  ValidationResult.ValidRequests vr = filter (acceptedSpec action) batch
  ∧ ValidationError.Request <$> ValidationResult.InvalidRequests vr
    = filter (λ req, ¬ acceptedSpec action req) batch
  ∧ ∀ req, req ∈ batch → action = MethodDelete →
      RepositoryRequest.Shared req = true →
      RepositoryRequest.PackageManager req ≠ "" →
      (req ∉ ValidationResult.ValidRequests vr)
      ∧ ∃ ve reason, ve ∈ ValidationResult.InvalidRequests vr
          ∧ ValidationError.Request ve = req
          ∧ ValidationError.Reasons ve = [reason]
          ∧ StringsContains reason "packageManager" = true.
Proof.
  intros Hact vr.
  destruct (validate_fold action batch
              {| ValidationResult.ValidRequests := [];
                 ValidationResult.InvalidRequests := [] |} Hact)
    as (Hv & Hi & _ & Hr).
  fold (validateBatchRequest batch action) in Hv, Hi, Hr. fold vr in Hv, Hi, Hr.
  simpl in Hv, Hi. split_and!; [done|done|].
  intros req Hreq Hd Hs Hp. split.
  - rewrite Hv, list_elem_of_filter. intros [(Hpm1 & _) _]. by apply Hp, Hpm1.
  - eexists _, _. split; [by apply Hr|]. done.
Qed.

(** ** The job store *)

Lemma UpdateJob_lookup js id updateFn now job :
  js !! id = Some job →
  (UpdateJob js id updateFn now).1 !! id
  = Some (Job.setUpdatedAt now (updateFn job)).
Proof. intros H. unfold UpdateJob. rewrite H. simpl. apply lookup_insert_eq. Qed.

Lemma UpdateJob_lookup_ne js id id' updateFn now :
  id ≠ id' → (UpdateJob js id updateFn now).1 !! id' = js !! id'.
Proof.
  intros H. unfold UpdateJob. destruct (js !! id); simpl; [|done].
  by apply lookup_insert_ne.
Qed.

Lemma UpdateJob_missing js id updateFn now :
  js !! id = None → (UpdateJob js id updateFn now).1 = js.
Proof. intros H. unfold UpdateJob. by rewrite H. Qed.

Lemma GetJob_Some js id job :
  GetJob js id = (Some job, true) ↔ js !! id = Some job.
Proof. unfold GetJob. destruct (js !! id); naive_solver. Qed.

(** ** Fan-in *)

Lemma wrapInt_small z : - 2 ^ 63 ≤ z ≤ MaxInt → wrapInt z = z.
Proof. unfold wrapInt, MaxInt. intros H. rewrite Z.mod_small; lia. Qed.

Lemma successes_failures_length results :
  (length (successes results) + length (failures results))%nat = length results.
Proof.
  unfold successes, failures. induction results as [|res results IH]; [done|].
  rewrite !filter_cons.
  destruct (operationResult.Success (batchResult.result res)); simpl; lia.
Qed.

Lemma fanIn_fold results s f failedRequests :
  0 ≤ s → 0 ≤ f → s + f + Z.of_nat (length results) ≤ MaxInt →
  fold_left fanInStep results (s, f, failedRequests)
  = (s + Z.of_nat (length (successes results)),
     f + Z.of_nat (length (failures results)),
     failedRequests ++ (toFailedRequest <$> failures results)).
Proof.
  revert s f failedRequests.
  induction results as [|res results IH]; intros s f fr Hs Hf Hmax.
  - simpl. by rewrite !Z.add_0_r, app_nil_r.
  - cbn [fold_left]. unfold fanInStep at 2. unfold successes, failures in *.
    rewrite !filter_cons. cbn [length] in Hmax.
    destruct (operationResult.Success (batchResult.result res)) eqn:Hres; simpl.
    + rewrite wrapInt_small by (unfold MaxInt in *; lia).
      rewrite IH by lia. f_equal. f_equal. lia.
    + rewrite wrapInt_small by (unfold MaxInt in *; lia).
      rewrite IH by lia. rewrite <- app_assoc. simpl. f_equal. f_equal. lia.
Qed.

Lemma fanIn_counts results :
  Z.of_nat (length results) ≤ MaxInt →
  fanIn results
  = (Z.of_nat (length (successes results)),
     Z.of_nat (length (failures results)),
     toFailedRequest <$> failures results).
Proof. intros H. unfold fanIn. by rewrite fanIn_fold by lia. Qed.

Lemma finishBatch_lookup js jobID job requests results now :
  js !! jobID = Some job →
  Z.of_nat (length results) ≤ MaxInt →
  ∃ job', finishBatch js jobID requests results now !! jobID = Some job'
    ∧ Job.TotalRequests job' = Job.TotalRequests job
    ∧ Job.SuccessfulOperations job' = Z.of_nat (length (successes results))
    ∧ Job.FailedOperations job' = Z.of_nat (length (failures results))
    ∧ Job.NotProcessedOperations job' = 0
    ∧ Job.FailedRequests job' = toFailedRequest <$> failures results
    ∧ Job.Status job'
      = (if decide (length (failures results) = 0%nat) then JobStatusCompleted
         else if decide (length (successes results) = 0%nat) then JobStatusFailed
         else JobStatusCompleted).
Proof.
  intros Hjob Hmax. unfold finishBatch. rewrite fanIn_counts by done.
  unfold JobProgressTracker.Finalize. rewrite (UpdateJob_lookup _ _ _ _ _ Hjob).
  eexists. split; [reflexivity|].
  destruct (Z.eqb_spec (Z.of_nat (length (failures results))) 0) as [Hf|Hf];
    [|destruct (Z.eqb_spec (Z.of_nat (length (successes results))) 0) as [Hs|Hs]];
    simpl; split_and!; try done; repeat case_decide; done || lia.
Qed.

(** C7. When the fan-in has gathered one result per valid request of a
    batch of n ≥ 1 requests, s of them successes and f failures, the
    finalized job is completed when f = 0 or when s > 0 and f > 0, and
    failed when s = 0 and f > 0; it carries s, f and 0 as its counters
    and one failed-request record per failure, made of the failed
    request and its error text. *)
Theorem finishBatch_spec (js : gmap string Job.t) (jobID : string) (job : Job.t)
    (requests : list RepositoryRequest.t) (results : list batchResult.t)
    (now : Z) :
  js !! jobID = Some job →
  batchResult.request <$> results ≡ₚ requests →
  (1 ≤ length requests)%nat →
  Z.of_nat (length requests) ≤ MaxInt →
  let s := Z.of_nat (length (successes results)) in
  let f := Z.of_nat (length (failures results)) in
  s + f = Z.of_nat (length requests)
  ∧ ∃ job', GetJob (finishBatch js jobID requests results now) jobID
            = (Some job', true)
      ∧ (f = 0 ∨ (0 < s ∧ 0 < f) → Job.Status job' = JobStatusCompleted)
      ∧ (s = 0 ∧ 0 < f → Job.Status job' = JobStatusFailed)
      ∧ Job.SuccessfulOperations job' = s
      ∧ Job.FailedOperations job' = f
      ∧ Job.NotProcessedOperations job' = 0
      ∧ Job.FailedRequests job' = toFailedRequest <$> failures results
      ∧ Z.of_nat (length (Job.FailedRequests job')) = f.
Proof.
  intros Hjob Hperm Hn Hmax s f.
  assert (length results = length requests) as Hlen.
  { by rewrite <- Hperm, length_fmap. }
  pose proof (successes_failures_length results) as Hsf.
  split; [unfold s, f; lia|].
  destruct (finishBatch_lookup js jobID job requests results now Hjob)
    as (job' & Hjob' & _ & HS & HF & HN & HR & Hst); [lia|].
  exists job'. rewrite GetJob_Some. split_and!; try done.
  - rewrite Hst. intros [Hf0|[Hs0 Hf0]]; unfold s, f in *.
    + by rewrite decide_True by lia.
    + repeat case_decide; done || lia.
  - rewrite Hst. intros [Hs0 Hf0]; unfold s, f in *.
    rewrite decide_False by lia. by rewrite decide_True by lia.
  - by rewrite HR, length_fmap.
Qed.

Lemma finishBatch_lookup_ne js jobID id requests results now :
  id ≠ jobID → finishBatch js jobID requests results now !! id = js !! id.
Proof.
  intros Hid. unfold finishBatch. destruct (fanIn results) as [[? ?] ?].
  unfold JobProgressTracker.Finalize. by apply UpdateJob_lookup_ne.
Qed.

Lemma SetProcessing_lookup js jobID now job :
  js !! jobID = Some job →
  ∃ job', JobProgressTracker.SetProcessing js jobID now !! jobID = Some job'
    ∧ Job.TotalRequests job' = Job.TotalRequests job
    ∧ Job.SuccessfulOperations job' = Job.SuccessfulOperations job
    ∧ Job.FailedOperations job' = Job.FailedOperations job
    ∧ Job.NotProcessedOperations job' = Job.NotProcessedOperations job
    ∧ Job.Status job' = JobStatusProcessing.
Proof.
  intros Hjob. unfold JobProgressTracker.SetProcessing.
  rewrite (UpdateJob_lookup _ _ _ _ _ Hjob). eexists. split; [reflexivity|]. done.
Qed.

Lemma SetProcessing_lookup_ne js jobID id now :
  id ≠ jobID → JobProgressTracker.SetProcessing js jobID now !! id = js !! id.
Proof.
  intros Hid. unfold JobProgressTracker.SetProcessing.
  by apply UpdateJob_lookup_ne.
Qed.

Lemma MarkFailed_lookup js jobID totalRequests now job :
  js !! jobID = Some job →
  ∃ job', JobProgressTracker.MarkFailed js jobID totalRequests now !! jobID
          = Some job'
    ∧ Job.TotalRequests job' = totalRequests
    ∧ Job.SuccessfulOperations job' = Job.SuccessfulOperations job
    ∧ Job.FailedOperations job' = totalRequests
    ∧ Job.NotProcessedOperations job' = 0
    ∧ Job.Status job' = JobStatusFailed.
Proof.
  intros Hjob. unfold JobProgressTracker.MarkFailed.
  rewrite (UpdateJob_lookup _ _ _ _ _ Hjob). eexists. split; [reflexivity|]. done.
Qed.

Lemma MarkFailed_lookup_ne js jobID id totalRequests now :
  id ≠ jobID →
  JobProgressTracker.MarkFailed js jobID totalRequests now !! id = js !! id.
Proof.
  intros Hid. unfold JobProgressTracker.MarkFailed.
  by apply UpdateJob_lookup_ne.
Qed.

(** ** The counters of every job add up *)

Lemma taskTracked_agree js js' t :
  js' !! taskJobID t = js !! taskJobID t → taskTracked js t → taskTracked js' t.
Proof. intros Heq (job & Hjob & H). exists job. by rewrite Heq. Qed.

Lemma tasks_other_ids (ts1 ts2 : list Task) (t : Task) :
  NoDup (taskJobID <$> ts1 ++ t :: ts2) →
  NoDup (taskJobID <$> ts1 ++ ts2)
  ∧ ∀ t', t' ∈ ts1 ++ ts2 → taskJobID t' ≠ taskJobID t.
Proof.
  rewrite !fmap_app, fmap_cons. intros H.
  apply NoDup_app in H as (H1 & H12 & H2). apply NoDup_cons in H2 as [Ht H2].
  split.
  - apply NoDup_app. split_and!; [done| |done].
    intros x Hx1 Hx2. apply (H12 x Hx1). by right.
  - intros t' Ht' Heq. apply elem_of_app in Ht' as [Ht'|Ht'].
    + apply (H12 (taskJobID t)); [|by left].
      rewrite <- Heq. by apply list_elem_of_fmap_2.
    + apply Ht. rewrite <- Heq. by apply list_elem_of_fmap_2.
Qed.

Lemma Forall_tracked_others js js' (ts1 ts2 : list Task) (t : Task) :
  (∀ id, id ≠ taskJobID t → js' !! id = js !! id) →
  (∀ t', t' ∈ ts1 ++ ts2 → taskJobID t' ≠ taskJobID t) →
  Forall (taskTracked js) (ts1 ++ t :: ts2) →
  Forall (taskTracked js') (ts1 ++ ts2).
Proof.
  intros Hagree Hne. rewrite !Forall_forall. intros Hall t' Ht'.
  apply (taskTracked_agree js); [by apply Hagree, Hne|].
  apply Hall. rewrite elem_of_app in Ht'. rewrite elem_of_app, elem_of_cons.
  naive_solver.
Qed.

Lemma invariant_initial : systemInvariant initial.
Proof.
  split_and!; simpl.
  - intros id job H. unfold NewJobStore in H. by rewrite lookup_empty in H.
  - constructor.
  - constructor.
Qed.

Lemma invariant_step s s' : systemInvariant s → step s s' → systemInvariant s'.
Proof.
  intros (Hjobs & Htasks & Hids) Hstep.
  destruct Hstep as
    [js ts id action total now Hfree
    |js ts vr batch action jobID now Hfresh Hmax
    |js ts1 ts2 jobID requests now
    |js ts1 ts2 jobID requests results now Hperm
    |js ts1 ts2 jobID requests started total now];
    unfold systemInvariant; simpl in *.
  - (* a job is created outside of any running batch *)
    unfold CreateJob. cbn [fst]. split_and!; [| |done].
    + intros id' job. rewrite lookup_insert. case_decide.
      * intros [= <-]. unfold countersAddUp. simpl. lia.
      * apply Hjobs.
    + rewrite Forall_forall in *. intros t Ht.
      apply (taskTracked_agree js); [|by apply Htasks].
      apply lookup_insert_ne. intros Heq. by apply (Hfree t).
  - (* a batch is submitted *)
    unfold queueJob, CreateJob. cbn [fst].
    assert (∀ t, t ∈ ts → taskJobID t ≠ jobID) as Hne.
    { intros t Ht Heq. rewrite Forall_forall in Htasks.
      destruct (Htasks t Ht) as (job & Hjob & _). congruence. }
    split_and!.
    + intros id job. rewrite lookup_insert. case_decide.
      * intros [= <-]. unfold countersAddUp. simpl. lia.
      * apply Hjobs.
    + constructor.
      * eexists. simpl. rewrite lookup_insert_eq. split; [done|]. simpl. done.
      * rewrite Forall_forall in *. intros t Ht.
        apply (taskTracked_agree js); [|by apply Htasks].
        apply lookup_insert_ne. intros Heq. by apply (Hne t).
    + apply NoDup_cons. split; [|done]. simpl.
      intros (t & Heq & Ht)%list_elem_of_fmap. by apply (Hne t).
  - (* the task marks its job as processing *)
    set (t := {| taskJobID := jobID; taskRequests := requests;
                 taskStarted := false |}) in *.
    assert (taskTracked js t) as (job & Hjob & Htot & Hsucc & Hmax).
    { rewrite Forall_forall in Htasks. apply Htasks, elem_of_app. right. by left. }
    unfold t in Hjob, Htot, Hmax. simpl in Hjob, Htot, Hmax.
    destruct (tasks_other_ids _ _ _ Hids) as [Hids' Hne].
    destruct (SetProcessing_lookup js jobID now job Hjob)
      as (job' & Hjob' & HT & HS & HF & HN & _).
    split_and!.
    + intros id job''. destruct (decide (id = jobID)) as [->|Hid].
      * rewrite Hjob'. intros [= <-].
        specialize (Hjobs _ _ Hjob). unfold countersAddUp in *. lia.
      * rewrite SetProcessing_lookup_ne by done. apply Hjobs.
    + apply Forall_app. rewrite Forall_cons.
      assert (Forall (taskTracked (JobProgressTracker.SetProcessing js jobID now))
                (ts1 ++ ts2)) as [H1 H2]%Forall_app.
      { apply (Forall_tracked_others js _ ts1 ts2 t); [|done..].
        intros id Hid. by apply SetProcessing_lookup_ne. }
      split_and!; [done| |done].
      exists job'. simpl. split_and!; [done|lia|lia|done].
    + by rewrite fmap_app, fmap_cons in *.
  - (* fan-in: the job is finalized *)
    set (t := {| taskJobID := jobID; taskRequests := requests;
                 taskStarted := true |}) in *.
    assert (taskTracked js t) as (job & Hjob & Htot & Hsucc & Hmax).
    { rewrite Forall_forall in Htasks. apply Htasks, elem_of_app. right. by left. }
    unfold t in Hjob, Htot, Hmax. simpl in Hjob, Htot, Hmax.
    assert (length results = length requests) as Hlen.
    { by rewrite <- Hperm, length_fmap. }
    destruct (tasks_other_ids _ _ _ Hids) as [Hids' Hne].
    split_and!; [| |done].
    + intros id job'. destruct (decide (id = jobID)) as [->|Hid].
      * destruct (finishBatch_lookup js jobID job requests results now Hjob)
          as (job'' & Hjob'' & HT & HS & HF & HN & _); [lia|].
        rewrite Hjob''. intros [= <-]. unfold countersAddUp.
        rewrite HT, HS, HF, HN, Htot.
        pose proof (successes_failures_length results). lia.
      * rewrite finishBatch_lookup_ne by done. apply Hjobs.
    + apply (Forall_tracked_others js _ ts1 ts2 t); [|done..].
      intros id Hid. by apply finishBatch_lookup_ne.
  - (* the job is marked as failed *)
    set (t := {| taskJobID := jobID; taskRequests := requests;
                 taskStarted := started |}) in *.
    assert (taskTracked js t) as (job & Hjob & Htot & Hsucc & Hmax).
    { rewrite Forall_forall in Htasks. apply Htasks, elem_of_app. right. by left. }
    unfold t in Hjob, Htot, Hmax. simpl in Hjob, Htot, Hmax.
    destruct (tasks_other_ids _ _ _ Hids) as [Hids' Hne].
    destruct (MarkFailed_lookup js jobID total now job Hjob)
      as (job' & Hjob' & HT & HS & HF & HN & _).
    split_and!; [| |done].
    + intros id job''. destruct (decide (id = jobID)) as [->|Hid].
      * rewrite Hjob'. intros [= <-]. unfold countersAddUp. lia.
      * rewrite MarkFailed_lookup_ne by done. apply Hjobs.
    + apply (Forall_tracked_others js _ ts1 ts2 t); [|done..].
      intros id Hid. by apply MarkFailed_lookup_ne.
Qed.

Lemma invariant_reachable s : reachable s → systemInvariant s.
Proof.
  induction 1 as [|s s' _ IH Hstep]; [apply invariant_initial|].
  by apply (invariant_step s).
Qed.

(** C1. In every state the store can reach through batch submissions,
    the processing mark, the fan-in's finalization and the failure mark
    of a task, a job returned by [GetJob] has a total equal to the sum of
    its successful, failed and not-processed counters. *)
Theorem counters_add_up (s : System) (id : string) (job : Job.t) :
  reachable s →
  GetJob (jobs s) id = (Some job, true) →
  Job.TotalRequests job
  = Job.SuccessfulOperations job + Job.FailedOperations job
    + Job.NotProcessedOperations job.
Proof.
  intros Hreach Hget. apply GetJob_Some in Hget.
  destruct (invariant_reachable s Hreach) as (Hjobs & _).
  exact (Hjobs id job Hget).
Qed.

(** ** The example batch *)

(** [MarkFailed] leaves the successes counter as it is: on the finalized
    job of the example, which records one success, the counters would no
    longer add up. No caller does this. *)
Remark MarkFailed_keeps_successes :
  ∃ job, GetJob (JobProgressTracker.MarkFailed (jobs Examples.finalized)
                   "job-1" 2 13) "job-1" = (Some job, true)
    ∧ Job.TotalRequests job = 2
    ∧ Job.SuccessfulOperations job = 1
    ∧ Job.FailedOperations job = 2
    ∧ Job.NotProcessedOperations job = 0.
Proof. eexists. split; [vm_compute; reflexivity|]. done. Qed.


Example validated_valid :
  ValidationResult.ValidRequests Examples.validated
  = [Examples.offboardRequest; Examples.appRequest].
Proof. reflexivity. Qed.

Example validated_invalid :
  ValidationResult.InvalidRequests Examples.validated
  = [ {| ValidationError.Request := Examples.badRequest;
         ValidationError.Reasons :=
           ["packageManager must be empty for shared delete operations"] |} ].
Proof. reflexivity. Qed.

Example processing_job :
  GetJob (jobs Examples.processing) "job-1" = (Some Examples.processingJob, true).
Proof. vm_compute. reflexivity. Qed.

Example finalized_job :
  GetJob (jobs Examples.finalized) "job-1" = (Some Examples.finalizedJob, true).
Proof. vm_compute. reflexivity. Qed.

(** The scenario of the three create requests: the job ends completed
    with two successes, one failure, and the failed request on record
    with the resolver's reason. *)
Example scenario_unknown_organization :
  GetJob Examples.createFinalized "job-2"
  = (Some {| Job.ID := "job-2";
             Job.Status := JobStatusCompleted;
             Job.Action := "create";
             Job.CreatedAt := 20;
             Job.UpdatedAt := 22;
             Job.TotalRequests := 3;
             Job.SuccessfulOperations := 2;
             Job.FailedOperations := 1;
             Job.NotProcessedOperations := 0;
             Job.FailedRequests :=
               [ {| FailedRequest.Request := Examples.badOrgRequest;
                    FailedRequest.Reason :=
                      "organization 'no-such-org' not found" |} ];
             Job.Message := "Processed 2 of 3 requests with 1 errors" |},
     true).
Proof. vm_compute. reflexivity. Qed.

Lemma reachable_finalized : reachable Examples.finalized.
Proof.
  eapply reachable_step; [eapply reachable_step; [eapply reachable_step|]|].
  - apply reachable_initial.
  - apply (step_submit (jobs initial) [] Examples.validated Examples.deleteBatch
             MethodDelete "job-1" 10); [reflexivity|].
    vm_compute. discriminate.
  - apply (step_processing _ [] [] "job-1"
             (ValidationResult.ValidRequests Examples.validated) 11).
  - apply (step_finalize _ [] [] "job-1"
             (ValidationResult.ValidRequests Examples.validated)
             Examples.deleteResults 12).
    apply perm_swap.
Defined.

Lemma validateBatchRequest_spec_witness :
  (MethodDelete = MethodCreate ∨ MethodDelete = MethodDelete)
  ∧ ValidationResult.ValidRequests
      (validateBatchRequest Examples.deleteBatch MethodDelete)
    = filter (acceptedSpec MethodDelete) Examples.deleteBatch.
Proof.
  split; [by right|].
  exact (proj1 (validateBatchRequest_spec Examples.deleteBatch MethodDelete
                  (or_intror eq_refl))).
Defined.

Lemma finishBatch_spec_witness :
  jobs Examples.processing !! "job-1" = Some Examples.processingJob
  ∧ ∃ job', GetJob (finishBatch (jobs Examples.processing) "job-1"
                      (ValidationResult.ValidRequests Examples.validated)
                      Examples.deleteResults 12) "job-1" = (Some job', true)
      ∧ Job.SuccessfulOperations job' = 1
      ∧ Job.FailedOperations job' = 1.
Proof.
  assert (jobs Examples.processing !! "job-1" = Some Examples.processingJob)
    as Hjob by (vm_compute; reflexivity).
  split; [exact Hjob|].
  destruct (finishBatch_spec (jobs Examples.processing) "job-1"
              Examples.processingJob
              (ValidationResult.ValidRequests Examples.validated)
              Examples.deleteResults 12 Hjob)
    as (_ & job' & Hget & _ & _ & HS & HF & _).
  - apply perm_swap.
  - simpl. lia.
  - vm_compute. discriminate.
  - exists job'. split_and!; [exact Hget|exact HS|exact HF].
Defined.

Lemma counters_add_up_witness :
  reachable Examples.finalized
  ∧ GetJob (jobs Examples.finalized) "job-1" = (Some Examples.finalizedJob, true)
  ∧ Job.TotalRequests Examples.finalizedJob
    = Job.SuccessfulOperations Examples.finalizedJob
      + Job.FailedOperations Examples.finalizedJob
      + Job.NotProcessedOperations Examples.finalizedJob.
Proof.
  assert (GetJob (jobs Examples.finalized) "job-1"
          = (Some Examples.finalizedJob, true)) as Hget
    by (vm_compute; reflexivity).
  split_and!; [exact reachable_finalized|exact Hget|].
  exact (counters_add_up Examples.finalized "job-1" Examples.finalizedJob
           reachable_finalized Hget).
Defined.

End ServerFacts.

Module ServiceFacts.
Import GoStrings GoStringsFacts GoErrors Config Client RoleEngine Service.

(** ** Programs and their runs *)

(** Whatever the client is, a run of a workflow is one of its
    executions. *)
Lemma run_exec {W A : Type} (h : Handler W) (p : Prog A) (w : W) :
  exec p (trace h p w) (outcome h p w).
Proof.
  unfold trace, outcome. revert w.
  induction p as [a|X c k IH]; intros w; simpl; [done|].
  destruct (h X c w) as [x w1] eqn:Hh. specialize (IH x w1).
  destruct (run h (k x) w1) as [[a w2] tr]. simpl in *. eauto.
Qed.

Lemma exec_bind {A B : Type} (p : Prog A) (f : A → Prog B) tr b :
  exec (p ≫= f) tr b
  ↔ ∃ tr1 tr2 a, tr = tr1 ++ tr2 ∧ exec p tr1 a ∧ exec (f a) tr2 b.
Proof.
  unfold mbind, Prog_bind. revert tr.
  induction p as [a|X c k IH]; intros tr; simpl.
  - split.
    + intros H. by exists [], tr, a.
    + by intros (tr1 & tr2 & a' & -> & [-> ->] & H).
  - split.
    + intros (x & tr' & -> & H).
      apply IH in H as (tr1 & tr2 & a & -> & H1 & H2).
      exists (event c x :: tr1), tr2, a. naive_solver.
    + intros (tr1 & tr2 & a & -> & (x & tr' & -> & H1) & H2).
      exists x, (tr' ++ tr2). split; [done|]. apply IH. naive_solver.
Qed.

(** Opens an execution of a program whose next step is a call. *)
Ltac exec_call H x tr :=
  cbn in H; destruct H as (x & tr & -> & H); cbn in H.

(** Closes an execution of a program that has returned. *)
Ltac exec_ret H := cbn in H; destruct H as [-> ->].

(** ** The existence-checked creation steps *)

Lemma exec_CreateRepository cfg tr res :
  exec (NexusCreator.CreateRepository cfg) tr res →
  (∃ repo,
     tr = [EvGetRepository (OperationConfig.RepositoryName cfg) (repo, None)]
     ∧ res = None)
  ∨ (∃ repo lookupErr createErr,
       tr = [EvGetRepository (OperationConfig.RepositoryName cfg)
               (repo, Some lookupErr);
             EvCreateProxyRepository cfg createErr]
       ∧ (res = None ↔ createErr = None)).
Proof.
  intros H. unfold NexusCreator.CreateRepository in H.
  exec_call H x tr1. destruct x as [repo [e|]].
  - exec_call H cerr tr2. right. exists repo, e, cerr.
    destruct cerr; exec_ret H; done.
  - exec_ret H. left. by exists repo.
Qed.

Lemma exec_CreatePrivilege cfg tr res :
  exec (NexusCreator.CreatePrivilege cfg) tr res →
  (∃ priv,
     tr = [EvGetPrivilege (OperationConfig.PrivilegeName cfg) (priv, None)]
     ∧ res = None)
  ∨ (∃ priv lookupErr createErr,
       tr = [EvGetPrivilege (OperationConfig.PrivilegeName cfg)
               (priv, Some lookupErr);
             EvCreatePrivilege cfg createErr]
       ∧ (res = None ↔ createErr = None)).
Proof.
  intros H. unfold NexusCreator.CreatePrivilege in H.
  exec_call H x tr1. destruct x as [priv [e|]].
  - exec_call H cerr tr2. right. exists priv, e, cerr.
    destruct cerr; exec_ret H; done.
  - exec_ret H. left. by exists priv.
Qed.

(** C10. In [CreateRepository] and in [CreatePrivilege], a lookup that
    returns no error ends the step with success and no create call; a
    lookup that returns any error is followed by exactly one create
    call, and the step fails exactly when that call fails. *)
Theorem creation_lookup_error_means_absent (cfg : OperationConfig.t)
    (tr1 tr2 : list Event) (res1 res2 : option error) :
  exec (NexusCreator.CreateRepository cfg) tr1 res1 →
  exec (NexusCreator.CreatePrivilege cfg) tr2 res2 →
  ((∃ repo,
      tr1 = [EvGetRepository (OperationConfig.RepositoryName cfg) (repo, None)]
      ∧ res1 = None)
   ∨ (∃ repo lookupErr createErr,
        tr1 = [EvGetRepository (OperationConfig.RepositoryName cfg)
                 (repo, Some lookupErr);
               EvCreateProxyRepository cfg createErr]
        ∧ (res1 = None ↔ createErr = None)))
  ∧ ((∃ priv,
        tr2 = [EvGetPrivilege (OperationConfig.PrivilegeName cfg) (priv, None)]
        ∧ res2 = None)
     ∨ (∃ priv lookupErr createErr,
          tr2 = [EvGetPrivilege (OperationConfig.PrivilegeName cfg)
                   (priv, Some lookupErr);
                 EvCreatePrivilege cfg createErr]
          ∧ (res2 = None ↔ createErr = None))).
Proof.
  intros H1 H2. split.
  - by apply exec_CreateRepository.
  - by apply exec_CreatePrivilege.
Qed.

Lemma creation_lookup_error_means_absent_witness :
  (trace Examples.scriptedClient
     (NexusCreator.CreateRepository Examples.standardConfig) tt
   = [EvGetRepository "npm-release-app1"
        (None, Some (HTTPError 500 "server error"));
      EvCreateProxyRepository Examples.standardConfig None]
   ∧ outcome Examples.scriptedClient
       (NexusCreator.CreateRepository Examples.standardConfig) tt = None)
  ∧ ((∃ priv,
        trace Examples.scriptedClient
          (NexusCreator.CreatePrivilege Examples.standardConfig) tt
        = [EvGetPrivilege
             (OperationConfig.PrivilegeName Examples.standardConfig)
             (priv, None)]
        ∧ outcome Examples.scriptedClient
            (NexusCreator.CreatePrivilege Examples.standardConfig) tt = None)
     ∨ (∃ priv lookupErr createErr,
          trace Examples.scriptedClient
            (NexusCreator.CreatePrivilege Examples.standardConfig) tt
          = [EvGetPrivilege
               (OperationConfig.PrivilegeName Examples.standardConfig)
               (priv, Some lookupErr);
             EvCreatePrivilege Examples.standardConfig createErr]
          ∧ (outcome Examples.scriptedClient
               (NexusCreator.CreatePrivilege Examples.standardConfig) tt = None
             ↔ createErr = None))).
Proof.
  split; [split; reflexivity|].
  exact (proj2 (creation_lookup_error_means_absent Examples.standardConfig
                  _ _ _ _
                  (run_exec Examples.scriptedClient
                     (NexusCreator.CreateRepository Examples.standardConfig) tt)
                  (run_exec Examples.scriptedClient
                     (NexusCreator.CreatePrivilege Examples.standardConfig) tt))).
Defined.

(** ** Standard-mode cleanup *)

(** [removeFirst] drops the first occurrence of the role and nothing
    else. *)
Lemma removeFirst_absent roleName roles :
  roleName ∉ roles → NexusCleaner.removeFirst roleName roles = roles.
Proof.
  induction roles as [|r roles IH]; simpl; [done|].
  rewrite not_elem_of_cons. intros [Hne Hnot].
  destruct (String.eqb_spec r roleName); [congruence|]. by rewrite IH.
Qed.

Lemma removeFirst_present roleName roles :
  roleName ∈ roles →
  ∃ before after, roles = before ++ roleName :: after
    ∧ (roleName ∉ before)
    ∧ NexusCleaner.removeFirst roleName roles = before ++ after.
Proof.
  induction roles as [|r roles IH]; simpl; [by intros ?%elem_of_nil|].
  intros Hin. destruct (String.eqb_spec r roleName) as [->|Hne].
  - exists [], roles. split_and!; [done|apply not_elem_of_nil|done].
  - apply elem_of_cons in Hin as [?|Hin]; [congruence|].
    destruct (IH Hin) as (before & after & -> & Hnot & ->).
    exists (r :: before), after. split_and!; [done| |done].
    rewrite not_elem_of_cons. naive_solver.
Qed.

Lemma exec_CleanupRole cfg tr res :
  exec (NexusCleaner.CleanupRole cfg) tr res →
  let roleName := OperationConfig.RoleName cfg in
  (∃ role e, tr = [EvGetRole roleName (role, Some e)] ∧ res ≠ None)
  ∨ (tr = [EvGetRole roleName (None, None)] ∧ res = None)
  ∨ (∃ role deleteErr,
       Role.Privileges role = []
       ∧ tr = [EvGetRole roleName (Some role, None);
               EvDeleteRole roleName deleteErr]
       ∧ (res = None ↔ deleteErr = None))
  ∨ (∃ role,
       Role.Privileges role ≠ []
       ∧ tr = [EvGetRole roleName (Some role, None)] ∧ res = None).
Proof.
  intros H roleName. unfold NexusCleaner.CleanupRole in H.
  exec_call H x tr1. destruct x as [role [e|]].
  - exec_ret H. left. by exists role, e.
  - right. destruct role as [role|].
    + destruct (Role.Privileges role) as [|p ps] eqn:Hprivs; simpl in H.
      * exec_call H derr tr2. right. left. exists role, derr.
        destruct derr; exec_ret H; done.
      * exec_ret H. right. right. exists role. by rewrite Hprivs.
    + exec_ret H. by left.
Qed.

Lemma exec_CleanupUserRoles cfg tr res :
  exec (NexusCleaner.CleanupUserRoles cfg) tr res →
  let username := OperationConfig.LdapUsername cfg in
  let roleName := OperationConfig.RoleName cfg in
  let finalRolesOf roles :=
    DecideFinalRoles
      (SetAfterRemovalRoles
         (NewRoleDecisionEngine (OperationConfig.BaseRoles cfg)
                                (OperationConfig.ExtraRoles cfg)) roles) in
  (∃ user e, tr = [EvGetUser username (user, Some e)] ∧ res ≠ None)
  ∨ (tr = [EvGetUser username (None, None)] ∧ res = None)
  ∨ (∃ user role e,
       roleName ≠ ""
       ∧ tr = [EvGetUser username (Some user, None);
               EvGetRole roleName (role, Some e)]
       ∧ res ≠ None)
  ∨ (∃ user lookups remaining updateErr,
       tr = EvGetUser username (Some user, None)
              :: lookups
              ++ [EvUpdateUser (User.setRoles (finalRolesOf remaining) user) updateErr]
       ∧ (res = None ↔ updateErr = None)
       ∧ ((roleName = "" ∧ lookups = [] ∧ remaining = User.Roles user)
          ∨ (roleName ≠ ""
             ∧ lookups = [EvGetRole roleName (None, None)]
             ∧ remaining = NexusCleaner.removeFirst roleName (User.Roles user))
          ∨ (∃ role,
               roleName ≠ "" ∧ Role.Privileges role = []
               ∧ lookups = [EvGetRole roleName (Some role, None)]
               ∧ remaining
                 = NexusCleaner.removeFirst roleName (User.Roles user))
          ∨ (∃ role,
               roleName ≠ "" ∧ Role.Privileges role ≠ []
               ∧ lookups = [EvGetRole roleName (Some role, None)]
               ∧ remaining = User.Roles user))).
Proof.
  intros H username roleName finalRolesOf.
  unfold NexusCleaner.CleanupUserRoles in H.
  exec_call H x tr1. destruct x as [user [e|]].
  { exec_ret H. left. by exists user, e. }
  right. destruct user as [user|]; [|exec_ret H; by left].
  right. fold roleName in H.
  destruct (String.eqb_spec roleName "") as [Hempty|Hnonempty]; simpl in H.
  - exec_call H uerr tr2. right.
    exists user, [], (User.Roles user), uerr.
    destruct uerr; exec_ret H; split_and!; try done; left; done.
  - exec_call H y tr2. destruct y as [role [e|]].
    { exec_ret H. left. by exists user, role, e. }
    right. destruct role as [role|].
    + destruct (Role.Privileges role) as [|p ps] eqn:Hprivs; simpl in H.
      * exec_call H uerr tr3.
        exists user, [EvGetRole roleName (Some role, None)],
          (NexusCleaner.removeFirst roleName (User.Roles user)), uerr.
        destruct uerr; exec_ret H; split_and!; try done;
          right; right; left; by exists role.
      * exec_call H uerr tr3.
        exists user, [EvGetRole roleName (Some role, None)],
          (User.Roles user), uerr.
        destruct uerr; exec_ret H; split_and!; try done;
          right; right; right; exists role; by rewrite Hprivs.
    + exec_call H uerr tr3.
      exists user, [EvGetRole roleName (None, None)],
        (NexusCleaner.removeFirst roleName (User.Roles user)), uerr.
      destruct uerr; exec_ret H; split_and!; try done; right; left; done.
Qed.

(** What is left of a role list once the first occurrence of a role is
    dropped, in terms of the lists alone. *)
Lemma removeFirst_dropped roleName roles :
  ((roleName ∉ roles) ∧ NexusCleaner.removeFirst roleName roles = roles)
  ∨ ∃ before after,
      roles = before ++ roleName :: after ∧ (roleName ∉ before)
      ∧ NexusCleaner.removeFirst roleName roles = before ++ after.
Proof.
  destruct (decide (roleName ∈ roles)) as [Hin|Hnot].
  - right. by apply removeFirst_present.
  - left. split; [done|]. by apply removeFirst_absent.
Qed.

(** The engine [CleanupUserRoles] builds, field by field. *)
Lemma cleanup_engine base extra remaining :
  SetAfterRemovalRoles (NewRoleDecisionEngine base extra) remaining
  = {| baseRoles := filter (λ r, r ≠ "") base;
       extraRoles := filter (λ r, r ≠ "") extra;
       afterRemoval := remaining |}.
Proof.
  unfold SetAfterRemovalRoles, NewRoleDecisionEngine. simpl.
  by rewrite !RoleEngineFacts.filterEmpty_filter.
Qed.

(** C9. [CleanupRole] asks for the role and deletes it only when it
    exists with an empty privilege list: an absent role and a role that
    still has privileges end the step with success and no other call.
    [CleanupUserRoles] asks for the user and does nothing more when the
    user is absent; otherwise it drops the target role (its first
    occurrence) from the user's list only when the role is absent or has
    no privileges, and not at all when the role still has privileges;
    the user it sends back has, as its roles, the list the decision
    engine computes from what is left over the non-empty configured base
    and extra roles, and every other field as fetched. *)
Theorem standard_cleanup (cfg : OperationConfig.t)
    (tr1 tr2 : list Event) (res1 res2 : option error) :
  exec (NexusCleaner.CleanupRole cfg) tr1 res1 →
  exec (NexusCleaner.CleanupUserRoles cfg) tr2 res2 →
  let username := OperationConfig.LdapUsername cfg in
  let roleName := OperationConfig.RoleName cfg in
  let decided (remaining : list string) :=
    DecideFinalRoles
      {| baseRoles := filter (λ r, r ≠ "") (OperationConfig.BaseRoles cfg);
         extraRoles := filter (λ r, r ≠ "") (OperationConfig.ExtraRoles cfg);
         afterRemoval := remaining |} in
  let dropped (roles remaining : list string) :=
    ((roleName ∉ roles) ∧ remaining = roles)
    ∨ ∃ before after,
        roles = before ++ roleName :: after ∧ (roleName ∉ before)
        ∧ remaining = before ++ after in
  ((∃ role e, tr1 = [EvGetRole roleName (role, Some e)] ∧ res1 ≠ None)
   ∨ (tr1 = [EvGetRole roleName (None, None)] ∧ res1 = None)
   ∨ (∃ role deleteErr,
        Role.Privileges role = []
        ∧ tr1 = [EvGetRole roleName (Some role, None);
                 EvDeleteRole roleName deleteErr]
        ∧ (res1 = None ↔ deleteErr = None))
   ∨ (∃ role,
        Role.Privileges role ≠ []
        ∧ tr1 = [EvGetRole roleName (Some role, None)] ∧ res1 = None))
  ∧ ((∃ user e, tr2 = [EvGetUser username (user, Some e)] ∧ res2 ≠ None)
     ∨ (tr2 = [EvGetUser username (None, None)] ∧ res2 = None)
     ∨ (∃ user role e,
          roleName ≠ ""
          ∧ tr2 = [EvGetUser username (Some user, None);
                   EvGetRole roleName (role, Some e)]
          ∧ res2 ≠ None)
     ∨ (∃ user sent lookups remaining updateErr,
          tr2 = EvGetUser username (Some user, None)
                  :: lookups ++ [EvUpdateUser sent updateErr]
          ∧ User.Roles sent = decided remaining
          ∧ User.UserID sent = User.UserID user
          ∧ User.FirstName sent = User.FirstName user
          ∧ User.LastName sent = User.LastName user
          ∧ User.EmailAddress sent = User.EmailAddress user
          ∧ User.Source sent = User.Source user
          ∧ User.Status sent = User.Status user
          ∧ (res2 = None ↔ updateErr = None)
          ∧ ((roleName = "" ∧ lookups = [] ∧ remaining = User.Roles user)
             ∨ (roleName ≠ ""
                ∧ lookups = [EvGetRole roleName (None, None)]
                ∧ dropped (User.Roles user) remaining)
             ∨ (∃ role,
                  roleName ≠ "" ∧ Role.Privileges role = []
                  ∧ lookups = [EvGetRole roleName (Some role, None)]
                  ∧ dropped (User.Roles user) remaining)
             ∨ (∃ role,
                  roleName ≠ "" ∧ Role.Privileges role ≠ []
                  ∧ lookups = [EvGetRole roleName (Some role, None)]
                  ∧ remaining = User.Roles user)))).
Proof.
  intros H1 H2 username roleName decided dropped. split.
  - by apply exec_CleanupRole.
  - apply exec_CleanupUserRoles in H2. fold username roleName in H2.
    destruct H2 as [H2|[H2|[H2|(user & lookups & remaining & uerr & Htr
                                & Hres & Hl)]]];
      [by left|by right; left|by right; right; left|].
    right. right. right.
    exists user,
      (User.setRoles
         (DecideFinalRoles
            (SetAfterRemovalRoles
               (NewRoleDecisionEngine (OperationConfig.BaseRoles cfg)
                                      (OperationConfig.ExtraRoles cfg))
               remaining)) user),
      lookups, remaining, uerr.
    split; [done|]. split.
    { unfold decided. by rewrite <- cleanup_engine. }
    do 6 (split; [done|]). split; [done|].
    destruct Hl as [Hl|[(Hne & Hlook & ->)|[(role & Hne & Hp & Hlook & ->)|Hl]]].
    + by left.
    + right. left. split_and!; [done|done|]. apply removeFirst_dropped.
    + right. right. left. exists role. split_and!; [done|done|done|].
      apply removeFirst_dropped.
    + by right; right; right.
Qed.

Example standard_cleanup_role_run :
  run Examples.scriptedClient
    (NexusCleaner.CleanupRole Examples.standardConfig) tt
  = (None, tt,
     [EvGetRole "app-role" (Some (Examples.emptyRole "app-role"), None);
      EvDeleteRole "app-role" None]).
Proof. reflexivity. Qed.

(** The user does not hold the target role and keeps a role of its own:
    nothing is dropped, and the extra role stays. *)
Example standard_cleanup_user_run :
  run Examples.scriptedClient
    (NexusCleaner.CleanupUserRoles Examples.standardConfig) tt
  = (None, tt,
     [EvGetUser "user1" (Some Examples.user1, None);
      EvGetRole "app-role" (Some (Examples.emptyRole "app-role"), None);
      EvUpdateUser
        {| User.UserID := "user1"; User.FirstName := "User";
           User.LastName := "One"; User.EmailAddress := "user1@example.com";
           User.Source := "LDAP"; User.Status := "active";
           User.Roles := ["base-role"; "user1"; "extra-role"] |}
        None]).
Proof. vm_compute. reflexivity. Qed.

(** The target role is the user's own and is empty: it is dropped, and
    with it the extra role, since no other role is left. *)
Example standard_cleanup_last_role_run :
  run Examples.scriptedClient
    (NexusCleaner.CleanupUserRoles Examples.offboardConfig) tt
  = (None, tt,
     [EvGetUser "user1" (Some Examples.user1, None);
      EvGetRole "user1" (Some (Examples.emptyRole "user1"), None);
      EvUpdateUser
        {| User.UserID := "user1"; User.FirstName := "User";
           User.LastName := "One"; User.EmailAddress := "user1@example.com";
           User.Source := "LDAP"; User.Status := "active";
           User.Roles := ["base-role"] |}
        None]).
Proof. vm_compute. reflexivity. Qed.

(** A user who holds the target role, which is empty: the role is
    dropped from the list and the decided roles are sent. *)
Lemma standard_cleanup_witness :
  exec (NexusCleaner.CleanupRole Examples.offboardConfig)
    (trace Examples.scriptedClient
       (NexusCleaner.CleanupRole Examples.offboardConfig) tt)
    (outcome Examples.scriptedClient
       (NexusCleaner.CleanupRole Examples.offboardConfig) tt)
  ∧ exec (NexusCleaner.CleanupUserRoles Examples.offboardConfig)
      (trace Examples.scriptedClient
         (NexusCleaner.CleanupUserRoles Examples.offboardConfig) tt)
      (outcome Examples.scriptedClient
         (NexusCleaner.CleanupUserRoles Examples.offboardConfig) tt)
  ∧ (∃ role deleteErr,
       Role.Privileges role = []
       ∧ trace Examples.scriptedClient
           (NexusCleaner.CleanupRole Examples.offboardConfig) tt
         = [EvGetRole "user1" (Some role, None);
            EvDeleteRole "user1" deleteErr])
  ∧ trace Examples.scriptedClient
      (NexusCleaner.CleanupUserRoles Examples.offboardConfig) tt
    = [EvGetUser "user1" (Some Examples.user1, None);
       EvGetRole "user1" (Some (Examples.emptyRole "user1"), None);
       EvUpdateUser
         {| User.UserID := "user1"; User.FirstName := "User";
            User.LastName := "One"; User.EmailAddress := "user1@example.com";
            User.Source := "LDAP"; User.Status := "active";
            User.Roles := ["base-role"] |}
         None]
  ∧ (∃ user sent role updateErr,
       trace Examples.scriptedClient
         (NexusCleaner.CleanupUserRoles Examples.offboardConfig) tt
       = [EvGetUser "user1" (Some user, None);
          EvGetRole "user1" (Some role, None);
          EvUpdateUser sent updateErr]
       ∧ User.Roles user = ["user1"; "extra-role"; "base-role"]
       ∧ Role.Privileges role = []
       ∧ User.Roles sent = ["base-role"]
       ∧ User.Status sent = "active"
       ∧ User.UserID sent = "user1").
Proof.
  pose proof (run_exec Examples.scriptedClient
                (NexusCleaner.CleanupRole Examples.offboardConfig) tt) as H1.
  pose proof (run_exec Examples.scriptedClient
                (NexusCleaner.CleanupUserRoles Examples.offboardConfig) tt) as H2.
  destruct (standard_cleanup Examples.offboardConfig _ _ _ _ H1 H2)
    as [Hrole Huser].
  split_and!; [exact H1|exact H2| |vm_compute; reflexivity|].
  - destruct Hrole as [(role & e & [=] & _)|[([=] & _)|[(role & derr & Hp & Htr & _)
                                                        |(role & _ & [=] & _)]]].
    by exists role, derr.
  - destruct Huser as [(user & e & [=] & _)|[([=] & _)|[(user & role & e & _ & [=] & _)
                         |(user & sent & lookups & remaining & uerr & Htr
                           & Hroles & Hid & _ & _ & _ & _ & Hstatus & _ & Hl)]]].
    destruct Hl as [([=] & _)|[(_ & -> & _)|[(role & _ & Hp & -> & Hdrop)
                                            |(role & _ & Hp & -> & _)]]].
    + by injection Htr.
    + pose proof Htr as Heq. injection Heq as Hu Hr Hs He.
      rewrite <- Hu in Hdrop, Hstatus, Hid.
      exists user, sent, role, uerr.
      assert (remaining = ["extra-role"; "base-role"]) as ->.
      { destruct Hdrop as [[Hnot _]|(before & after & Hsplit & Hnot & ->)].
        - destruct Hnot. apply list_elem_of_here.
        - destruct before as [|x before].
          + by injection Hsplit as <-.
          + injection Hsplit as <- _. destruct Hnot. apply list_elem_of_here. }
      split_and!; [exact Htr|by rewrite <- Hu|exact Hp|exact Hroles
                  |exact Hstatus|exact Hid].
    + pose proof Htr as Heq. injection Heq as Hu Hr Hs He.
      rewrite <- Hr in Hp. by destruct Hp.
Defined.

(** ** Offboarding *)

Lemma exec_DisableUserAndResetRoles cfg tr res :
  exec (NexusCleaner.DisableUserAndResetRoles cfg) tr res →
  let username := OperationConfig.LdapUsername cfg in
  (res = None
   ∧ ∃ user,
       tr = [EvGetUser username (Some user, None);
             EvUpdateUser
               (User.setStatus "disabled"
                  (User.setRoles (OperationConfig.BaseRoles cfg) user)) None])
  ∨ (res ≠ None
     ∧ ∀ ev, ev ∈ tr →
         (∃ name r, ev = EvGetUser name r) ∨ (∃ user r, ev = EvUpdateUser user r)).
Proof.
  intros H username. unfold NexusCleaner.DisableUserAndResetRoles in H.
  exec_call H x tr1. destruct x as [user [e|]].
  { exec_ret H. right. split; [done|]. intros ev Hev. set_unfold. naive_solver. }
  destruct user as [user|].
  - exec_call H uerr tr2. destruct uerr as [e|]; exec_ret H.
    + right. split; [done|]. intros ev Hev. set_unfold. naive_solver.
    + left. split; [done|]. by exists user.
  - exec_ret H. right. split; [done|]. intros ev Hev. set_unfold. naive_solver.
Qed.

Lemma exec_ForceDeleteRole cfg roleName tr res :
  exec (NexusCleaner.ForceDeleteRole cfg roleName) tr res →
  ∃ r, tr = [EvDeleteRole roleName r].
Proof.
  intros H. unfold NexusCleaner.ForceDeleteRole in H.
  exec_call H r tr1. exists r. destruct r as [e|]; [|by exec_ret H].
  destruct (AsHTTPError e) as [code|]; [|by exec_ret H].
  destruct (code =? StatusNotFound); by exec_ret H.
Qed.

Lemma exec_DeleteRepositoryByName cfg name tr res :
  exec (NexusCleaner.DeleteRepositoryByName cfg name) tr res →
  ∃ r, tr = [EvDeleteRepository name r].
Proof.
  intros H. unfold NexusCleaner.DeleteRepositoryByName in H.
  exec_call H r tr1. exists r. destruct r; by exec_ret H.
Qed.

Lemma exec_DeletePrivilegeByName cfg name tr res :
  exec (NexusCleaner.DeletePrivilegeByName cfg name) tr res →
  ∃ r, tr = [EvDeletePrivilege name r].
Proof.
  intros H. unfold NexusCleaner.DeletePrivilegeByName in H.
  exec_call H r tr1. exists r. destruct r; by exec_ret H.
Qed.

(** A sweep calls the deletion once for each matching name, in list
    order, whatever the earlier deletions answered. *)
Lemma exec_sweepRepositories cfg suffix allRepos tr u :
  exec (DeletionManager.sweepRepositories cfg suffix allRepos) tr u →
  Forall2 (λ ev name, ∃ r, ev = EvDeleteRepository name r) tr
    (filter (λ name, HasSuffix name suffix = true)
            (Repository.Name <$> allRepos)).
Proof.
  revert tr. induction allRepos as [|repo rest IH]; intros tr H.
  - exec_ret H. constructor.
  - cbn [DeletionManager.sweepRepositories] in H. rewrite fmap_cons, filter_cons.
    destruct (HasSuffix (Repository.Name repo) suffix) eqn:Hsuf.
    + rewrite decide_True by done.
      apply exec_bind in H as (tr1 & tr2 & a & -> & H1 & H2).
      apply exec_DeleteRepositoryByName in H1 as [r ->].
      constructor; [by exists r|by apply IH].
    + rewrite decide_False by done. by apply IH.
Qed.

Lemma exec_sweepPrivileges cfg suffix allPrivs tr u :
  exec (DeletionManager.sweepPrivileges cfg suffix allPrivs) tr u →
  Forall2 (λ ev name, ∃ r, ev = EvDeletePrivilege name r) tr
    (filter (λ name, HasSuffix name suffix = true)
            (Privilege.Name <$> allPrivs)).
Proof.
  revert tr. induction allPrivs as [|priv rest IH]; intros tr H.
  - exec_ret H. constructor.
  - cbn [DeletionManager.sweepPrivileges] in H. rewrite fmap_cons, filter_cons.
    destruct (HasSuffix (Privilege.Name priv) suffix) eqn:Hsuf.
    + rewrite decide_True by done.
      apply exec_bind in H as (tr1 & tr2 & a & -> & H1 & H2).
      apply exec_DeletePrivilegeByName in H1 as [r ->].
      constructor; [by exists r|by apply IH].
    + rewrite decide_False by done. by apply IH.
Qed.

Lemma deletedRepositories_app tr1 tr2 :
  deletedRepositories (tr1 ++ tr2)
  = deletedRepositories tr1 ++ deletedRepositories tr2.
Proof.
  induction tr1 as [|ev tr1 IH]; [done|]. destruct ev; simpl; by rewrite ?IH.
Qed.

Lemma deletedPrivileges_app tr1 tr2 :
  deletedPrivileges (tr1 ++ tr2)
  = deletedPrivileges tr1 ++ deletedPrivileges tr2.
Proof.
  induction tr1 as [|ev tr1 IH]; [done|]. destruct ev; simpl; by rewrite ?IH.
Qed.

Lemma repository_deletions tr names :
  Forall2 (λ ev name, ∃ r, ev = EvDeleteRepository name r) tr names →
  deletedRepositories tr = names ∧ deletedPrivileges tr = []
  ∧ ∀ ev, ev ∈ tr → ∃ name r, ev = EvDeleteRepository name r.
Proof.
  induction 1 as [|ev name tr names [r ->] _ (IH1 & IH2 & IH3)]; simpl.
  - split_and!; try done. by intros ev ?%elem_of_nil.
  - split_and!; [by rewrite IH1|done|].
    intros ev [->|Hev]%elem_of_cons; [by eexists _, _|by apply IH3].
Qed.

Lemma privilege_deletions tr names :
  Forall2 (λ ev name, ∃ r, ev = EvDeletePrivilege name r) tr names →
  deletedPrivileges tr = names ∧ deletedRepositories tr = []
  ∧ ∀ ev, ev ∈ tr → ∃ name r, ev = EvDeletePrivilege name r.
Proof.
  induction 1 as [|ev name tr names [r ->] _ (IH1 & IH2 & IH3)]; simpl.
  - split_and!; try done. by intros ev ?%elem_of_nil.
  - split_and!; [by rewrite IH1|done|].
    intros ev [->|Hev]%elem_of_cons; [by eexists _, _|by apply IH3].
Qed.

Lemma elem_of_matching (names : list string) (suffix name : string) :
  name ∈ filter (λ name, HasSuffix name suffix = true) names
  ↔ name ∈ names ∧ ∃ front, name = front +:+ suffix.
Proof. by rewrite list_elem_of_filter, HasSuffix_true, (comm and). Qed.

(** C5. In a run of the deletion workflow on a shared descriptor with
    an application id, in which the client returns the repository list
    and the privilege list: the user was fetched and sent back with its
    roles equal to the base roles, its status equal to "disabled" and
    its other fields as fetched; after the listing of the repositories
    the workflow calls the deletion once for each repository whose name
    ends with "-release-" and the application id, and nothing else,
    whatever each deletion answers; likewise for the privileges after
    their listing; no other repository or privilege is touched, and the
    run ends with the offboarding result. *)
Theorem offboarding_sweep (cfg : OperationConfig.t) (tr : list Event)
    (res : option Result * option error)
    (repos : list Repository.t) (privs : list Privilege.t) :
  OperationConfig.Shared cfg = true →
  OperationConfig.AppID cfg ≠ "" →
  exec (DeletionManager.Run cfg) tr res →
  EvGetRepositories (repos, None) ∈ tr →
  EvGetPrivileges (privs, None) ∈ tr →
  let username := OperationConfig.LdapUsername cfg in
  let suffix := "-release-" +:+ OperationConfig.AppID cfg in
  let matching names := filter (λ name, HasSuffix name suffix = true) names in
  ∃ user sent roleErr repoEvents privEvents,
    tr = [EvGetUser username (Some user, None);
          EvUpdateUser sent None;
          EvDeleteRole username roleErr;
          EvGetRepositories (repos, None)]
         ++ repoEvents ++ [EvGetPrivileges (privs, None)] ++ privEvents
    ∧ User.Roles sent = OperationConfig.BaseRoles cfg
    ∧ User.Status sent = "disabled"
    ∧ User.UserID sent = User.UserID user
    ∧ User.FirstName sent = User.FirstName user
    ∧ User.LastName sent = User.LastName user
    ∧ User.EmailAddress sent = User.EmailAddress user
    ∧ User.Source sent = User.Source user
    ∧ Forall2 (λ ev name, ∃ r, ev = EvDeleteRepository name r)
        repoEvents (matching (Repository.Name <$> repos))
    ∧ Forall2 (λ ev name, ∃ r, ev = EvDeletePrivilege name r)
        privEvents (matching (Privilege.Name <$> privs))
    ∧ deletedRepositories tr = matching (Repository.Name <$> repos)
    ∧ deletedPrivileges tr = matching (Privilege.Name <$> privs)
    ∧ (∀ name, name ∈ deletedRepositories tr
               ↔ name ∈ Repository.Name <$> repos
                 ∧ ∃ front, name = front +:+ suffix)
    ∧ (∀ name, name ∈ deletedPrivileges tr
               ↔ name ∈ Privilege.Name <$> privs
                 ∧ ∃ front, name = front +:+ suffix)
    ∧ res = (Some (DeletionManager.offboardingResult cfg), None).
Proof.
  intros Hshared Happ H Hrepos Hprivs username suffix matching.
  unfold DeletionManager.Run in H. rewrite Hshared in H.
  destruct (String.eqb_spec (OperationConfig.AppID cfg) "") as [|_]; [done|].
  cbn [andb negb] in H.
  apply exec_bind in H as (tr1 & tr2 & err & -> & Hdisable & H).
  apply exec_DisableUserAndResetRoles in Hdisable
    as [(-> & user & ->)|(Herr & Hevents)].
  2:{ (* the user step failed: nothing was listed *)
    destruct err as [e|]; [|done]. exec_ret H. rewrite app_nil_r in Hrepos.
    destruct (Hevents _ Hrepos) as [(? & ? & [=])|(? & ? & [=])]. }
  apply exec_bind in H as (tr3 & tr4 & roleRes & -> & Hrole & H).
  apply exec_ForceDeleteRole in Hrole as [roleErr ->].
  exec_call H x tr5. destruct x as [allRepos [e|]].
  { (* the repository listing failed *)
    exec_ret H. set_unfold in Hprivs. naive_solver. }
  fold suffix in H.
  apply exec_bind in H as (repoEvents & tr6 & u1 & -> & Hsweep1 & H).
  apply exec_sweepRepositories in Hsweep1.
  destruct (repository_deletions _ _ Hsweep1) as (Hdr1 & Hdp1 & Hev1).
  exec_call H y tr7. destruct y as [allPrivs [e|]].
  { (* the privilege listing failed *)
    exec_ret H. set_unfold in Hprivs.
    destruct Hprivs as [?|[?|[?|[?|[Hin|[?|?]]]]]]; try done.
    by destruct (Hev1 _ Hin) as (? & ? & [=]). }
  apply exec_bind in H as (privEvents & tr8 & u2 & -> & Hsweep2 & H).
  apply exec_sweepPrivileges in Hsweep2.
  destruct (privilege_deletions _ _ Hsweep2) as (Hdp2 & Hdr2 & Hev2).
  exec_ret H. rewrite app_nil_r in *.
  assert (allRepos = repos) as ->.
  { set_unfold in Hrepos.
    destruct Hrepos as [?|[?|[?|[?|[Hin|[?|Hin]]]]]]; try done.
    - congruence.
    - by destruct (Hev1 _ Hin) as (? & ? & [=]).
    - by destruct (Hev2 _ Hin) as (? & ? & [=]). }
  assert (allPrivs = privs) as ->.
  { set_unfold in Hprivs.
    destruct Hprivs as [?|[?|[?|[?|[Hin|[?|Hin]]]]]]; try done.
    - by destruct (Hev1 _ Hin) as (? & ? & [=]).
    - congruence.
    - by destruct (Hev2 _ Hin) as (? & ? & [=]). }
  exists user,
    (User.setStatus "disabled"
       (User.setRoles (OperationConfig.BaseRoles cfg) user)),
    roleErr, repoEvents, privEvents.
  split_and!; try done.
  - simpl. rewrite deletedRepositories_app. simpl.
    by rewrite Hdr1, Hdr2, app_nil_r.
  - simpl. rewrite deletedPrivileges_app. simpl. by rewrite Hdp1, Hdp2.
  - intros name. simpl. rewrite deletedRepositories_app. simpl.
    rewrite Hdr1, Hdr2, app_nil_r. apply elem_of_matching.
  - intros name. simpl. rewrite deletedPrivileges_app. simpl.
    rewrite Hdp1, Hdp2. apply elem_of_matching.
Qed.

(** The offboarding run against the scripted client: the first
    repository deletion fails and the second is still made. *)
Example offboarding_run :
  trace Examples.scriptedClient
    (DeletionManager.Run Examples.offboardConfig) tt
  = [EvGetUser "user1" (Some Examples.user1, None);
     EvUpdateUser
       {| User.UserID := "user1"; User.FirstName := "User";
          User.LastName := "One"; User.EmailAddress := "user1@example.com";
          User.Source := "LDAP"; User.Status := "disabled";
          User.Roles := ["base-role"] |}
       None;
     EvDeleteRole "user1" (Some (HTTPError 404 "not found"));
     EvGetRepositories (Examples.scriptedRepositories, None);
     EvDeleteRepository "npm-release-app-9" (Some (HTTPError 500 "server error"));
     EvDeleteRepository "maven-release-app-9" None;
     EvGetPrivileges (Examples.scriptedPrivileges, None);
     EvDeletePrivilege "npm-release-app-9" None;
     EvDeletePrivilege "maven-release-app-9" None].
Proof. vm_compute. reflexivity. Qed.

Lemma offboarding_sweep_witness :
  OperationConfig.Shared Examples.offboardConfig = true
  ∧ OperationConfig.AppID Examples.offboardConfig ≠ ""
  ∧ EvGetRepositories (Examples.scriptedRepositories, None)
    ∈ trace Examples.scriptedClient
        (DeletionManager.Run Examples.offboardConfig) tt
  ∧ EvGetPrivileges (Examples.scriptedPrivileges, None)
    ∈ trace Examples.scriptedClient
        (DeletionManager.Run Examples.offboardConfig) tt
  ∧ deletedRepositories
      (trace Examples.scriptedClient
         (DeletionManager.Run Examples.offboardConfig) tt)
    = ["npm-release-app-9"; "maven-release-app-9"]
  ∧ deletedPrivileges
      (trace Examples.scriptedClient
         (DeletionManager.Run Examples.offboardConfig) tt)
    = ["npm-release-app-9"; "maven-release-app-9"]
  ∧ EvUpdateUser
      {| User.UserID := "user1"; User.FirstName := "User";
         User.LastName := "One"; User.EmailAddress := "user1@example.com";
         User.Source := "LDAP"; User.Status := "disabled";
         User.Roles := ["base-role"] |}
      None
    ∈ trace Examples.scriptedClient
        (DeletionManager.Run Examples.offboardConfig) tt
  ∧ ∃ user sent,
      EvGetUser "user1" (Some user, None)
      ∈ trace Examples.scriptedClient
          (DeletionManager.Run Examples.offboardConfig) tt
      ∧ EvUpdateUser sent None
        ∈ trace Examples.scriptedClient
            (DeletionManager.Run Examples.offboardConfig) tt
      ∧ User.Status user = "active"
      ∧ User.Roles user = ["user1"; "extra-role"; "base-role"]
      ∧ User.Status sent = "disabled"
      ∧ User.Roles sent = ["base-role"].
Proof.
  assert (EvGetRepositories (Examples.scriptedRepositories, None)
          ∈ trace Examples.scriptedClient
              (DeletionManager.Run Examples.offboardConfig) tt) as Hrepos.
  { rewrite offboarding_run. do 3 apply list_elem_of_further.
    apply list_elem_of_here. }
  assert (EvGetPrivileges (Examples.scriptedPrivileges, None)
          ∈ trace Examples.scriptedClient
              (DeletionManager.Run Examples.offboardConfig) tt) as Hprivs.
  { rewrite offboarding_run. do 6 apply list_elem_of_further.
    apply list_elem_of_here. }
  assert (OperationConfig.AppID Examples.offboardConfig ≠ "") as Happ by done.
  destruct (offboarding_sweep Examples.offboardConfig _ _ _ _ eq_refl Happ
              (run_exec Examples.scriptedClient
                 (DeletionManager.Run Examples.offboardConfig) tt)
              Hrepos Hprivs)
    as (user & sent & roleErr & repoEvents & privEvents & Htr & Hroles
        & Hstatus & _ & _ & _ & _ & _ & _ & _ & Hdr & Hdp & _).
  split_and!;
    [reflexivity|exact Happ|exact Hrepos|exact Hprivs|exact Hdr|exact Hdp| |].
  { apply list_elem_of_further, list_elem_of_here. }
  assert (user = Examples.user1) as ->.
  { rewrite offboarding_run in Htr. by injection Htr. }
  exists Examples.user1, sent. split_and!.
  - rewrite Htr. apply list_elem_of_here.
  - rewrite Htr. apply list_elem_of_further, list_elem_of_here.
  - reflexivity.
  - reflexivity.
  - exact Hstatus.
  - exact Hroles.
Defined.

End ServiceFacts.

(* ================================================================== *)
(** * Further properties of the role decision engine *)
(* ================================================================== *)

Module RoleEngineMoreFacts.
Import GoStrings GoStringsFacts RoleEngine RoleEngineFacts.

Lemma filter_ext_in (P Q : string → Prop)
    `{!∀ x, Decision (P x), !∀ x, Decision (Q x)} (l : list string) :
  (∀ x, x ∈ l → P x ↔ Q x) → filter P l = filter Q l.
Proof.
  induction l as [|x l IH]; intros Hext; [done|].
  rewrite !filter_cons, IH by (intros y Hy; apply Hext; by right).
  destruct (decide (P x)) as [HP|HP].
  - rewrite decide_True; [done|]. apply Hext; [by left|done].
  - rewrite decide_False; [done|]. intros HQ. apply HP, Hext; [by left|done].
Qed.

Lemma filter_all_in (P : string → Prop) `{!∀ x, Decision (P x)}
    (l : list string) :
  (∀ x, x ∈ l → P x) → filter P l = l.
Proof.
  intros Hall. rewrite (filter_ext_in P (λ _, True)) by naive_solver.
  by apply filter_all.
Qed.

Lemma filter_none_in (P : string → Prop) `{!∀ x, Decision (P x)}
    (l : list string) :
  (∀ x, x ∈ l → ¬ P x) → filter P l = [].
Proof.
  induction l as [|x l IH]; intros Hnone; [done|].
  rewrite filter_cons_False by (apply Hnone; by left).
  apply IH. intros y Hy. apply Hnone. by right.
Qed.

Lemma removedLoop_filter finalRoles extra :
  removedLoop finalRoles extra = filter (λ r, r ∉ finalRoles) extra.
Proof.
  induction extra as [|r extra IH]; simpl; [done|].
  rewrite filter_cons. destruct (Contains finalRoles r) eqn:Hc; simpl.
  - apply Contains_true in Hc. by rewrite decide_False by naive_solver.
  - apply Contains_false in Hc. by rewrite decide_True, IH.
Qed.

Lemma skipDuplicates_NoDup l : NoDup l → skipDuplicates l = l.
Proof.
  induction 1 as [|x l Hx _ IH]; simpl; [done|].
  rewrite IH. f_equal. apply filter_all_in. intros y Hy ->. done.
Qed.

(** X1. The extra roles reported as removed are, in configured order,
    the extra roles that are not base roles and that the user either did
    not hold after the removal or lost because no other role is left;
    none of them is in the decided list. *)
Theorem GetRemovedExtraRoles_spec (rde : RoleDecisionEngine) :
  GetRemovedExtraRoles rde
  = filter (λ r, (r ∉ baseRoles rde)
                 ∧ (r ∈ afterRemoval rde → HasOtherRoles rde = false))
           (extraRoles rde)
  ∧ ∀ r, r ∈ GetRemovedExtraRoles rde
         ↔ r ∈ extraRoles rde ∧ (r ∉ DecideFinalRoles rde).
Proof.
  unfold GetRemovedExtraRoles. rewrite removedLoop_filter. split.
  - apply filter_ext_in. intros r Hr. rewrite elem_of_DecideFinalRoles.
    destruct (HasOtherRoles rde); naive_solver.
  - intros r. rewrite list_elem_of_filter. naive_solver.
Qed.

(** The decision does not change what [HasOtherRoles] answers. *)
Lemma HasOtherRoles_decided rde :
  HasOtherRoles (SetAfterRemovalRoles rde (DecideFinalRoles rde))
  = HasOtherRoles rde.
Proof.
  apply eq_true_iff_eq. unfold HasOtherRoles. rewrite !hasOtherLoop_true. simpl.
  split; intros (r & Hr & Hb & Hs & He); exists r; split_and!; try done.
  - apply elem_of_DecideFinalRoles in Hr. naive_solver.
  - apply elem_of_DecideFinalRoles. naive_solver.
Qed.

(** X2. Deciding again on a decided list changes nothing: the decision
    is a fixed point of the engine. *)
Theorem DecideFinalRoles_idempotent (rde : RoleDecisionEngine) :
  DecideFinalRoles (SetAfterRemovalRoles rde (DecideFinalRoles rde))
  = DecideFinalRoles rde.
Proof.
  rewrite (DecideFinalRoles_eq (SetAfterRemovalRoles _ _)).
  unfold FinalRolesSpec. simpl.
  rewrite (filter_ext_in (kept (SetAfterRemovalRoles rde (DecideFinalRoles rde)))
             (kept rde)).
  2:{ intros r _. unfold kept. simpl. by rewrite HasOtherRoles_decided. }
  rewrite (DecideFinalRoles_eq rde) at 1 2. unfold FinalRolesSpec.
  rewrite filter_app. rewrite (filter_none_in _ (skipDuplicates (baseRoles rde))).
  2:{ intros r Hr [Hb _]. by apply Hb, elem_of_skipDuplicates. }
  simpl. f_equal. rewrite filter_all_in.
  - apply skipDuplicates_NoDup, NoDup_skipDuplicates.
  - intros r Hr. apply elem_of_skipDuplicates, list_elem_of_filter in Hr.
    by destruct Hr.
Qed.

End RoleEngineMoreFacts.

(* ================================================================== *)
(** * Further properties of the job store *)
(* ================================================================== *)

Module JobStoreFacts.
Import GoStrings GoErrors GoInt Config Service Server ServerFacts JobLifecycle.

(** X3. [CreateJob] followed by [GetJob] on the same identifier gives
    the new job back: pending, with every request not processed and no
    failure on record, whatever job the identifier had before; the jobs
    of all other identifiers are as they were. *)
Theorem CreateJob_GetJob (js : gmap string Job.t) (id action : string)
    (totalRequests now : Z) :
  let js' := (CreateJob js id action totalRequests now).1 in
  (∃ job, GetJob js' id = (Some job, true)
     ∧ job = (CreateJob js id action totalRequests now).2
     ∧ Job.ID job = id ∧ Job.Action job = action
     ∧ Job.Status job = JobStatusPending
     ∧ Job.TotalRequests job = totalRequests
     ∧ Job.SuccessfulOperations job = 0 ∧ Job.FailedOperations job = 0
     ∧ Job.NotProcessedOperations job = totalRequests
     ∧ Job.FailedRequests job = [])
  ∧ ∀ id', id' ≠ id → GetJob js' id' = GetJob js id'.
Proof.
  unfold CreateJob, GetJob. simpl. split.
  - rewrite lookup_insert_eq. eexists. split; [reflexivity|]. done.
  - intros id' Hne. by rewrite lookup_insert_ne.
Qed.

(** X4. [UpdateJob] fails exactly when the identifier has no job, and
    then leaves the store as it is; otherwise the job [GetJob] returns
    afterwards is the mutated job with its update time refreshed. No job
    is created, and no other job changes. *)
Theorem UpdateJob_GetJob (js : gmap string Job.t) (id : string)
    (updateFn : Job.t → Job.t) (now : Z) :
  let js' := (UpdateJob js id updateFn now).1 in
  let err := (UpdateJob js id updateFn now).2 in
  (err = None ↔ (GetJob js id).2 = true)
  ∧ (err ≠ None → js' = js)
  ∧ GetJob js' id
    = ((λ job, Job.setUpdatedAt now (updateFn job)) <$> (GetJob js id).1,
       (GetJob js id).2)
  ∧ (∀ job', (GetJob js' id).1 = Some job' → Job.UpdatedAt job' = now)
  ∧ ∀ id', id' ≠ id → GetJob js' id' = GetJob js id'.
Proof.
  unfold UpdateJob, GetJob. destruct (js !! id) as [job|] eqn:Hjob; simpl.
  - rewrite lookup_insert_eq. split_and!; try done.
    + by intros job' [= <-].
    + intros id' Hne. by rewrite lookup_insert_ne.
  - rewrite Hjob. split_and!; done.
Qed.

(** ** The shape of a job in each status *)

Lemma taskOpen_agree js js' t :
  js' !! taskJobID t = js !! taskJobID t → taskOpen js t → taskOpen js' t.
Proof. intros Heq (job & Hjob & H). exists job. by rewrite Heq. Qed.

Lemma Forall_open_others js js' (ts1 ts2 : list Task) (t : Task) :
  (∀ id, id ≠ taskJobID t → js' !! id = js !! id) →
  (∀ t', t' ∈ ts1 ++ ts2 → taskJobID t' ≠ taskJobID t) →
  Forall (taskOpen js) (ts1 ++ t :: ts2) →
  Forall (taskOpen js') (ts1 ++ ts2).
Proof.
  intros Hagree Hne. rewrite !Forall_forall. intros Hall t' Ht'.
  apply (taskOpen_agree js); [by apply Hagree, Hne|].
  apply Hall. rewrite elem_of_app in Ht'. rewrite elem_of_app, elem_of_cons.
  naive_solver.
Qed.

Lemma jobShape_open job :
  Job.Status job = JobStatusPending ∨ Job.Status job = JobStatusProcessing →
  jobShape job →
  Job.SuccessfulOperations job = 0 ∧ Job.FailedOperations job = 0
  ∧ Job.NotProcessedOperations job = Job.TotalRequests job
  ∧ Job.FailedRequests job = [].
Proof. intros Hst (H & _). by apply H. Qed.

Lemma SetProcessing_shape js jobID now job :
  js !! jobID = Some job →
  Job.Status job = JobStatusPending ∨ Job.Status job = JobStatusProcessing →
  jobShape job →
  ∃ job', JobProgressTracker.SetProcessing js jobID now !! jobID = Some job'
    ∧ Job.Status job' = JobStatusProcessing ∧ jobShape job'.
Proof.
  intros Hjob Hst Hshape. unfold JobProgressTracker.SetProcessing.
  rewrite (UpdateJob_lookup _ _ _ _ _ Hjob). eexists. split; [reflexivity|].
  split; [done|]. destruct (jobShape_open _ Hst Hshape) as (HS & HF & HN & HR).
  unfold jobShape. simpl. split_and!; try done. naive_solver.
Qed.

Lemma Finalize_shape js jobID job requests results now :
  js !! jobID = Some job →
  Z.of_nat (length results) ≤ MaxInt →
  ∃ job', finishBatch js jobID requests results now !! jobID = Some job'
    ∧ jobShape job'
    ∧ (Job.Status job' = JobStatusCompleted ∨ Job.Status job' = JobStatusFailed).
Proof.
  intros Hjob Hmax.
  destruct (finishBatch_lookup js jobID job requests results now Hjob Hmax)
    as (job' & Hjob' & _ & HS & HF & HN & HR & Hst).
  exists job'. split; [done|]. unfold jobShape. rewrite Hst, HS, HF, HN, HR.
  rewrite length_fmap.
  unfold JobStatusPending, JobStatusProcessing, JobStatusCompleted,
    JobStatusFailed.
  repeat case_decide; split_and!; try done; try lia; naive_solver lia.
Qed.

Lemma MarkFailed_shape js jobID totalRequests now job :
  js !! jobID = Some job →
  Job.Status job = JobStatusPending ∨ Job.Status job = JobStatusProcessing →
  jobShape job →
  ∃ job', JobProgressTracker.MarkFailed js jobID totalRequests now !! jobID
          = Some job'
    ∧ jobShape job' ∧ Job.Status job' = JobStatusFailed.
Proof.
  intros Hjob Hst Hshape. unfold JobProgressTracker.MarkFailed.
  rewrite (UpdateJob_lookup _ _ _ _ _ Hjob). eexists. split; [reflexivity|].
  split; [|done]. destruct (jobShape_open _ Hst Hshape) as (HS & HF & HN & HR).
  unfold jobShape. simpl.
  unfold JobStatusPending, JobStatusProcessing, JobStatusCompleted,
    JobStatusFailed.
  split_and!; try done; naive_solver.
Qed.

Lemma lifecycle_initial : lifecycleInvariant initial.
Proof.
  split_and!; simpl; [|constructor..].
  intros id job H. unfold NewJobStore in H. by rewrite lookup_empty in H.
Qed.

Lemma created_shape id action totalRequests now :
  jobShape (CreateJob ∅ id action totalRequests now).2.
Proof. unfold jobShape. simpl. split_and!; try done. by left. Qed.

Lemma lifecycle_step s s' :
  lifecycleInvariant s → step s s' → lifecycleInvariant s'.
Proof.
  intros (Hjobs & Htasks & Hids) Hstep.
  destruct Hstep as
    [js ts id action total now Hfree
    |js ts vr batch action jobID now Hfresh Hmax
    |js ts1 ts2 jobID requests now
    |js ts1 ts2 jobID requests results now Hperm
    |js ts1 ts2 jobID requests started total now];
    unfold lifecycleInvariant; simpl in *.
  - unfold CreateJob. cbn [fst]. split_and!; [| |done].
    + intros id' job. rewrite lookup_insert. case_decide.
      * intros [= <-]. apply (created_shape id action total now).
      * apply Hjobs.
    + rewrite Forall_forall in *. intros t Ht.
      apply (taskOpen_agree js); [|by apply Htasks].
      apply lookup_insert_ne. intros Heq. by apply (Hfree t).
  - unfold queueJob, CreateJob. cbn [fst].
    assert (∀ t, t ∈ ts → taskJobID t ≠ jobID) as Hne.
    { intros t Ht Heq. rewrite Forall_forall in Htasks.
      destruct (Htasks t Ht) as (job & Hjob & _). congruence. }
    split_and!.
    + intros id job. rewrite lookup_insert. case_decide.
      * intros [= <-]. apply (created_shape jobID action _ now).
      * apply Hjobs.
    + constructor.
      * eexists. simpl. rewrite lookup_insert_eq. split; [done|]. simpl.
        split; [by left|done].
      * rewrite Forall_forall in *. intros t Ht.
        apply (taskOpen_agree js); [|by apply Htasks].
        apply lookup_insert_ne. intros Heq. by apply (Hne t).
    + apply NoDup_cons. split; [|done]. simpl.
      intros (t & Heq & Ht)%list_elem_of_fmap. by apply (Hne t).
  - set (t := {| taskJobID := jobID; taskRequests := requests;
                 taskStarted := false |}) in *.
    assert (taskOpen js t) as (job & Hjob & Hst & Hmax).
    { rewrite Forall_forall in Htasks. apply Htasks, elem_of_app. right. by left. }
    unfold t in Hjob, Hmax. simpl in Hjob, Hmax.
    destruct (tasks_other_ids _ _ _ Hids) as [Hids' Hne].
    destruct (SetProcessing_shape js jobID now job Hjob Hst (Hjobs _ _ Hjob))
      as (job' & Hjob' & Hst' & Hshape').
    split_and!.
    + intros id job''. destruct (decide (id = jobID)) as [->|Hid].
      * rewrite Hjob'. by intros [= <-].
      * rewrite SetProcessing_lookup_ne by done. apply Hjobs.
    + apply Forall_app. rewrite Forall_cons.
      assert (Forall (taskOpen (JobProgressTracker.SetProcessing js jobID now))
                (ts1 ++ ts2)) as [H1 H2]%Forall_app.
      { apply (Forall_open_others js _ ts1 ts2 t); [|done..].
        intros id Hid. by apply SetProcessing_lookup_ne. }
      split_and!; [done| |done].
      exists job'. simpl. split_and!; [done|by right|done].
    + by rewrite fmap_app, fmap_cons in *.
  - set (t := {| taskJobID := jobID; taskRequests := requests;
                 taskStarted := true |}) in *.
    assert (taskOpen js t) as (job & Hjob & Hst & Hmax).
    { rewrite Forall_forall in Htasks. apply Htasks, elem_of_app. right. by left. }
    unfold t in Hjob, Hmax. simpl in Hjob, Hmax.
    assert (length results = length requests) as Hlen.
    { by rewrite <- Hperm, length_fmap. }
    destruct (tasks_other_ids _ _ _ Hids) as [Hids' Hne].
    split_and!; [| |done].
    + intros id job'. destruct (decide (id = jobID)) as [->|Hid].
      * destruct (Finalize_shape js jobID job requests results now Hjob)
          as (job'' & Hjob'' & Hshape & _); [lia|].
        rewrite Hjob''. by intros [= <-].
      * rewrite finishBatch_lookup_ne by done. apply Hjobs.
    + apply (Forall_open_others js _ ts1 ts2 t); [|done..].
      intros id Hid. by apply finishBatch_lookup_ne.
  - set (t := {| taskJobID := jobID; taskRequests := requests;
                 taskStarted := started |}) in *.
    assert (taskOpen js t) as (job & Hjob & Hst & Hmax).
    { rewrite Forall_forall in Htasks. apply Htasks, elem_of_app. right. by left. }
    unfold t in Hjob, Hmax. simpl in Hjob, Hmax.
    destruct (tasks_other_ids _ _ _ Hids) as [Hids' Hne].
    destruct (MarkFailed_shape js jobID total now job Hjob Hst (Hjobs _ _ Hjob))
      as (job' & Hjob' & Hshape' & _).
    split_and!; [| |done].
    + intros id job''. destruct (decide (id = jobID)) as [->|Hid].
      * rewrite Hjob'. by intros [= <-].
      * rewrite MarkFailed_lookup_ne by done. apply Hjobs.
    + apply (Forall_open_others js _ ts1 ts2 t); [|done..].
      intros id Hid. by apply MarkFailed_lookup_ne.
Qed.

Lemma lifecycle_reachable s : reachable s → lifecycleInvariant s.
Proof.
  induction 1 as [|s s' _ IH Hstep]; [apply lifecycle_initial|].
  by apply (lifecycle_step s).
Qed.

(** X5. In every reachable state of the store, a job is in one of the
    four statuses; while pending or processing it records no outcome
    yet; once completed nothing is left unprocessed, it holds one
    failed-request record per failed operation, and it has a success
    unless nothing failed; once failed it records no success and nothing
    is left unprocessed. *)
Theorem job_status_shape (s : System) (id : string) (job : Job.t) :
  reachable s →
  GetJob (jobs s) id = (Some job, true) →
  (Job.Status job = JobStatusPending ∨ Job.Status job = JobStatusProcessing
   ∨ Job.Status job = JobStatusCompleted ∨ Job.Status job = JobStatusFailed)
  ∧ (Job.Status job = JobStatusPending ∨ Job.Status job = JobStatusProcessing →
     Job.SuccessfulOperations job = 0 ∧ Job.FailedOperations job = 0
     ∧ Job.NotProcessedOperations job = Job.TotalRequests job
     ∧ Job.FailedRequests job = [])
  ∧ (Job.Status job = JobStatusCompleted →
     Job.NotProcessedOperations job = 0
     ∧ Job.FailedOperations job = Z.of_nat (length (Job.FailedRequests job))
     ∧ (Job.FailedOperations job = 0 ∨ 0 < Job.SuccessfulOperations job))
  ∧ (Job.Status job = JobStatusFailed →
     Job.NotProcessedOperations job = 0 ∧ Job.SuccessfulOperations job = 0).
Proof.
  intros Hreach Hget. apply GetJob_Some in Hget.
  destruct (lifecycle_reachable s Hreach) as (Hjobs & _).
  destruct (Hjobs id job Hget) as (H1 & H2 & H3 & H4). done.
Qed.

Lemma job_status_shape_witness :
  reachable Examples.finalized
  ∧ GetJob (jobs Examples.finalized) "job-1" = (Some Examples.finalizedJob, true)
  ∧ (Job.Status Examples.finalizedJob = JobStatusCompleted →
     Job.NotProcessedOperations Examples.finalizedJob = 0
     ∧ Job.FailedOperations Examples.finalizedJob
       = Z.of_nat (length (Job.FailedRequests Examples.finalizedJob))
     ∧ (Job.FailedOperations Examples.finalizedJob = 0
        ∨ 0 < Job.SuccessfulOperations Examples.finalizedJob)).
Proof.
  assert (GetJob (jobs Examples.finalized) "job-1"
          = (Some Examples.finalizedJob, true)) as Hget
    by (vm_compute; reflexivity).
  split_and!; [exact reachable_finalized|exact Hget|].
  exact (proj1 (proj2 (proj2 (job_status_shape Examples.finalized "job-1"
                                Examples.finalizedJob reachable_finalized Hget)))).
Defined.

End JobStoreFacts.

(* ================================================================== *)
(** * Further properties of the batch handler *)
(* ================================================================== *)

Module HandlersFacts.
Import GoStrings GoErrors GoInt Config Service Server ServerFacts Handlers.

Lemma validateStep_cases action acc req :
  (passes action req
   ∧ validateStep action acc req
     = {| ValidationResult.ValidRequests :=
            ValidationResult.ValidRequests acc ++ [req];
          ValidationResult.InvalidRequests :=
            ValidationResult.InvalidRequests acc |})
  ∨ (¬ passes action req
     ∧ ∃ reason,
         validateStep action acc req
         = {| ValidationResult.ValidRequests := ValidationResult.ValidRequests acc;
              ValidationResult.InvalidRequests :=
                ValidationResult.InvalidRequests acc
                  ++ [ {| ValidationError.Request := req;
                          ValidationError.Reasons := [reason] |} ] |}).
Proof.
  unfold validateStep, passes.
  destruct (checkPackageManager action req) as [r1|];
    [right; split; [naive_solver|by exists r1]|].
  destruct (checkAppIDShared action req) as [r2|];
    [right; split; [naive_solver|by exists r2]|].
  destruct (checkNonShared req) as [r3|];
    [right; split; [naive_solver|by exists r3]|].
  by left.
Qed.

Lemma validate_fold_any action batch acc :
  let vr := fold_left (validateStep action) batch acc in
  ValidationResult.ValidRequests vr
  = ValidationResult.ValidRequests acc ++ filter (passes action) batch
  ∧ ValidationError.Request <$> ValidationResult.InvalidRequests vr
    = (ValidationError.Request <$> ValidationResult.InvalidRequests acc)
        ++ filter (λ req, ¬ passes action req) batch
  ∧ (Forall (λ ve, length (ValidationError.Reasons ve) = 1%nat)
       (ValidationResult.InvalidRequests acc) →
     Forall (λ ve, length (ValidationError.Reasons ve) = 1%nat)
       (ValidationResult.InvalidRequests vr)).
Proof.
  revert acc. induction batch as [|req batch IH]; intros acc; simpl.
  - by rewrite !app_nil_r.
  - destruct (IH (validateStep action acc req)) as (IHv & IHi & IHr).
    destruct (validateStep_cases action acc req)
      as [[Hyes Hstep]|[Hno [reason Hstep]]]; rewrite Hstep in *; simpl in *.
    + rewrite filter_cons_True by done.
      rewrite filter_cons_False by naive_solver.
      split_and!; [by rewrite IHv, <- app_assoc|done|done].
    + rewrite filter_cons_False by done.
      rewrite filter_cons_True by done.
      split_and!; [done|by rewrite IHi, fmap_app, <- app_assoc|].
      intros Hall. apply IHr, Forall_app. split; [done|].
      by repeat constructor.
Qed.

Lemma validate_partition (batch : list RepositoryRequest.t)
    (action : string) :
  let vr := validateBatchRequest batch action in
  ValidationResult.ValidRequests vr
    ++ (ValidationError.Request <$> ValidationResult.InvalidRequests vr)
  ≡ₚ batch
  ∧ sublist (ValidationResult.ValidRequests vr) batch
  ∧ sublist (ValidationError.Request <$> ValidationResult.InvalidRequests vr)
      batch
  ∧ (length (ValidationResult.ValidRequests vr)
     + length (ValidationResult.InvalidRequests vr))%nat = length batch
  ∧ Forall (λ ve, length (ValidationError.Reasons ve) = 1%nat)
      (ValidationResult.InvalidRequests vr).
Proof.
  intros vr.
  destruct (validate_fold_any action batch
              {| ValidationResult.ValidRequests := [];
                 ValidationResult.InvalidRequests := [] |}) as (Hv & Hi & Hr).
  fold (validateBatchRequest batch action) in Hv, Hi, Hr. fold vr in Hv, Hi, Hr.
  simpl in Hv, Hi, Hr.
  assert (ValidationResult.ValidRequests vr
            ++ (ValidationError.Request <$> ValidationResult.InvalidRequests vr)
          ≡ₚ batch) as Hperm.
  { rewrite Hv, Hi. apply filter_app_complement. }
  split_and!.
  - done.
  - rewrite Hv. apply sublist_filter.
  - rewrite Hi. apply sublist_filter.
  - rewrite <- (length_fmap ValidationError.Request), <- length_app.
    by rewrite Hperm.
  - by apply Hr.
Qed.

(** X6. Whatever the action string, validation neither loses nor
    duplicates a request: the valid requests followed by the requests of
    the invalid entries are a rearrangement of the batch, each list keeps
    the batch order, and every invalid entry carries exactly one
    reason. *)
Theorem validateBatchRequest_partition (batch : list RepositoryRequest.t)
    (action : string) :
  let vr := validateBatchRequest batch action in
  ValidationResult.ValidRequests vr
    ++ (ValidationError.Request <$> ValidationResult.InvalidRequests vr)
  ≡ₚ batch
  ∧ sublist (ValidationResult.ValidRequests vr) batch
  ∧ sublist (ValidationError.Request <$> ValidationResult.InvalidRequests vr)
      batch
  ∧ (length (ValidationResult.ValidRequests vr)
     + length (ValidationResult.InvalidRequests vr))%nat = length batch
  ∧ Forall (λ ve, length (ValidationError.Reasons ve) = 1%nat)
      (ValidationResult.InvalidRequests vr).
Proof. apply validate_partition. Qed.

Lemma validateBatchRequest_valid batch action :
  ValidationResult.ValidRequests (validateBatchRequest batch action)
  = filter (passes action) batch
  ∧ length (ValidationResult.InvalidRequests (validateBatchRequest batch action))
    = length (filter (λ req, ¬ passes action req) batch).
Proof.
  destruct (validate_fold_any action batch
              {| ValidationResult.ValidRequests := [];
                 ValidationResult.InvalidRequests := [] |}) as (Hv & Hi & _).
  split; [done|]. simpl in Hi.
  by rewrite <- Hi, length_fmap.
Qed.

(** X7. The batch handler accepts a batch (202) exactly when the body
    was bound without error and at least one request passes the checks.
    It then creates the pending job under the new identifier for the
    passing requests only, leaves every other job alone, and reports the
    three counts, which add up; in every other case it answers 422 and
    the store is unchanged. *)
Theorem processBatch_outcome (js : gmap string Job.t)
    (batch : list RepositoryRequest.t) (err : option error)
    (action jobID : string) (now : Z) :
  let out := processBatch js (batch, err) action jobID now in
  let accepted := err = None ∧ ∃ req, req ∈ batch ∧ passes action req in
  (accepted →
   out.2.1 = StatusAccepted
   ∧ (∃ job, GetJob out.1 jobID = (Some job, true)
        ∧ Job.Status job = JobStatusPending
        ∧ Job.Action job = action
        ∧ Job.TotalRequests job
          = Z.of_nat (length (filter (passes action) batch)))
   ∧ (∀ id, id ≠ jobID → GetJob out.1 id = GetJob js id)
   ∧ ∃ r, out.2.2 = AcceptedBody r
       ∧ AcceptedResponse.JobID r = jobID
       ∧ ValidationSummary.TotalRequests (AcceptedResponse.Validation r)
         = Z.of_nat (length batch)
       ∧ ValidationSummary.ValidRequests (AcceptedResponse.Validation r)
         = Z.of_nat (length (filter (passes action) batch))
       ∧ ValidationSummary.TotalRequests (AcceptedResponse.Validation r)
         = ValidationSummary.ValidRequests (AcceptedResponse.Validation r)
           + ValidationSummary.InvalidRequests (AcceptedResponse.Validation r)
       ∧ Z.of_nat (length (ValidationSummary.FailedValidations
                             (AcceptedResponse.Validation r)))
         = ValidationSummary.InvalidRequests (AcceptedResponse.Validation r))
  ∧ (¬ accepted → out.2.1 = StatusUnprocessableEntity ∧ out.1 = js).
Proof.
  intros out accepted. unfold out, accepted, processBatch.
  destruct (validateBatchRequest_valid batch action) as [Hv Hi].
  destruct (validate_partition batch action) as (_ & _ & _ & Hlen & _).
  destruct err as [e|].
  { split; [by intros [? _]|done]. }
  destruct batch as [|req0 batch']; simpl length at 1.
  { simpl. split; [|done]. intros [_ (req & Hreq & _)]. inversion Hreq. }
  set (batch := req0 :: batch') in *. cbn [Nat.eqb].
  destruct (ValidationResult.ValidRequests (validateBatchRequest batch action))
    as [|v vs] eqn:Hvalid; simpl length at 1; cbn [Nat.eqb].
  - split; [|done]. intros [_ (req & Hreq & Hpass)].
    assert (req ∈ filter (passes action) batch) as Hin
      by (by apply list_elem_of_filter).
    rewrite <- Hv in Hin. inversion Hin.
  - split; [|intros Hno; exfalso; apply Hno; split; [done|]].
    + intros _. unfold queueJob, CreateJob, GetJob. simpl.
      rewrite lookup_insert_eq. split_and!.
      * done.
      * eexists. split; [reflexivity|]. simpl. split_and!; try done.
        by rewrite <- Hv, Hvalid.
      * intros id Hne. by rewrite lookup_insert_ne.
      * eexists. split; [reflexivity|]. simpl. rewrite <- Hv, Hvalid.
        unfold ConvertValidationErrorsToResponse. rewrite length_fmap.
        split_and!; try done. unfold batch in *.
        cbn [length] in *. lia.
    + assert (v ∈ filter (passes action) batch) as Hin
        by (rewrite <- Hv; left).
      apply list_elem_of_filter in Hin as [Hp Hin]. by exists v.
Qed.

End HandlersFacts.

(* ================================================================== *)
(** * Further properties of the deletion workflow *)
(* ================================================================== *)

Module DeletionFacts.
Import GoStrings GoStringsFacts GoErrors Config Client RoleEngine RoleEngineFacts.
Import Service ServiceFacts Traces.

(** X8. [ForceDeleteRole] makes one [DeleteRole] call and succeeds
    exactly when that call succeeded or failed with an error whose chain
    holds an HTTP 404. *)
Theorem ForceDeleteRole_outcome (cfg : OperationConfig.t) (roleName : string)
    (tr : list Event) (res : option error) :
  exec (NexusCleaner.ForceDeleteRole cfg roleName) tr res →
  ∃ r, tr = [EvDeleteRole roleName r]
    ∧ (res = None
       ↔ r = None ∨ ∃ e, r = Some e ∧ AsHTTPError e = Some StatusNotFound).
Proof.
  intros H. unfold NexusCleaner.ForceDeleteRole in H.
  exec_call H r tr1. exists r. destruct r as [e|].
  - destruct (AsHTTPError e) as [code|] eqn:Hcode.
    + destruct (Z.eqb_spec code StatusNotFound) as [->|Hne]; exec_ret H.
      * split; [done|]. split; [|done]. intros _. right. by exists e.
      * split; [done|]. split; [done|]. intros [?|(e' & [= <-] & He')]; [done|].
        congruence.
    + exec_ret H. split; [done|]. split; [done|].
      intros [?|(e' & [= <-] & He')]; [done|congruence].
  - exec_ret H. split; [done|]. split; [|done]. intros _. by left.
Qed.

Lemma ForceDeleteRole_outcome_witness :
  exec (NexusCleaner.ForceDeleteRole Examples.offboardConfig "user1")
    [EvDeleteRole "user1" (Some (HTTPError 404 "not found"))] None
  ∧ ∃ r, [EvDeleteRole "user1" (Some (HTTPError 404 "not found"))]
         = [EvDeleteRole "user1" r]
      ∧ (@None error = None
         ↔ r = None ∨ ∃ e, r = Some e ∧ AsHTTPError e = Some StatusNotFound).
Proof.
  pose proof (run_exec Examples.scriptedClient
                (NexusCleaner.ForceDeleteRole Examples.offboardConfig "user1")
                tt) as H.
  split; [exact H|].
  exact (ForceDeleteRole_outcome Examples.offboardConfig "user1" _ _ H).
Defined.

(** ** What the steps call *)

Lemma CleanupUserRoles_events cfg tr res :
  exec (NexusCleaner.CleanupUserRoles cfg) tr res →
  ∀ ev, ev ∈ tr →
    (∃ n r, ev = EvGetUser n r) ∨ (∃ n r, ev = EvGetRole n r)
    ∨ (∃ u r, ev = EvUpdateUser u r).
Proof.
  intros H ev Hev. apply exec_CleanupUserRoles in H.
  destruct H as [(user & e & -> & _)|[(-> & _)|[(user & role & e & _ & -> & _)
                 |(user & lookups & remaining & uerr & -> & _ & Hl)]]];
    try (set_unfold; naive_solver).
  assert (∀ ev, ev ∈ lookups → ∃ n r, ev = EvGetRole n r) as Hlook.
  { intros ev' Hev'.
    destruct Hl as [(_ & -> & _)|[(_ & -> & _)|[(role & _ & _ & -> & _)
                    |(role & _ & _ & -> & _)]]]; set_unfold; naive_solver. }
  apply elem_of_cons in Hev as [->|Hev]; [left; by eexists _, _|].
  apply elem_of_app in Hev as [Hev|Hev].
  - right. left. by apply Hlook.
  - right. right. set_unfold. naive_solver.
Qed.

Lemma removeFirst_subseteq roleName roles r :
  r ∈ NexusCleaner.removeFirst roleName roles → r ∈ roles.
Proof.
  induction roles as [|x roles IH]; simpl; [done|].
  destruct (String.eqb_spec x roleName); set_solver.
Qed.

Lemma removeFirst_other roleName roles r :
  r ∈ roles → r ≠ roleName → r ∈ NexusCleaner.removeFirst roleName roles.
Proof.
  intros Hr Hne. induction roles as [|x roles IH]; simpl; [done|].
  destruct (String.eqb_spec x roleName) as [->|]; set_solver.
Qed.

Lemma removeFirst_NoDup roleName roles :
  NoDup roles → roleName ∉ NexusCleaner.removeFirst roleName roles.
Proof.
  induction 1 as [|x roles Hx _ IH]; simpl; [apply not_elem_of_nil|].
  destruct (String.eqb_spec x roleName) as [->|]; [done|]. set_solver.
Qed.

(** X9. In a shared-role deletion (the role is "repositories.share" and
    the descriptor does not select offboarding) the workflow is the user
    role cleanup alone: no repository, privilege or role is deleted, the
    only change sent to the server is the user's update, and the run
    succeeds exactly when the cleanup does. *)
Theorem shared_role_delete_only_updates_user (cfg : OperationConfig.t)
    (tr : list Event) (res : option Result * option error) :
  OperationConfig.Shared cfg = false ∨ OperationConfig.AppID cfg = "" →
  OperationConfig.RoleName cfg = "repositories.share" →
  exec (DeletionManager.Run cfg) tr res →
  exec (NexusCleaner.CleanupUserRoles cfg) tr res.2
  ∧ (∀ ev, ev ∈ tr → isDeletion ev = false)
  ∧ (∀ ev, ev ∈ tr → isMutation ev = true → ∃ u r, ev = EvUpdateUser u r)
  ∧ res.1 = match res.2 with
            | None => Some (DeletionManager.standardResult cfg)
            | Some _ => None
            end.
Proof.
  intros Hmode Hrole H. unfold DeletionManager.Run in H.
  assert (OperationConfig.Shared cfg
          && negb (String.eqb (OperationConfig.AppID cfg) "") = false) as Hoff.
  { destruct Hmode as [->| ->]; [done|]. by rewrite andb_false_r. }
  rewrite Hoff, Hrole in H. cbn [String.eqb] in H.
  change (String.eqb "repositories.share" "repositories.share") with true in H.
  cbn iota in H.
  apply exec_bind in H as (tr1 & tr2 & err & -> & Hclean & H).
  assert (tr2 = [] ∧ res.2 = err
          ∧ res.1 = match err with
                    | None => Some (DeletionManager.standardResult cfg)
                    | Some _ => None
                    end) as (-> & Herr & Hres).
  { destruct err; exec_ret H; done. }
  rewrite app_nil_r, Herr. split_and!; [done| | |done].
  - intros ev Hev.
    destruct (CleanupUserRoles_events _ _ _ Hclean ev Hev)
      as [(? & ? & ->)|[(? & ? & ->)|(? & ? & ->)]]; done.
  - intros ev Hev Hmut.
    destruct (CleanupUserRoles_events _ _ _ Hclean ev Hev)
      as [(? & ? & ->)|[(? & ? & ->)|(? & ? & ->)]]; try done.
    by eexists _, _.
Qed.

Lemma shared_role_delete_only_updates_user_witness :
  OperationConfig.RoleName MoreExamples.sharedConfig = "repositories.share"
  ∧ ∀ ev, ev ∈ trace Examples.scriptedClient
                 (DeletionManager.Run MoreExamples.sharedConfig) tt →
          isDeletion ev = false.
Proof.
  split; [reflexivity|].
  exact (proj1 (proj2 (shared_role_delete_only_updates_user
                         MoreExamples.sharedConfig _ _
                         (or_introl eq_refl) eq_refl
                         (run_exec Examples.scriptedClient
                            (DeletionManager.Run MoreExamples.sharedConfig) tt)))).
Defined.

Lemma exec_Run_standard (cfg : OperationConfig.t)
    (tr : list Event) (res : option Result * option error) :
  OperationConfig.Shared cfg = false ∨ OperationConfig.AppID cfg = "" →
  OperationConfig.RoleName cfg ≠ "repositories.share" →
  exec (DeletionManager.Run cfg) tr res →
  ∃ r1 tr1,
    tr = EvDeleteRepository (OperationConfig.RepositoryName cfg) r1 :: tr1
    ∧ match r1 with
      | Some e1 =>
          tr1 = []
          ∧ res = (None,
                   Some (wrapError ("delete repository '"
                                      +:+ OperationConfig.RepositoryName cfg
                                      +:+ "'") e1))
      | None =>
          ∃ r2 tr2,
            tr1 = EvDeletePrivilege (OperationConfig.PrivilegeName cfg) r2 :: tr2
            ∧ match r2 with
              | Some e2 =>
                  tr2 = []
                  ∧ res = (None,
                           Some (wrapError ("delete privilege '"
                                              +:+ OperationConfig.PrivilegeName cfg
                                              +:+ "'") e2))
              | None =>
                  ∃ tr3 tr4 r3,
                    tr2 = tr3 ++ tr4
                    ∧ exec (NexusCleaner.CleanupRole cfg) tr3 r3
                    ∧ match r3 with
                      | Some e3 => tr4 = [] ∧ res = (None, Some e3)
                      | None =>
                          ∃ r4,
                            exec (NexusCleaner.CleanupUserRoles cfg) tr4 r4
                            ∧ res = (match r4 with
                                     | None =>
                                         Some (DeletionManager.standardResult cfg)
                                     | Some _ => None
                                     end, r4)
                      end
              end
      end.
Proof.
  intros Hmode Hrole H. unfold DeletionManager.Run in H.
  assert (OperationConfig.Shared cfg
          && negb (String.eqb (OperationConfig.AppID cfg) "") = false) as Hoff.
  { destruct Hmode as [->| ->]; [done|]. by rewrite andb_false_r. }
  rewrite Hoff in H.
  destruct (String.eqb_spec (OperationConfig.RoleName cfg) "repositories.share")
    as [|_]; [done|].
  unfold NexusCleaner.DeleteRepository, NexusCleaner.DeleteRepositoryByName in H.
  exec_call H r1 tr1. exists r1, tr1. split; [done|].
  destruct r1 as [e1|]; [by exec_ret H|].
  unfold NexusCleaner.DeletePrivilege, NexusCleaner.DeletePrivilegeByName in H.
  exec_call H r2 tr2. exists r2, tr2. split; [done|].
  destruct r2 as [e2|]; [by exec_ret H|].
  change (exec (err ← NexusCleaner.CleanupRole cfg;
                match err with
                | Some e => mret (None, Some e)
                | None =>
                    err ← NexusCleaner.CleanupUserRoles cfg;
                    match err with
                    | Some e => mret (None, Some e)
                    | None => mret (Some (DeletionManager.standardResult cfg), None)
                    end
                end) tr2 res) in H.
  apply exec_bind in H as (tr3 & tr4 & r3 & -> & H3 & H).
  exists tr3, tr4, r3. split_and!; [done|done|].
  destruct r3 as [e3|]; [by exec_ret H|].
  apply exec_bind in H as (tr5 & tr6 & r4 & -> & H4 & H).
  exists r4. destruct r4 as [e4|]; exec_ret H; by rewrite app_nil_r.
Qed.


(** X10. Standard deletion makes its four steps in order (delete the
    repository, delete the privilege, clean up the role, clean up the
    user's roles) and stops at the first step that fails, with that
    step's error and no further call; it succeeds with the standard
    result exactly when all four succeed. *)
Theorem standard_delete_steps (cfg : OperationConfig.t)
    (tr : list Event) (res : option Result * option error) :
  OperationConfig.Shared cfg = false ∨ OperationConfig.AppID cfg = "" →
  OperationConfig.RoleName cfg ≠ "repositories.share" →
  exec (DeletionManager.Run cfg) tr res →
  ∃ r1 tr1,
    tr = EvDeleteRepository (OperationConfig.RepositoryName cfg) r1 :: tr1
    ∧ match r1 with
      | Some e1 =>
          tr1 = []
          ∧ res = (None,
                   Some (wrapError ("delete repository '"
                                      +:+ OperationConfig.RepositoryName cfg
                                      +:+ "'") e1))
      | None =>
          ∃ r2 tr2,
            tr1 = EvDeletePrivilege (OperationConfig.PrivilegeName cfg) r2 :: tr2
            ∧ match r2 with
              | Some e2 =>
                  tr2 = []
                  ∧ res = (None,
                           Some (wrapError ("delete privilege '"
                                              +:+ OperationConfig.PrivilegeName cfg
                                              +:+ "'") e2))
              | None =>
                  ∃ tr3 tr4 r3,
                    tr2 = tr3 ++ tr4
                    ∧ exec (NexusCleaner.CleanupRole cfg) tr3 r3
                    ∧ match r3 with
                      | Some e3 => tr4 = [] ∧ res = (None, Some e3)
                      | None =>
                          ∃ r4,
                            exec (NexusCleaner.CleanupUserRoles cfg) tr4 r4
                            ∧ res = (match r4 with
                                     | None =>
                                         Some (DeletionManager.standardResult cfg)
                                     | Some _ => None
                                     end, r4)
                      end
              end
      end.
Proof. apply exec_Run_standard. Qed.

Lemma standard_delete_steps_witness :
  ∃ r1 tr1,
    trace Examples.scriptedClient
      (DeletionManager.Run Examples.standardConfig) tt
    = EvDeleteRepository "npm-release-app1" r1 :: tr1.
Proof.
  assert (OperationConfig.RoleName Examples.standardConfig
          ≠ "repositories.share") as Hrole by done.
  destruct (standard_delete_steps Examples.standardConfig _ _
              (or_introl eq_refl) Hrole
              (run_exec Examples.scriptedClient
                 (DeletionManager.Run Examples.standardConfig) tt))
    as (r1 & tr1 & Htr & _).
  by exists r1, tr1.
Defined.

(** X11. Offboarding touches nothing before the user is disabled: a
    run that lists or deletes anything starts with the user fetched and
    sent back with status "disabled", the base roles as its roles and
    its other fields as fetched, followed by the deletion of the user's
    role. A
    listing that fails ends the run with nothing swept from it, and the
    run succeeds exactly when the privilege listing was returned: no
    failed deletion stops or fails it. *)
Theorem offboarding_order (cfg : OperationConfig.t) (tr : list Event)
    (res : option Result * option error) :
  OperationConfig.Shared cfg = true →
  OperationConfig.AppID cfg ≠ "" →
  exec (DeletionManager.Run cfg) tr res →
  let username := OperationConfig.LdapUsername cfg in
  ((∃ ev, ev ∈ tr
          ∧ (isDeletion ev = true ∨ (∃ r, ev = EvGetRepositories r)
             ∨ ∃ r, ev = EvGetPrivileges r)) →
   ∃ user sent roleErr rest,
     tr = EvGetUser username (Some user, None)
          :: EvUpdateUser sent None
          :: EvDeleteRole username roleErr :: rest
     ∧ User.Status sent = "disabled"
     ∧ User.Roles sent = OperationConfig.BaseRoles cfg
     ∧ User.UserID sent = User.UserID user
     ∧ User.FirstName sent = User.FirstName user
     ∧ User.LastName sent = User.LastName user
     ∧ User.EmailAddress sent = User.EmailAddress user
     ∧ User.Source sent = User.Source user)
  ∧ (∀ repos e, EvGetRepositories (repos, Some e) ∈ tr →
       deletedRepositories tr = [] ∧ deletedPrivileges tr = []
       ∧ ∀ r, EvGetPrivileges r ∉ tr)
  ∧ (∀ privs e, EvGetPrivileges (privs, Some e) ∈ tr → deletedPrivileges tr = [])
  ∧ (res.2 = None ↔ ∃ privs, EvGetPrivileges (privs, None) ∈ tr)
  ∧ (res.1 = None ↔ res.2 ≠ None).
Proof.
  intros Hshared Happ H username.
  unfold DeletionManager.Run in H. rewrite Hshared in H.
  destruct (String.eqb_spec (OperationConfig.AppID cfg) "") as [|_]; [done|].
  cbn [andb negb] in H.
  apply exec_bind in H as (tr1 & tr2 & err & -> & Hdisable & H).
  apply exec_DisableUserAndResetRoles in Hdisable
    as [(-> & user & ->)|(Herr & Hevents)].
  2:{ (* the user step failed *)
    destruct err as [e|]; [|done]. exec_ret H. rewrite app_nil_r.
    assert (∀ ev, ev ∈ tr1 → isDeletion ev = false
                             ∧ (∀ r, ev ≠ EvGetRepositories r)
                             ∧ (∀ r, ev ≠ EvGetPrivileges r)) as Hnone.
    { intros ev Hev.
      destruct (Hevents ev Hev) as [(? & ? & ->)|(? & ? & ->)]; done. }
    split_and!.
    - intros (ev & Hev & Hkind). destruct (Hnone ev Hev) as (Hd & Hr & Hp).
      destruct Hkind as [?|[[r ->]|[r ->]]]; [congruence|by destruct (Hr r)
                                             |by destruct (Hp r)].
    - intros repos e' Hin. destruct (Hnone _ Hin) as (_ & Hr & _).
      by destruct (Hr (repos, Some e')).
    - intros privs e' Hin. destruct (Hnone _ Hin) as (_ & _ & Hp).
      by destruct (Hp (privs, Some e')).
    - simpl. split; [done|]. intros (privs & Hin).
      destruct (Hnone _ Hin) as (_ & _ & Hp). by destruct (Hp (privs, None)).
    - done. }
  apply exec_bind in H as (tr3 & tr4 & roleRes & -> & Hrole & H).
  apply exec_ForceDeleteRole in Hrole as [roleErr ->].
  exec_call H x tr5. destruct x as [allRepos [e|]].
  { (* the repository listing failed *)
    exec_ret H. split_and!.
    - intros _.
      by exists user, (User.setStatus "disabled"
                          (User.setRoles (OperationConfig.BaseRoles cfg) user)),
        roleErr, [EvGetRepositories (allRepos, Some e)].
    - intros repos e' _. split_and!; [done|done|].
      intros r Hin. set_unfold in Hin. naive_solver.
    - intros privs e' Hin. set_unfold in Hin. naive_solver.
    - simpl. split; [done|]. intros (privs & Hin). set_unfold in Hin.
      naive_solver.
    - done. }
  apply exec_bind in H as (repoEvents & tr6 & u1 & -> & Hsweep1 & H).
  apply exec_sweepRepositories in Hsweep1.
  destruct (repository_deletions _ _ Hsweep1) as (Hdr1 & Hdp1 & Hev1).
  exec_call H y tr7. destruct y as [allPrivs [e|]].
  { (* the privilege listing failed *)
    exec_ret H. split_and!.
    - intros _.
      by eexists user, (User.setStatus "disabled"
                          (User.setRoles (OperationConfig.BaseRoles cfg) user)),
        roleErr, _.
    - intros repos e' Hin. exfalso. set_unfold in Hin.
      destruct Hin as [?|[?|[?|[?|[Hin|[?|?]]]]]]; try done.
      by destruct (Hev1 _ Hin) as (? & ? & [=]).
    - intros privs e' _. simpl. rewrite deletedPrivileges_app. simpl.
      by rewrite Hdp1.
    - simpl. split; [done|]. intros (privs & Hin). set_unfold in Hin.
      destruct Hin as [?|[?|[?|[?|[Hin|[?|?]]]]]]; try done.
      by destruct (Hev1 _ Hin) as (? & ? & [=]).
    - done. }
  apply exec_bind in H as (privEvents & tr8 & u2 & -> & Hsweep2 & H).
  apply exec_sweepPrivileges in Hsweep2.
  destruct (privilege_deletions _ _ Hsweep2) as (Hdp2 & Hdr2 & Hev2).
  exec_ret H. rewrite app_nil_r. split_and!.
  - intros _.
    by eexists user, (User.setStatus "disabled"
                        (User.setRoles (OperationConfig.BaseRoles cfg) user)),
      roleErr, _.
  - intros repos e' Hin. exfalso. set_unfold in Hin.
    destruct Hin as [?|[?|[?|[?|[Hin|[?|Hin]]]]]]; try done.
    + by destruct (Hev1 _ Hin) as (? & ? & [=]).
    + by destruct (Hev2 _ Hin) as (? & ? & [=]).
  - intros privs e' Hin. exfalso. set_unfold in Hin.
    destruct Hin as [?|[?|[?|[?|[Hin|[?|Hin]]]]]]; try done.
    + by destruct (Hev1 _ Hin) as (? & ? & [=]).
    + by destruct (Hev2 _ Hin) as (? & ? & [=]).
  - simpl. split; [|done]. intros _. exists allPrivs. set_unfold. naive_solver.
  - done.
Qed.

Lemma offboarding_order_witness :
  OperationConfig.Shared Examples.offboardConfig = true
  ∧ OperationConfig.AppID Examples.offboardConfig ≠ ""
  ∧ ((outcome Examples.scriptedClient
        (DeletionManager.Run Examples.offboardConfig) tt).2 = None
     ↔ ∃ privs, EvGetPrivileges (privs, None)
                ∈ trace Examples.scriptedClient
                    (DeletionManager.Run Examples.offboardConfig) tt)
  ∧ EvUpdateUser
      {| User.UserID := "user1"; User.FirstName := "User";
         User.LastName := "One"; User.EmailAddress := "user1@example.com";
         User.Source := "LDAP"; User.Status := "disabled";
         User.Roles := ["base-role"] |}
      None
    ∈ trace Examples.scriptedClient
        (DeletionManager.Run Examples.offboardConfig) tt
  ∧ ∃ user sent,
      EvGetUser "user1" (Some user, None)
      ∈ trace Examples.scriptedClient
          (DeletionManager.Run Examples.offboardConfig) tt
      ∧ EvUpdateUser sent None
        ∈ trace Examples.scriptedClient
            (DeletionManager.Run Examples.offboardConfig) tt
      ∧ User.Status user = "active"
      ∧ User.Roles user = ["user1"; "extra-role"; "base-role"]
      ∧ User.Status sent = "disabled"
      ∧ User.Roles sent = ["base-role"].
Proof.
  assert (OperationConfig.AppID Examples.offboardConfig ≠ "") as Happ by done.
  destruct (offboarding_order Examples.offboardConfig _ _ eq_refl Happ
              (run_exec Examples.scriptedClient
                 (DeletionManager.Run Examples.offboardConfig) tt))
    as (Hfirst & _ & _ & Hok & _).
  split_and!; [reflexivity|exact Happ|exact Hok| |].
  { apply list_elem_of_further, list_elem_of_here. }
  destruct Hfirst
    as (user & sent & roleErr & rest & Htr & Hstatus & Hroles & _).
  { exists (EvDeleteRole "user1" (Some (HTTPError 404 "not found"))).
    split; [|by left].
    do 2 apply list_elem_of_further. apply list_elem_of_here. }
  pose proof Htr as Heq. injection Heq as Hu _.
  exists user, sent. split_and!.
  - rewrite Htr. apply list_elem_of_here.
  - rewrite Htr. apply list_elem_of_further, list_elem_of_here.
  - by rewrite <- Hu.
  - by rewrite <- Hu.
  - exact Hstatus.
  - exact Hroles.
Defined.

(** X12. The user that [CleanupUserRoles] sends back differs from the
    fetched one in its roles only. The new list has no duplicate, holds
    every non-empty base role, holds nothing but base roles and roles
    the user had, and keeps every role of the user other than the
    target role and the extra roles. When the target role is not a base
    role, the user's role list has no duplicate and the role was found
    absent or without privileges, the new list does not hold the target
    role. *)
Theorem CleanupUserRoles_update (cfg : OperationConfig.t) (tr : list Event)
    (res : option error) (user sent : User.t) (updateErr : option error) :
  exec (NexusCleaner.CleanupUserRoles cfg) tr res →
  EvGetUser (OperationConfig.LdapUsername cfg) (Some user, None) ∈ tr →
  EvUpdateUser sent updateErr ∈ tr →
  let roleName := OperationConfig.RoleName cfg in
  sent = User.setRoles (User.Roles sent) user
  ∧ NoDup (User.Roles sent)
  ∧ (∀ b, b ∈ OperationConfig.BaseRoles cfg → b ≠ "" → b ∈ User.Roles sent)
  ∧ (∀ r, r ∈ User.Roles sent →
          r ∈ OperationConfig.BaseRoles cfg ∨ r ∈ User.Roles user)
  ∧ (∀ r, r ∈ User.Roles user → r ≠ roleName →
          r ∉ OperationConfig.ExtraRoles cfg → r ∈ User.Roles sent)
  ∧ (roleName ≠ "" → roleName ∉ OperationConfig.BaseRoles cfg →
     NoDup (User.Roles user) →
     (∀ role, EvGetRole roleName (Some role, None) ∈ tr →
              Role.Privileges role = []) →
     roleName ∉ User.Roles sent).
Proof.
  intros H Huser Hsent roleName. apply exec_CleanupUserRoles in H.
  fold roleName in H.
  destruct H as [(user0 & e & -> & _)|[(-> & _)|[(user0 & role & e & _ & -> & _)
                 |(user0 & lookups & remaining & uerr & -> & _ & Hl)]]];
    try (set_unfold; naive_solver).
  assert (∀ ev, ev ∈ lookups → ∃ r, ev = EvGetRole roleName r) as Hlook.
  { intros ev' Hev'.
    destruct Hl as [(_ & -> & _)|[(_ & -> & _)|[(role & _ & _ & -> & _)
                    |(role & _ & _ & -> & _)]]]; set_unfold; naive_solver. }
  assert (user0 = user) as ->.
  { apply elem_of_cons in Huser as [[=]|Huser]; [done|].
    apply elem_of_app in Huser as [Huser|Huser].
    - by destruct (Hlook _ Huser) as (? & [=]).
    - set_unfold. naive_solver. }
  apply elem_of_cons in Hsent as [[=]|Hsent].
  apply elem_of_app in Hsent as [Hsent|Hsent].
  { by destruct (Hlook _ Hsent) as (? & [=]). }
  apply list_elem_of_singleton in Hsent as [= -> ->].
  set (rde := SetAfterRemovalRoles
                (NewRoleDecisionEngine (OperationConfig.BaseRoles cfg)
                                       (OperationConfig.ExtraRoles cfg))
                remaining).
  destruct (NewRoleDecisionEngine_roles (OperationConfig.BaseRoles cfg)
              (OperationConfig.ExtraRoles cfg) remaining)
    as (Hbase & Hextra & Hafter). fold rde in Hbase, Hextra, Hafter.
  assert (∀ r, r ∈ remaining → r ∈ User.Roles user) as Hsub.
  { intros r Hr.
    destruct Hl as [(_ & _ & ->)|[(_ & _ & ->)|[(role & _ & _ & _ & ->)
                    |(role & _ & _ & _ & ->)]]];
      try done; by eapply removeFirst_subseteq. }
  assert (∀ r, r ∈ User.Roles user → r ≠ roleName → r ∈ remaining) as Hkeep.
  { intros r Hr Hne.
    destruct Hl as [(_ & _ & ->)|[(_ & _ & ->)|[(role & _ & _ & _ & ->)
                    |(role & _ & _ & _ & ->)]]];
      try done; by apply removeFirst_other. }
  destruct user as [uid fn ln em src st roles]. cbn [User.setRoles User.Roles] in *.
  split_and!.
  - done.
  - apply NoDup_DecideFinalRoles.
  - intros b Hb Hne. apply elem_of_DecideFinalRoles. left.
    rewrite Hbase. apply list_elem_of_filter. done.
  - intros r Hr. apply elem_of_DecideFinalRoles in Hr as [Hr|[Hr _]].
    + left. rewrite Hbase in Hr. by apply list_elem_of_filter in Hr as [_ ?].
    + right. rewrite Hafter in Hr. by apply Hsub.
  - intros r Hr Hne Hnot. apply elem_of_DecideFinalRoles. right.
    rewrite Hafter, Hextra. split; [by apply Hkeep|].
    intros [_ ?]%list_elem_of_filter. done.
  - intros Hname Hnotbase Hnodup Hempty Hin.
    apply elem_of_DecideFinalRoles in Hin as [Hin|[Hin _]].
    + rewrite Hbase in Hin. by apply list_elem_of_filter in Hin as [_ ?].
    + rewrite Hafter in Hin.
      destruct Hl as [(? & _ & _)|[(_ & _ & ->)|[(role & _ & _ & _ & ->)
                      |(role & _ & Hprivs & -> & _)]]].
      * done.
      * by apply (removeFirst_NoDup roleName roles).
      * by apply (removeFirst_NoDup roleName roles).
      * apply Hprivs, (Hempty role). set_unfold. naive_solver.
Qed.

Lemma CleanupUserRoles_update_witness :
  EvUpdateUser (User.setRoles ["base-role"] Examples.user1) None
  ∈ trace Examples.scriptedClient
      (NexusCleaner.CleanupUserRoles Examples.offboardConfig) tt
  ∧ (OperationConfig.RoleName Examples.offboardConfig)
    ∉ User.Roles (User.setRoles ["base-role"] Examples.user1).
Proof.
  assert (EvGetUser "user1" (Some Examples.user1, None)
          ∈ trace Examples.scriptedClient
              (NexusCleaner.CleanupUserRoles Examples.offboardConfig) tt)
    as Huser by apply list_elem_of_here.
  assert (EvUpdateUser (User.setRoles ["base-role"] Examples.user1) None
          ∈ trace Examples.scriptedClient
              (NexusCleaner.CleanupUserRoles Examples.offboardConfig) tt)
    as Hsent by (do 2 apply list_elem_of_further; apply list_elem_of_here).
  split; [exact Hsent|].
  destruct (CleanupUserRoles_update Examples.offboardConfig _ _
              Examples.user1 _ None
              (run_exec Examples.scriptedClient
                 (NexusCleaner.CleanupUserRoles Examples.offboardConfig) tt)
              Huser Hsent) as (_ & _ & _ & _ & _ & Hgone).
  apply Hgone.
  - done.
  - intros [[=]|Hin]%elem_of_cons. by apply elem_of_nil in Hin.
  - repeat constructor; set_unfold; naive_solver.
  - intros role [[=]|[[= ->]|[[=]|Hin]%elem_of_cons]%elem_of_cons]%elem_of_cons;
      [done|by apply elem_of_nil in Hin].
Defined.

End DeletionFacts.

(* ================================================================== *)
(** * Properties of the creation workflow *)
(* ================================================================== *)

Module CreationFacts.
Import GoStrings GoStringsFacts GoErrors Config Client RoleEngine RoleEngineFacts.
Import Service ServiceFacts Traces Creation.

(** ** The roles assigned on creation *)

Lemma skipDuplicates_app l1 l2 :
  skipDuplicates (l1 ++ l2)
  = skipDuplicates l1 ++ filter (λ r, r ∉ l1) (skipDuplicates l2).
Proof.
  induction l1 as [|x l1 IH]; simpl.
  - by rewrite filter_all by (intros ?; apply not_elem_of_nil).
  - rewrite IH, filter_app, list_filter_filter. do 2 f_equal.
    apply list_filter_iff. intros y. rewrite not_elem_of_cons. naive_solver.
Qed.

Lemma filter_none_in_list (P : string → Prop) `{!∀ x, Decision (P x)}
    (l : list string) :
  (∀ x, x ∈ l → ¬ P x) → filter P l = [].
Proof.
  induction l as [|x l IH]; intros Hnone; [done|].
  rewrite filter_cons_False by (apply Hnone; by left).
  apply IH. intros y Hy. apply Hnone. by right.
Qed.

(** The loop appends, in order and once each, the non-empty roles the
    list does not hold yet. *)
Lemma addMissing_eq currentRoles roles :
  addMissing currentRoles roles
  = currentRoles
      ++ skipDuplicates (filter (λ r, r ≠ "" ∧ (r ∉ currentRoles)) roles).
Proof.
  revert currentRoles.
  induction roles as [|r roles IH]; intros cur; cbn [addMissing].
  - by rewrite filter_nil, app_nil_r.
  - rewrite filter_cons.
    destruct (String.eqb_spec r "") as [->|Hne]; cbn [negb andb].
    { rewrite decide_False by naive_solver. apply IH. }
    destruct (Contains cur r) eqn:Hc; cbn [negb andb].
    { apply Contains_true in Hc. rewrite decide_False by naive_solver.
      apply IH. }
    apply Contains_false in Hc. rewrite decide_True by done.
    cbn [skipDuplicates].
    rewrite IH, <- app_assoc. cbn [app]. do 2 f_equal.
    rewrite <- skipDuplicates_filter, list_filter_filter. f_equal.
    apply list_filter_iff. intros y. rewrite not_elem_of_app.
    rewrite list_elem_of_singleton. naive_solver.
Qed.

Lemma assignedRoles_eq cfg roles :
  assignedRoles cfg roles
  = roles
      ++ skipDuplicates
           (filter (λ r, r ∉ roles)
              (OperationConfig.RoleName cfg
                 :: filter (λ r, r ≠ "")
                      (OperationConfig.ExtraRoles cfg
                         ++ OperationConfig.BaseRoles cfg))).
Proof.
  unfold assignedRoles.
  set (roleName := OperationConfig.RoleName cfg).
  set (extra := OperationConfig.ExtraRoles cfg).
  set (base := OperationConfig.BaseRoles cfg).
  set (first := skipDuplicates (filter (λ r, r ∉ roles) [roleName])).
  assert ((if negb (Contains roles roleName) then roles ++ [roleName] else roles)
          = roles ++ first) as ->.
  { unfold first. rewrite filter_cons, filter_nil.
    destruct (Contains roles roleName) eqn:Hc; simpl.
    - apply Contains_true in Hc.
      by rewrite decide_False, app_nil_r by naive_solver.
    - apply Contains_false in Hc. by rewrite decide_True. }
  rewrite !addMissing_eq, <- !app_assoc. f_equal.
  change (roleName :: filter (λ r, r ≠ "") (extra ++ base))
    with ([roleName] ++ filter (λ r, r ≠ "") (extra ++ base)).
  rewrite (filter_app _ [roleName]), skipDuplicates_app. fold first. f_equal.
  rewrite (filter_app _ extra base), (filter_app _ (filter _ extra)).
  rewrite skipDuplicates_app, filter_app. f_equal.
  - rewrite <- skipDuplicates_filter, !list_filter_filter. f_equal.
    apply list_filter_iff. intros r. unfold first. clear first.
    rewrite not_elem_of_app, elem_of_skipDuplicates, list_elem_of_filter.
    destruct (decide (r ∈ roles)); destruct (decide (r = "")); tauto.
  - rewrite list_filter_filter, <- !skipDuplicates_filter, !list_filter_filter.
    f_equal. apply list_filter_iff. intros r. unfold first. clear first.
    repeat first [ rewrite not_elem_of_app | rewrite elem_of_skipDuplicates
                 | rewrite list_elem_of_filter ].
    destruct (decide (r ∈ roles)); destruct (decide (r = "")); tauto.
Qed.

Lemma elem_of_assignedRoles cfg roles r :
  r ∈ assignedRoles cfg roles
  ↔ r ∈ roles ∨ r = OperationConfig.RoleName cfg
    ∨ (r ≠ "" ∧ (r ∈ OperationConfig.ExtraRoles cfg
                 ∨ r ∈ OperationConfig.BaseRoles cfg)).
Proof.
  rewrite assignedRoles_eq, elem_of_app, elem_of_skipDuplicates.
  rewrite list_elem_of_filter, elem_of_cons, list_elem_of_filter, elem_of_app.
  destruct (decide (r ∈ roles)); naive_solver.
Qed.

(** X13. The role list assigned on creation is the user's list followed
    by the roles it lacks among the target role and the non-empty extra
    and base roles, in that order and once each. So every role the user
    had stays in place, a duplicate-free list stays duplicate-free, and
    assigning twice changes nothing more. *)
Theorem assignedRoles_spec (cfg : OperationConfig.t) (roles : list string) :
  assignedRoles cfg roles
  = roles
      ++ skipDuplicates
           (filter (λ r, r ∉ roles)
              (OperationConfig.RoleName cfg
                 :: filter (λ r, r ≠ "")
                      (OperationConfig.ExtraRoles cfg
                         ++ OperationConfig.BaseRoles cfg)))
  ∧ (∀ r, r ∈ assignedRoles cfg roles
          ↔ r ∈ roles ∨ r = OperationConfig.RoleName cfg
            ∨ (r ≠ "" ∧ (r ∈ OperationConfig.ExtraRoles cfg
                         ∨ r ∈ OperationConfig.BaseRoles cfg)))
  ∧ (NoDup roles → NoDup (assignedRoles cfg roles))
  ∧ assignedRoles cfg (assignedRoles cfg roles) = assignedRoles cfg roles.
Proof.
  split_and!.
  - apply assignedRoles_eq.
  - intros r. apply elem_of_assignedRoles.
  - intros Hnodup. rewrite assignedRoles_eq. apply NoDup_app. split_and!.
    + done.
    + intros r Hr. rewrite elem_of_skipDuplicates, list_elem_of_filter.
      naive_solver.
    + apply NoDup_skipDuplicates.
  - rewrite (assignedRoles_eq cfg (assignedRoles cfg roles)).
    rewrite filter_none_in_list, app_nil_r; [done|].
    intros r Hr Hnot. apply Hnot, elem_of_assignedRoles.
    apply elem_of_cons in Hr as [->|Hr]; [by right; left|].
    apply list_elem_of_filter in Hr as [Hne Hr].
    apply elem_of_app in Hr. naive_solver.
Qed.

(** ** The role and user steps *)

Lemma exec_AddRoleToUser cfg tr res :
  exec (AddRoleToUser cfg) tr res →
  let username := OperationConfig.LdapUsername cfg in
  (∃ user e, tr = [EvGetUser username (user, Some e)] ∧ res ≠ None)
  ∨ (tr = [EvGetUser username (None, None)]
     ∧ res = Some (errorString ("user '" +:+ username +:+ "' not found")))
  ∨ (∃ user updateErr,
       tr = [EvGetUser username (Some user, None);
             EvUpdateUser
               (User.setRoles (assignedRoles cfg (User.Roles user)) user)
               updateErr]
       ∧ (res = None ↔ updateErr = None)).
Proof.
  intros H username. unfold AddRoleToUser in H.
  exec_call H x tr1. destruct x as [user [e|]].
  { exec_ret H. left. by exists user, e. }
  right. destruct user as [user|]; [|exec_ret H; by left].
  right. exec_call H uerr tr2. exists user, uerr.
  destruct uerr; exec_ret H; done.
Qed.

(** X14. [AddRoleToUser] succeeds only by updating the user: a failed
    or empty lookup is an error with no update. The user it sends is
    the fetched one with only the role list changed: the former roles
    stay in place, and the list holds the target role and every
    non-empty extra and base role. *)
Theorem AddRoleToUser_outcome (cfg : OperationConfig.t) (tr : list Event)
    (res : option error) :
  exec (AddRoleToUser cfg) tr res →
  let username := OperationConfig.LdapUsername cfg in
  (res = None → ∃ sent, EvUpdateUser sent None ∈ tr)
  ∧ (EvGetUser username (None, None) ∈ tr →
     tr = [EvGetUser username (None, None)]
     ∧ res = Some (errorString ("user '" +:+ username +:+ "' not found")))
  ∧ ∀ sent updateErr, EvUpdateUser sent updateErr ∈ tr →
      ∃ user added,
        tr = [EvGetUser username (Some user, None); EvUpdateUser sent updateErr]
        ∧ sent = User.setRoles (User.Roles user ++ added) user
        ∧ OperationConfig.RoleName cfg ∈ User.Roles sent
        ∧ (∀ r, r ≠ "" →
                r ∈ OperationConfig.ExtraRoles cfg
                ∨ r ∈ OperationConfig.BaseRoles cfg →
                r ∈ User.Roles sent)
        ∧ (res = None ↔ updateErr = None).
Proof.
  intros H username. apply exec_AddRoleToUser in H. fold username in H.
  destruct H as [(user & e & -> & Hres)|[(-> & ->)
                 |(user & uerr & -> & Hres)]].
  - split_and!; [done| |]; intros; set_unfold; naive_solver.
  - split_and!; [done|done|]. intros; set_unfold; naive_solver.
  - split_and!.
    + intros Hnone. apply Hres in Hnone as ->.
      exists (User.setRoles (assignedRoles cfg (User.Roles user)) user).
      apply list_elem_of_further, list_elem_of_here.
    + intros Hin. set_unfold. naive_solver.
    + intros sent updateErr Hin.
      assert (sent = User.setRoles (assignedRoles cfg (User.Roles user)) user
              ∧ updateErr = uerr) as [-> ->].
      { set_unfold. naive_solver. }
      exists user, (skipDuplicates
                      (filter (λ r, r ∉ User.Roles user)
                         (OperationConfig.RoleName cfg
                            :: filter (λ r, r ≠ "")
                                 (OperationConfig.ExtraRoles cfg
                                    ++ OperationConfig.BaseRoles cfg)))).
      rewrite <- assignedRoles_eq. split_and!; try done.
      * apply elem_of_assignedRoles. by right; left.
      * intros r Hne Hr. apply elem_of_assignedRoles. by right; right.
Qed.

Lemma AddRoleToUser_outcome_witness :
  ∃ sent, EvUpdateUser sent None
          ∈ trace Examples.scriptedClient
              (AddRoleToUser Examples.standardConfig) tt.
Proof.
  exact (proj1 (AddRoleToUser_outcome Examples.standardConfig _ _
                  (run_exec Examples.scriptedClient
                     (AddRoleToUser Examples.standardConfig) tt))
               eq_refl).
Defined.

(** X15. [AddPrivilegeToRole] changes the server at most once, after
    its lookup. An error other than an HTTP 404 ends it with no change.
    A role that holds the privilege is left alone; a role that lacks it
    is sent back with the privilege appended to its privilege list and
    every other field as fetched;
    the role is created only when the lookup returned no role or an
    HTTP 404. *)
Theorem AddPrivilegeToRole_outcome (cfg : OperationConfig.t)
    (tr : list Event) (res : option error) :
  exec (AddPrivilegeToRole cfg) tr res →
  let roleName := OperationConfig.RoleName cfg in
  let privilegeName := OperationConfig.PrivilegeName cfg in
  (∃ role e,
     AsHTTPError e ≠ Some StatusNotFound
     ∧ tr = [EvGetRole roleName (role, Some e)] ∧ res ≠ None)
  ∨ (∃ role,
       privilegeName ∈ Role.Privileges role
       ∧ tr = [EvGetRole roleName (Some role, None)] ∧ res = None)
  ∨ (∃ role sent updateErr,
       (privilegeName ∉ Role.Privileges role)
       ∧ tr = [EvGetRole roleName (Some role, None);
               EvUpdateRole sent updateErr]
       ∧ Role.Privileges sent = Role.Privileges role ++ [privilegeName]
       ∧ Role.ID sent = Role.ID role
       ∧ Role.Name sent = Role.Name role
       ∧ Role.Description sent = Role.Description role
       ∧ Role.Roles sent = Role.Roles role
       ∧ (res = None ↔ updateErr = None))
  ∨ (∃ role err createErr,
       ((role = None ∧ err = None)
        ∨ ∃ e, err = Some e ∧ AsHTTPError e = Some StatusNotFound)
       ∧ tr = [EvGetRole roleName (role, err); EvCreateRole cfg createErr]
       ∧ (res = None ↔ createErr = None)).
Proof.
  intros H roleName privilegeName. unfold AddPrivilegeToRole in H.
  fold roleName privilegeName in H.
  exec_call H x tr1. destruct x as [role [e|]].
  - destruct (AsHTTPError e) as [code|] eqn:Hcode.
    + destruct (Z.eqb_spec code StatusNotFound) as [->|Hne].
      * exec_call H cerr tr2. right. right. right.
        exists role, (Some e), cerr. split_and!; [right; by exists e|..];
          destruct cerr; exec_ret H; done.
      * exec_ret H. left. exists role, e. split_and!; congruence.
    + exec_ret H. left. exists role, e. split_and!; congruence.
  - destruct role as [role|].
    + destruct (Contains (Role.Privileges role) privilegeName) eqn:Hc.
      * apply Contains_true in Hc. exec_ret H. right. left. by exists role.
      * apply Contains_false in Hc. exec_call H uerr tr2. right. right. left.
        exists role,
          (Role.setPrivileges (Role.Privileges role ++ [privilegeName]) role),
          uerr.
        destruct uerr; exec_ret H; done.
    + exec_call H cerr tr2. right. right. right.
      exists None, None, cerr. split_and!; [by left|..];
        destruct cerr; exec_ret H; done.
Qed.

Lemma AddPrivilegeToRole_outcome_witness :
  ∃ role sent updateErr,
    trace Examples.scriptedClient
      (AddPrivilegeToRole Examples.standardConfig) tt
    = [EvGetRole "app-role" (Some role, None); EvUpdateRole sent updateErr]
    ∧ Role.Privileges role = []
    ∧ Role.Privileges sent = ["npm-release-app1"]
    ∧ Role.ID sent = "app-role".
Proof.
  destruct (AddPrivilegeToRole_outcome Examples.standardConfig _ _
              (run_exec Examples.scriptedClient
                 (AddPrivilegeToRole Examples.standardConfig) tt))
    as [(role & e & _ & [=] & _)|[(role & _ & [=] & _)
        |[(role & sent & uerr & _ & Htr & Hprivs & Hid & _)
         |(role & err & cerr & _ & [=] & _)]]].
  pose proof Htr as Heq. injection Heq as Hr _.
  rewrite <- Hr in Hprivs, Hid.
  exists role, sent, uerr.
  split_and!; [exact Htr|by rewrite <- Hr|exact Hprivs|exact Hid].
Defined.

(** ** The workflow *)

Lemma CreateRepository_events cfg tr res :
  exec (NexusCreator.CreateRepository cfg) tr res →
  ∀ ev, ev ∈ tr → isDeletion ev = false.
Proof.
  intros [(? & -> & _)|(? & ? & ? & -> & _)]%exec_CreateRepository ev Hev;
    set_unfold; naive_solver.
Qed.

Lemma CreatePrivilege_events cfg tr res :
  exec (NexusCreator.CreatePrivilege cfg) tr res →
  ∀ ev, ev ∈ tr → isDeletion ev = false.
Proof.
  intros [(? & -> & _)|(? & ? & ? & -> & _)]%exec_CreatePrivilege ev Hev;
    set_unfold; naive_solver.
Qed.

Lemma AddPrivilegeToRole_events cfg tr res :
  exec (AddPrivilegeToRole cfg) tr res →
  ∀ ev, ev ∈ tr → isDeletion ev = false.
Proof.
  intros H ev Hev. unfold AddPrivilegeToRole in H.
  exec_call H x tr1. destruct x as [role [e|]].
  - destruct (AsHTTPError e) as [code|].
    + destruct (code =? StatusNotFound)%Z.
      * exec_call H cerr tr2. destruct cerr; exec_ret H; set_unfold; naive_solver.
      * exec_ret H. set_unfold; naive_solver.
    + exec_ret H. set_unfold; naive_solver.
  - destruct role as [role|].
    + destruct (Contains (Role.Privileges role) (OperationConfig.PrivilegeName cfg)).
      * exec_ret H. set_unfold; naive_solver.
      * exec_call H uerr tr2. destruct uerr; exec_ret H; set_unfold; naive_solver.
    + exec_call H cerr tr2. destruct cerr; exec_ret H; set_unfold; naive_solver.
Qed.

Lemma AddRoleToUser_events cfg tr res :
  exec (AddRoleToUser cfg) tr res →
  ∀ ev, ev ∈ tr → isDeletion ev = false.
Proof.
  intros [(? & ? & -> & _)|[(-> & _)|(? & ? & -> & _)]]%exec_AddRoleToUser ev Hev;
    set_unfold; naive_solver.
Qed.

Lemma exec_Run_creation (cfg : OperationConfig.t) (tr : list Event)
    (res : option Result * option error) :
  exec (CreationManager.Run cfg) tr res →
  (∀ ev, ev ∈ tr → isDeletion ev = false)
  ∧ ∃ tr1 rest1 r1,
      tr = tr1 ++ rest1 ∧ exec (NexusCreator.CreateRepository cfg) tr1 r1
      ∧ match r1 with
        | Some e1 => rest1 = [] ∧ res = (None, Some e1)
        | None =>
            ∃ tr2 rest2 r2,
              rest1 = tr2 ++ rest2
              ∧ exec (NexusCreator.CreatePrivilege cfg) tr2 r2
              ∧ match r2 with
                | Some e2 => rest2 = [] ∧ res = (None, Some e2)
                | None =>
                    ∃ tr3 tr4 r3,
                      rest2 = tr3 ++ tr4
                      ∧ exec (AddPrivilegeToRole cfg) tr3 r3
                      ∧ match r3 with
                        | Some e3 => tr4 = [] ∧ res = (None, Some e3)
                        | None =>
                            ∃ r4,
                              exec (AddRoleToUser cfg) tr4 r4
                              ∧ res
                                = (match r4 with
                                   | None =>
                                       Some (CreationManager.creationResult cfg)
                                   | Some _ => None
                                   end, r4)
                        end
                end
        end.
Proof.
  intros H. unfold CreationManager.Run in H.
  apply exec_bind in H as (tr1 & rest1 & r1 & -> & H1 & H).
  pose proof (CreateRepository_events _ _ _ H1) as Hev1.
  destruct r1 as [e1|].
  { exec_ret H. split.
    - intros ev Hev. rewrite app_nil_r in Hev. by apply Hev1.
    - by exists tr1, [], (Some e1). }
  apply exec_bind in H as (tr2 & rest2 & r2 & -> & H2 & H).
  pose proof (CreatePrivilege_events _ _ _ H2) as Hev2.
  destruct r2 as [e2|].
  { exec_ret H. split.
    - intros ev Hev. rewrite app_nil_r in Hev.
      apply elem_of_app in Hev as [?|?]; auto.
    - exists tr1, (tr2 ++ []), None. split_and!; [done|done|].
      by exists tr2, [], (Some e2). }
  apply exec_bind in H as (tr3 & tr4 & r3 & -> & H3 & H).
  pose proof (AddPrivilegeToRole_events _ _ _ H3) as Hev3.
  destruct r3 as [e3|].
  { exec_ret H. split.
    - intros ev Hev. rewrite app_nil_r in Hev.
      apply elem_of_app in Hev as [?|[?|?]%elem_of_app]; auto.
    - exists tr1, (tr2 ++ tr3 ++ []), None. split_and!; [done|done|].
      exists tr2, (tr3 ++ []), None. split_and!; [done|done|].
      by exists tr3, [], (Some e3). }
  apply exec_bind in H as (tr5 & tr6 & r4 & -> & H4 & H).
  pose proof (AddRoleToUser_events _ _ _ H4) as Hev4.
  assert (tr6 = [] ∧ res = (match r4 with
                            | None => Some (CreationManager.creationResult cfg)
                            | Some _ => None
                            end, r4)) as [-> ->].
  { destruct r4; exec_ret H; done. }
  rewrite app_nil_r. split.
  - intros ev Hev.
    apply elem_of_app in Hev as [?|[?|[?|?]%elem_of_app]%elem_of_app]; auto.
  - exists tr1, (tr2 ++ tr3 ++ tr5), None. split_and!; [done|done|].
    exists tr2, (tr3 ++ tr5), None. split_and!; [done|done|].
    exists tr3, tr5, None. split_and!; [done|done|]. by exists r4.
Qed.


(** X16. The creation workflow makes its four steps in order (create
    the repository, create the privilege, add the privilege to the role,
    add the role to the user) and stops at the first step that fails,
    with that step's error and no further call; it returns its result
    map exactly when all four succeed. It never deletes anything. *)
Theorem creation_steps (cfg : OperationConfig.t) (tr : list Event)
    (res : option Result * option error) :
  exec (CreationManager.Run cfg) tr res →
  (∀ ev, ev ∈ tr → isDeletion ev = false)
  ∧ ∃ tr1 rest1 r1,
      tr = tr1 ++ rest1 ∧ exec (NexusCreator.CreateRepository cfg) tr1 r1
      ∧ match r1 with
        | Some e1 => rest1 = [] ∧ res = (None, Some e1)
        | None =>
            ∃ tr2 rest2 r2,
              rest1 = tr2 ++ rest2
              ∧ exec (NexusCreator.CreatePrivilege cfg) tr2 r2
              ∧ match r2 with
                | Some e2 => rest2 = [] ∧ res = (None, Some e2)
                | None =>
                    ∃ tr3 tr4 r3,
                      rest2 = tr3 ++ tr4
                      ∧ exec (AddPrivilegeToRole cfg) tr3 r3
                      ∧ match r3 with
                        | Some e3 => tr4 = [] ∧ res = (None, Some e3)
                        | None =>
                            ∃ r4,
                              exec (AddRoleToUser cfg) tr4 r4
                              ∧ res
                                = (match r4 with
                                   | None =>
                                       Some (CreationManager.creationResult cfg)
                                   | Some _ => None
                                   end, r4)
                        end
                end
        end.
Proof. apply exec_Run_creation. Qed.

Lemma creation_steps_witness :
  (outcome Examples.scriptedClient
     (CreationManager.Run Examples.standardConfig) tt).2 = None
  ∧ ∀ ev, ev ∈ trace Examples.scriptedClient
                 (CreationManager.Run Examples.standardConfig) tt →
          isDeletion ev = false.
Proof.
  split; [reflexivity|].
  exact (proj1 (creation_steps Examples.standardConfig _ _
                  (run_exec Examples.scriptedClient
                     (CreationManager.Run Examples.standardConfig) tt))).
Defined.

End CreationFacts.

(* ================================================================== *)
(** * Properties of the IQ Server cleanup and of one operation *)
(* ================================================================== *)

Module OperationFacts.
Import GoStrings GoStringsFacts GoErrors Config Client RoleEngine RoleEngineFacts.
Import Service ServiceFacts Server Traces Creation Operation.
Import DeletionFacts CreationFacts.

(** ** Workflows over the two clients *)

Lemma runFlow_flowExec {W A : Type} (hn : Handler W) (hi : IQHandler W)
    (p : Flow A) (w : W) :
  flowExec p (runFlow hn hi p w).2 (runFlow hn hi p w).1.1.
Proof.
  revert w. induction p as [a|X c k IH|X c k IH]; intros w; simpl; [done|..].
  - destruct (hn X c w) as [x w1] eqn:Hh. specialize (IH x w1).
    destruct (runFlow hn hi (k x) w1) as [[a w2] tr]. simpl in *. eauto.
  - destruct (hi X c w) as [x w1] eqn:Hh. specialize (IH x w1).
    destruct (runFlow hn hi (k x) w1) as [[a w2] tr]. simpl in *. eauto.
Qed.

Lemma flowExec_bind {A B : Type} (p : Flow A) (f : A → Flow B) tr b :
  flowExec (p ≫= f) tr b
  ↔ ∃ tr1 tr2 a, tr = tr1 ++ tr2 ∧ flowExec p tr1 a ∧ flowExec (f a) tr2 b.
Proof.
  unfold mbind, Flow_bind. revert tr.
  induction p as [a|X c k IH|X c k IH]; intros tr; simpl.
  - split.
    + intros H. by exists [], tr, a.
    + by intros (tr1 & tr2 & a' & -> & [-> ->] & H).
  - split.
    + intros (x & tr' & -> & H).
      apply IH in H as (tr1 & tr2 & a & -> & H1 & H2).
      exists (OnNexus (event c x) :: tr1), tr2, a. naive_solver.
    + intros (tr1 & tr2 & a & -> & (x & tr' & -> & H1) & H2).
      exists x, (tr' ++ tr2). split; [done|]. apply IH. naive_solver.
  - split.
    + intros (x & tr' & -> & H).
      apply IH in H as (tr1 & tr2 & a & -> & H1 & H2).
      exists (iqStep c x :: tr1), tr2, a. naive_solver.
    + intros (tr1 & tr2 & a & -> & (x & tr' & -> & H1) & H2).
      exists x, (tr' ++ tr2). split; [done|]. apply IH. naive_solver.
Qed.

(** A lifted workflow makes the calls of the original, and no other. *)
Lemma flowExec_lift {A : Type} (p : Prog A) tr a :
  flowExec (lift p) tr a ↔ ∃ trn, tr = OnNexus <$> trn ∧ exec p trn a.
Proof.
  revert tr. induction p as [a'|X c k IH]; intros tr; simpl.
  - split.
    + intros [-> ->]. by exists [].
    + intros (trn & -> & -> & ->). done.
  - split.
    + intros (x & tr' & -> & H). apply IH in H as (trn & -> & H).
      exists (event c x :: trn). naive_solver.
    + intros (trn & -> & x & tr' & -> & H). exists x, (OnNexus <$> tr').
      split; [done|]. apply IH. by exists tr'.
Qed.

Lemma elem_of_OnNexus (trn : list Event) (step : Step) :
  step ∈ OnNexus <$> trn ↔ ∃ ev, step = OnNexus ev ∧ ev ∈ trn.
Proof. apply list_elem_of_fmap. Qed.

(** ** The owner-role decision *)

Lemma onlyBaseLoop_true base roles :
  IQServerCleaner.onlyBaseLoop base roles = true ↔ ∀ r, r ∈ roles → r ∈ base.
Proof.
  induction roles as [|x roles IH]; simpl.
  - split; [|done]. by intros _ r ?%elem_of_nil.
  - destruct (Contains base x) eqn:Hc; simpl.
    + apply Contains_true in Hc. rewrite IH. set_solver.
    + apply Contains_false in Hc. split; [done|].
      intros Hall. destruct Hc. apply Hall. by left.
Qed.

(** The verdict computed from the remaining roles. *)
Lemma verdict_true base extra roles (shareRoleEmpty : bool) :
  negb (HasOtherRoles (SetAfterRemovalRoles (NewRoleDecisionEngine base extra) roles))
  && shareRoleEmpty
  && (if (0 <? length base)%nat && (0 <? length roles)%nat
      then IQServerCleaner.onlyBaseLoop base roles
      else (0 <? length base)%nat && (0 <? length roles)%nat) = true
  ↔ roles ≠ [] ∧ (∀ r, r ∈ roles → r ≠ "" ∧ r ∈ base) ∧ shareRoleEmpty = true.
Proof.
  destruct (NewRoleDecisionEngine_roles base extra roles) as (Hb & He & Ha).
  set (rde := SetAfterRemovalRoles (NewRoleDecisionEngine base extra) roles) in *.
  assert (HasOtherRoles rde = true
          ↔ ∃ r, r ∈ roles ∧ (r ∉ filter (λ r, r ≠ "") base)
                 ∧ r ≠ "repositories.share"
                 ∧ (r ∉ filter (λ r, r ≠ "") extra)) as Hother.
  { unfold HasOtherRoles. rewrite hasOtherLoop_true, Hb, He, Ha. done. }
  split.
  - intros H. apply andb_true_iff in H as [H Honly].
    apply andb_true_iff in H as [Hno Hshare].
    apply negb_true_iff in Hno.
    destruct ((0 <? length base)%nat && (0 <? length roles)%nat) eqn:Hlen;
      [|done].
    apply andb_true_iff in Hlen as [_ Hlen]. apply Nat.ltb_lt in Hlen.
    rewrite onlyBaseLoop_true in Honly.
    split_and!; [destruct roles; [simpl in Hlen; lia|done]| |done].
    intros r Hr. split; [|by apply Honly].
    intros ->. assert (HasOtherRoles rde = true) as Hyes; [|congruence].
    apply Hother. exists "". split_and!; try done.
    + intros [? _]%list_elem_of_filter. done.
    + intros [? _]%list_elem_of_filter. done.
  - intros (Hne & Hall & ->).
    assert (HasOtherRoles rde = false) as ->.
    { destruct (HasOtherRoles rde) eqn:Hyes; [|done].
      destruct (proj1 Hother eq_refl) as (r & Hr & Hnb & _).
      destruct Hnb. apply list_elem_of_filter. by apply Hall. }
    simpl.
    assert ((0 <? length base)%nat && (0 <? length roles)%nat = true) as ->.
    { destruct roles as [|r roles]; [done|].
      destruct (Hall r) as [_ Hin]; [by left|].
      destruct base; [by apply elem_of_nil in Hin|done]. }
    apply onlyBaseLoop_true. intros r Hr. by apply Hall.
Qed.

Lemma exec_shouldRemoveOwnerRole nexusClient cfg tr res :
  exec (IQServerCleaner.shouldRemoveOwnerRole nexusClient cfg) tr res →
  let username := OperationConfig.LdapUsername cfg in
  let remaining (user : User.t) :=
    if negb (String.eqb (OperationConfig.RoleName cfg) "")
    then NexusCleaner.removeFirst (OperationConfig.RoleName cfg) (User.Roles user)
    else User.Roles user in
  let onlyBase (user : User.t) :=
    remaining user ≠ []
    ∧ ∀ r, r ∈ remaining user → r ≠ "" ∧ r ∈ OperationConfig.BaseRoles cfg in
  (nexusClient = false ∧ tr = [] ∧ res.1 = false ∧ res.2 ≠ None)
  ∨ (∃ user e,
       tr = [EvGetUser username (user, Some e)] ∧ res.1 = false ∧ res.2 ≠ None)
  ∨ (tr = [EvGetUser username (None, None)] ∧ res = (false, None))
  ∨ (∃ user,
       ("repositories.share" ∉ remaining user)
       ∧ tr = [EvGetUser username (Some user, None)]
       ∧ res.2 = None ∧ (res.1 = true ↔ onlyBase user))
  ∨ (∃ user role e,
       "repositories.share" ∈ remaining user
       ∧ tr = [EvGetUser username (Some user, None);
               EvGetRole "repositories.share" (role, Some e)]
       ∧ res.1 = false ∧ res.2 ≠ None)
  ∨ (∃ user role,
       "repositories.share" ∈ remaining user
       ∧ tr = [EvGetUser username (Some user, None);
               EvGetRole "repositories.share" (role, None)]
       ∧ res.2 = None
       ∧ (res.1 = true
          ↔ onlyBase user
            ∧ ∀ shareRole, role = Some shareRole →
                           Role.Privileges shareRole = [])).
Proof.
  intros H username remaining onlyBase.
  unfold IQServerCleaner.shouldRemoveOwnerRole in H.
  destruct nexusClient; cbn [negb] in H.
  2:{ exec_ret H. left. done. }
  right. exec_call H x tr1. destruct x as [user [e|]].
  { exec_ret H. left. by exists user, e. }
  right. destruct user as [user|]; [|exec_ret H; by left].
  right. fold (remaining user) in H.
  pose proof (λ b, verdict_true (OperationConfig.BaseRoles cfg)
                     (OperationConfig.ExtraRoles cfg) (remaining user) b)
    as Hverdict.
  destruct (Contains (remaining user) "repositories.share") eqn:Hshare.
  - apply Contains_true in Hshare. right.
    exec_call H y tr2. destruct y as [role [e|]].
    { exec_ret H. left. by exists user, role, e. }
    right. exists user, role. split; [done|].
    destruct role as [role|].
    + destruct (Role.Privileges role) as [|p ps] eqn:Hprivs; simpl in H;
        exec_ret H; (split; [done|]); (split; [done|]); cbn [fst];
        rewrite Hverdict; unfold onlyBase.
      * split; [|naive_solver]. intros (? & ? & _). split; [done|].
        by intros ? [= <-].
      * split; [naive_solver|]. intros (_ & Hempty).
        specialize (Hempty role eq_refl). congruence.
    + exec_ret H. split; [done|]. split; [done|]. cbn [fst].
      rewrite Hverdict. unfold onlyBase. naive_solver.
  - apply Contains_false in Hshare. left. exec_ret H. exists user.
    split; [done|]. split; [done|]. split; [done|]. cbn [fst].
    rewrite Hverdict. unfold onlyBase. naive_solver.
Qed.

(** X17. The owner-role decision reads the user (and the shared role
    when the user holds it) and changes nothing. It answers yes exactly
    when the user was returned, the roles left after dropping the first
    occurrence of the target role are not empty and are all non-empty
    base roles, and the lookup of the shared role, if made, succeeded
    with no role or a role without privileges. *)
Theorem shouldRemoveOwnerRole_decision (nexusClient : bool)
    (cfg : OperationConfig.t) (tr : list Event) (res : bool * option error) :
  exec (IQServerCleaner.shouldRemoveOwnerRole nexusClient cfg) tr res →
  let username := OperationConfig.LdapUsername cfg in
  let remaining (user : User.t) :=
    if negb (String.eqb (OperationConfig.RoleName cfg) "")
    then NexusCleaner.removeFirst (OperationConfig.RoleName cfg) (User.Roles user)
    else User.Roles user in
  (∀ ev, ev ∈ tr → isMutation ev = false)
  ∧ (res.1 = true → res.2 = None)
  ∧ (res.1 = true
     ↔ ∃ user,
         EvGetUser username (Some user, None) ∈ tr
         ∧ remaining user ≠ []
         ∧ (∀ r, r ∈ remaining user →
                 r ≠ "" ∧ r ∈ OperationConfig.BaseRoles cfg)
         ∧ (∀ role e, EvGetRole "repositories.share" (role, Some e) ∉ tr)
         ∧ (∀ role, EvGetRole "repositories.share" (Some role, None) ∈ tr →
                    Role.Privileges role = [])).
Proof.
  intros H username remaining.
  apply exec_shouldRemoveOwnerRole in H. fold username remaining in H.
  destruct H as [(_ & -> & Hno & Herr)|[(user & e & -> & Hno & Herr)
                 |[(-> & ->)|[(user & Hshare & -> & Hok & Hiff)
                 |[(user & role & e & Hshare & -> & Hno & Herr)
                 |(user & role & Hshare & -> & Hok & Hiff)]]]]].
  - split_and!; [by intros ev ?%elem_of_nil|congruence|].
    rewrite Hno. split; [done|]. intros (user & Hin & _).
    by apply elem_of_nil in Hin.
  - split_and!; [intros; set_unfold; naive_solver|congruence|].
    rewrite Hno. split; [done|]. intros (u & Hin & _). set_unfold. naive_solver.
  - split_and!; [intros; set_unfold; naive_solver|done|].
    simpl. split; [done|]. intros (u & Hin & _). set_unfold. naive_solver.
  - split_and!; [intros; set_unfold; naive_solver|done|].
    rewrite Hiff. split.
    + intros (Hne & Hall). exists user. split_and!; try done.
      * apply list_elem_of_here.
      * intros role e Hin. set_unfold. naive_solver.
      * intros role Hin. set_unfold. naive_solver.
    + intros (u & Hin & Hne & Hall & _).
      assert (u = user) as -> by (set_unfold; naive_solver). done.
  - split_and!; [intros; set_unfold; naive_solver|congruence|].
    rewrite Hno. split; [done|]. intros (u & _ & _ & _ & Hfail & _).
    destruct (Hfail role e). set_unfold. naive_solver.
  - split_and!; [intros; set_unfold; naive_solver|done|].
    rewrite Hiff. split.
    + intros ((Hne & Hall) & Hempty). exists user. split_and!; try done.
      * apply list_elem_of_here.
      * intros r e Hin. set_unfold. naive_solver.
      * intros r Hin. apply Hempty. set_unfold. naive_solver.
    + intros (u & Hin & Hne & Hall & _ & Hempty).
      assert (u = user) as -> by (set_unfold; naive_solver).
      split; [done|]. intros shareRole ->. apply Hempty.
      set_unfold. naive_solver.
Qed.

Lemma shouldRemoveOwnerRole_decision_witness :
  (outcome leavingClient
     (IQServerCleaner.shouldRemoveOwnerRole true leavingConfig) tt).1 = true
  ∧ ∃ user,
      EvGetUser "user2" (Some user, None)
      ∈ trace leavingClient
          (IQServerCleaner.shouldRemoveOwnerRole true leavingConfig) tt
      ∧ NexusCleaner.removeFirst "user2" (User.Roles user) ≠ [].
Proof.
  split; [reflexivity|].
  destruct (proj1 (proj2 (proj2
              (shouldRemoveOwnerRole_decision true leavingConfig _ _
                 (run_exec leavingClient
                    (IQServerCleaner.shouldRemoveOwnerRole true leavingConfig)
                    tt)))) eq_refl)
    as (user & Hin & Hne & _).
  by exists user.
Defined.

Lemma shouldRemoveOwnerRole_events nexusClient cfg tr res :
  exec (IQServerCleaner.shouldRemoveOwnerRole nexusClient cfg) tr res →
  ∀ ev, ev ∈ tr → isMutation ev = false.
Proof.
  intros H. apply exec_shouldRemoveOwnerRole in H.
  destruct H as [(_ & -> & _)|[(user & e & -> & _)
                 |[(-> & _)|[(user & _ & -> & _)
                 |[(user & role & e & _ & -> & _)
                 |(user & role & _ & -> & _)]]]]];
    intros ev Hev; set_unfold; naive_solver.
Qed.

(** X18. The IQ Server cleanup does nothing for a descriptor without
    an organization. Otherwise it evaluates the owner-role decision,
    and calls the removal, once and last, only when the decision was yes;
    it changes nothing in Nexus and never adds the owner role. Without a
    removal call its result is the error of the decision. *)
Theorem owner_role_removal (nexusClient : bool) (cfg : OperationConfig.t)
    (tr : list Step) (res : option error) :
  flowExec (IQServerCleaner.CleanupUserFromOrganization nexusClient cfg) tr res →
  (OperationConfig.OrganizationID cfg = "" → tr = [] ∧ res = None)
  ∧ (∀ ev, OnNexus ev ∈ tr → isMutation ev = false)
  ∧ (∀ c r, EvAddOwnerRoleToUser c r ∉ tr)
  ∧ (∀ c r, EvRemoveOwnerRoleFromUser c r ∈ tr →
       c = cfg ∧ OperationConfig.OrganizationID cfg ≠ ""
       ∧ ∃ trn,
           tr = (OnNexus <$> trn) ++ [EvRemoveOwnerRoleFromUser cfg r]
           ∧ exec (IQServerCleaner.shouldRemoveOwnerRole nexusClient cfg)
               trn (true, None)
           ∧ (res = None ↔ r = None))
  ∧ ((∀ c r, EvRemoveOwnerRoleFromUser c r ∉ tr) →
     OperationConfig.OrganizationID cfg ≠ "" →
     ∃ trn verdict,
       tr = OnNexus <$> trn
       ∧ exec (IQServerCleaner.shouldRemoveOwnerRole nexusClient cfg)
           trn (verdict, res)
       ∧ (res = None → verdict = false)).
Proof.
  intros H. unfold IQServerCleaner.CleanupUserFromOrganization in H.
  destruct (String.eqb_spec (OperationConfig.OrganizationID cfg) "")
    as [Horg|Horg].
  { cbn in H. destruct H as [-> ->].
    split_and!; try done; intros; try apply not_elem_of_nil.
    - by apply elem_of_nil in H.
    - by apply elem_of_nil in H. }
  apply flowExec_bind in H as (tr1 & tr2 & [removeOwner err] & -> & Hd & H).
  apply flowExec_lift in Hd as (trn & -> & Hd).
  pose proof (shouldRemoveOwnerRole_events _ _ _ _ Hd) as Hev.
  assert (∀ step, step ∈ OnNexus <$> trn →
                  ∃ ev, step = OnNexus ev ∧ isMutation ev = false) as Hsteps.
  { intros step (ev & -> & Hin)%elem_of_OnNexus. exists ev. auto. }
  destruct err as [e|].
  { cbn in H. destruct H as [-> ->]. rewrite app_nil_r.
    split_and!; try done.
    - intros ev Hin. destruct (Hsteps _ Hin) as (ev' & [= <-] & ?). done.
    - intros c r Hin. by destruct (Hsteps _ Hin) as (ev' & [=] & _).
    - intros c r Hin. by destruct (Hsteps _ Hin) as (ev' & [=] & _).
    - intros _ _. exists trn, removeOwner. done. }
  destruct removeOwner; cbn [negb] in H.
  - cbn in H. destruct H as (r & tr3 & -> & H).
    assert (tr3 = [] ∧ (res = None ↔ r = None)) as [-> Hres].
    { destruct r; cbn in H; destruct H as [-> ->]; done. }
    split_and!; try done.
    + intros ev [Hin|Hin]%elem_of_app.
      * destruct (Hsteps _ Hin) as (ev' & [= <-] & ?). done.
      * by apply list_elem_of_singleton in Hin.
    + intros c r' [Hin|Hin]%elem_of_app.
      * by destruct (Hsteps _ Hin) as (ev' & [=] & _).
      * by apply list_elem_of_singleton in Hin.
    + intros c r' [Hin|Hin]%elem_of_app.
      * by destruct (Hsteps _ Hin) as (ev' & [=] & _).
      * apply list_elem_of_singleton in Hin as [= -> ->].
        split_and!; [done|done|]. by exists trn.
    + intros Hnone _. destruct (Hnone cfg r).
      apply elem_of_app. right. by apply list_elem_of_singleton.
  - cbn in H. destruct H as [-> ->]. rewrite app_nil_r.
    split_and!; try done.
    + intros ev Hin. destruct (Hsteps _ Hin) as (ev' & [= <-] & ?). done.
    + intros c r Hin. by destruct (Hsteps _ Hin) as (ev' & [=] & _).
    + intros c r Hin. by destruct (Hsteps _ Hin) as (ev' & [=] & _).
    + intros _ _. by exists trn, false.
Qed.

Lemma owner_role_removal_witness :
  (runFlow leavingClient scriptedIQ
     (IQServerCleaner.CleanupUserFromOrganization true leavingConfig) tt).2
  = [OnNexus (EvGetUser "user2" (Some leavingUser, None));
     EvRemoveOwnerRoleFromUser leavingConfig None]
  ∧ ∀ ev, OnNexus ev
          ∈ (runFlow leavingClient scriptedIQ
               (IQServerCleaner.CleanupUserFromOrganization true leavingConfig)
               tt).2 →
          isMutation ev = false.
Proof.
  split; [reflexivity|].
  exact (proj1 (proj2 (owner_role_removal true leavingConfig _ _
                         (runFlow_flowExec leavingClient scriptedIQ
                            (IQServerCleaner.CleanupUserFromOrganization
                               true leavingConfig) tt)))).
Defined.

(** ** One operation *)

(** What the resolver returns: an error and no descriptor, or a
    descriptor that does not select offboarding. *)
Lemma CreateOpConfig_inv ToLower c req action opConfig err :
  CreateOpConfig ToLower c req action = (opConfig, err) →
  (opConfig = None ∧ err ≠ None)
  ∨ (err = None
     ∧ ∃ cfg,
         opConfig = Some cfg
         ∧ OperationConfig.Shared cfg = false
         ∧ OperationConfig.AppID cfg = ""
         ∧ OperationConfig.LdapUsername cfg = RepositoryRequest.LdapUsername req
         ∧ OperationConfig.RepositoryName cfg
           = ToLower (RepositoryRequest.PackageManager req) +:+ "-release-"
               +:+ (if RepositoryRequest.Shared req then "shared"
                    else RepositoryRequest.AppID req)
         ∧ OperationConfig.PrivilegeName cfg = OperationConfig.RepositoryName cfg
         ∧ OperationConfig.RoleName cfg
           = (if RepositoryRequest.Shared req then "repositories.share"
              else RepositoryRequest.LdapUsername req)).
Proof.
  unfold CreateOpConfig.
  destruct (Orgs c !! RepositoryRequest.OrganizationName req) as [orgID|];
    [|intros [= <- <-]; by left].
  destruct (PackageManagers c !! RepositoryRequest.PackageManager req)
    as [manager|]; [|intros [= <- <-]; by left].
  intros [= <- <-]. right. split; [done|]. eexists. split; [done|]. done.
Qed.

Lemma CleanupUserRoles_nonempty cfg tr res :
  exec (NexusCleaner.CleanupUserRoles cfg) tr res → tr ≠ [].
Proof.
  intros H. apply exec_CleanupUserRoles in H.
  destruct H as [(? & ? & -> & _)|[(-> & _)|[(? & ? & ? & _ & -> & _)
                 |(? & ? & ? & ? & -> & _)]]]; done.
Qed.

(** The calls of a deletion that is not an offboarding. *)
Lemma Run_not_offboarding cfg tr res :
  OperationConfig.Shared cfg = false →
  exec (DeletionManager.Run cfg) tr res →
  tr ≠ []
  ∧ ∀ ev, ev ∈ tr →
      (OperationConfig.RoleName cfg ≠ "repositories.share"
       ∧ ((∃ r, ev = EvDeleteRepository (OperationConfig.RepositoryName cfg) r)
          ∨ (∃ r, ev = EvDeletePrivilege (OperationConfig.PrivilegeName cfg) r)
          ∨ (∃ r, ev = EvDeleteRole (OperationConfig.RoleName cfg) r)))
      ∨ (∃ n r, ev = EvGetRole n r) ∨ (∃ n r, ev = EvGetUser n r)
      ∨ (∃ u r, ev = EvUpdateUser u r).
Proof.
  intros Hshared H.
  destruct (decide (OperationConfig.RoleName cfg = "repositories.share"))
    as [Hrole|Hrole].
  - unfold DeletionManager.Run in H. rewrite Hshared, Hrole in H.
    cbn [andb] in H.
    change (String.eqb "repositories.share" "repositories.share") with true in H.
    cbn iota in H.
    apply exec_bind in H as (tr1 & tr2 & err & -> & Hclean & H).
    assert (tr2 = []) as -> by (destruct err; exec_ret H; done).
    rewrite app_nil_r. split; [by eapply CleanupUserRoles_nonempty|].
    intros ev Hev. right.
    destruct (CleanupUserRoles_events _ _ _ Hclean ev Hev) as [?|[?|?]]; auto.
  - apply exec_Run_standard in H as (r1 & tr1 & -> & H); [|by left|done].
    split; [done|]. intros ev Hev.
    apply elem_of_cons in Hev as [->|Hev].
    { left. split; [done|]. left. by exists r1. }
    destruct r1 as [e1|]; [destruct H as [-> _]; by apply elem_of_nil in Hev|].
    destruct H as (r2 & tr2 & -> & H).
    apply elem_of_cons in Hev as [->|Hev].
    { left. split; [done|]. right. left. by exists r2. }
    destruct r2 as [e2|]; [destruct H as [-> _]; by apply elem_of_nil in Hev|].
    destruct H as (tr3 & tr4 & r3 & -> & H3 & H).
    apply elem_of_app in Hev as [Hev|Hev].
    { apply exec_CleanupRole in H3.
      destruct H3 as [(? & ? & -> & _)|[(-> & _)|[(? & ? & _ & -> & _)
                      |(? & _ & -> & _)]]]; set_unfold; naive_solver. }
    destruct r3 as [e3|]; [destruct H as [-> _]; by apply elem_of_nil in Hev|].
    destruct H as (r4 & H4 & _). right.
    destruct (CleanupUserRoles_events _ _ _ H4 ev Hev) as [?|[?|?]]; auto.
Qed.

Lemma CreateRepository_nonempty cfg tr res :
  exec (NexusCreator.CreateRepository cfg) tr res → tr ≠ [].
Proof.
  by intros [(? & -> & _)|(? & ? & ? & -> & _)]%exec_CreateRepository.
Qed.

Lemma operationOutcome_Success opErr :
  operationResult.Success (operationOutcome opErr) = true ↔ opErr = None.
Proof. by destruct opErr. Qed.

(** X19. An operation that is cancelled, whose request the resolver
    rejects, or whose action is neither create nor delete, fails without
    calling either client, and reports, in this order of precedence, the
    cancellation, the resolver's error text, or the unsupported action.
    An operation that succeeds has called a client and reports an empty
    error text. *)
Theorem attemptOperation_rejected (ToLower : string → string) (c : Config)
    (ctxErr : option error) (action : string) (req : RepositoryRequest.t)
    (tr : list Step) (res : operationResult.t) :
  flowExec (attemptOperation ToLower c ctxErr action req) tr res →
  (ctxErr ≠ None ∨ (CreateOpConfig ToLower c req action).2 ≠ None
   ∨ (action ≠ MethodCreate ∧ action ≠ MethodDelete) →
   tr = [] ∧ operationResult.Success res = false
   ∧ operationResult.Error res
     = match ctxErr with
       | Some e => "request cancelled: " +:+ Error e
       | None =>
           match (CreateOpConfig ToLower c req action).2 with
           | Some e => Error e
           | None => "unsupported action: " +:+ action
           end
       end)
  ∧ (operationResult.Success res = true →
     operationResult.Error res = "" ∧ tr ≠ []).
Proof.
  intros H. unfold attemptOperation in H.
  destruct ctxErr as [e|].
  { cbn in H. destruct H as [-> ->]. split; [done|]. done. }
  destruct (CreateOpConfig ToLower c req action) as [opConfig err] eqn:Hc.
  apply CreateOpConfig_inv in Hc
    as [[-> Herr]|(-> & cfg & -> & Hshared & Happ & _)].
  { destruct err as [e|]; [|done]. cbn in H. destruct H as [-> ->].
    split; [done|]. done. }
  cbn [snd].
  destruct (String.eqb_spec action MethodCreate) as [->|Hcreate].
  { split; [intros [?|[?|[? _]]]; done|].
    apply flowExec_bind in H as (tr1 & tr2 & [result opErr] & -> & Hrun & H).
    apply flowExec_lift in Hrun as (trn & -> & Hrun).
    assert (trn ≠ []) as Hne.
    { apply exec_Run_creation in Hrun
        as (_ & tr1 & rest1 & r1 & -> & H1 & _).
      apply CreateRepository_nonempty in H1. by destruct tr1. }
    assert (∃ opErr', res = operationOutcome opErr') as [opErr' ->].
    { destruct opErr as [e|];
        [cbn in H; destruct H as [_ ->]; by exists (Some e)|].
      destruct (negb _).
      - cbn in H. destruct H as (r & tr3 & _ & _ & ->). by exists r.
      - cbn in H. destruct H as [_ ->]. by exists None. }
    intros ->%operationOutcome_Success. split; [done|]. by destruct trn. }
  destruct (String.eqb_spec action MethodDelete) as [->|Hdelete].
  { split; [intros [?|[?|[_ ?]]]; done|].
    apply flowExec_bind in H as (tr1 & tr2 & [result opErr] & -> & Hrun & H).
    apply flowExec_lift in Hrun as (trn & -> & Hrun).
    assert (trn ≠ []) as Hne by (by eapply Run_not_offboarding).
    assert (∃ opErr', res = operationOutcome opErr') as [opErr' ->].
    { destruct opErr as [e|];
        [cbn in H; destruct H as [_ ->]; by exists (Some e)|].
      apply flowExec_bind in H as (tr3 & tr4 & [result' opErr'] & -> & _ & H).
      cbn in H. destruct H as [_ ->]. by exists opErr'. }
    intros ->%operationOutcome_Success. split; [done|]. by destruct trn. }
  cbn in H. destruct H as [-> ->]. split; [done|]. done.
Qed.

Lemma attemptOperation_rejected_witness :
  (runFlow Examples.scriptedClient scriptedIQ
     (attemptOperation ToLowerASCII Examples.testConfig None MethodCreate
        Examples.badOrgRequest) tt).2 = []
  ∧ operationResult.Error
      (runFlow Examples.scriptedClient scriptedIQ
         (attemptOperation ToLowerASCII Examples.testConfig None MethodCreate
            Examples.badOrgRequest) tt).1.1
    = "organization 'no-such-org' not found".
Proof.
  assert ((CreateOpConfig ToLowerASCII Examples.testConfig
             Examples.badOrgRequest MethodCreate).2 ≠ None) as Hrej by done.
  destruct (proj1 (attemptOperation_rejected ToLowerASCII Examples.testConfig
                     None MethodCreate Examples.badOrgRequest _ _
                     (runFlow_flowExec Examples.scriptedClient scriptedIQ
                        (attemptOperation ToLowerASCII Examples.testConfig None
                           MethodCreate Examples.badOrgRequest) tt))
                  (or_intror (or_introl Hrej))) as (Htr & _ & Herr).
  split; [exact Htr|exact Herr].
Defined.

Lemma CleanupUserRoles_sent cfg tr res :
  exec (NexusCleaner.CleanupUserRoles cfg) tr res →
  ∀ u r, EvUpdateUser u r ∈ tr →
    ∃ user,
      EvGetUser (OperationConfig.LdapUsername cfg) (Some user, None) ∈ tr
      ∧ u = User.setRoles (User.Roles u) user.
Proof.
  intros H u r Hin. apply exec_CleanupUserRoles in H.
  destruct H as [(? & ? & -> & _)|[(-> & _)|[(? & ? & ? & _ & -> & _)
                 |(user & lookups & remaining & uerr & -> & _ & Hl)]]];
    try (set_unfold; naive_solver).
  exists user. split; [apply list_elem_of_here|].
  apply elem_of_cons in Hin as [[=]|Hin].
  apply elem_of_app in Hin as [Hin|Hin].
  - destruct Hl as [(_ & -> & _)|[(_ & -> & _)|[(role & _ & _ & -> & _)
                    |(role & _ & _ & -> & _)]]]; set_unfold; naive_solver.
  - apply list_elem_of_singleton in Hin as [= -> ->]. by destruct user.
Qed.

Lemma Run_not_offboarding_sent cfg tr res :
  OperationConfig.Shared cfg = false →
  exec (DeletionManager.Run cfg) tr res →
  ∀ u r, EvUpdateUser u r ∈ tr →
    ∃ user,
      EvGetUser (OperationConfig.LdapUsername cfg) (Some user, None) ∈ tr
      ∧ u = User.setRoles (User.Roles u) user.
Proof.
  intros Hshared H u r Hin.
  destruct (decide (OperationConfig.RoleName cfg = "repositories.share"))
    as [Hrole|Hrole].
  - unfold DeletionManager.Run in H. rewrite Hshared, Hrole in H.
    cbn [andb] in H.
    change (String.eqb "repositories.share" "repositories.share") with true in H.
    cbn iota in H.
    apply exec_bind in H as (tr1 & tr2 & err & -> & Hclean & H).
    assert (tr2 = []) as -> by (destruct err; exec_ret H; done).
    rewrite app_nil_r in *. by eapply CleanupUserRoles_sent.
  - apply exec_Run_standard in H as (r1 & tr1 & -> & H); [|by left|done].
    apply elem_of_cons in Hin as [[=]|Hin].
    destruct r1 as [e1|]; [destruct H as [-> _]; by apply elem_of_nil in Hin|].
    destruct H as (r2 & tr2 & -> & H).
    apply elem_of_cons in Hin as [[=]|Hin].
    destruct r2 as [e2|]; [destruct H as [-> _]; by apply elem_of_nil in Hin|].
    destruct H as (tr3 & tr4 & r3 & -> & H3 & H).
    apply elem_of_app in Hin as [Hin|Hin].
    { apply exec_CleanupRole in H3.
      destruct H3 as [(? & ? & -> & _)|[(-> & _)|[(? & ? & _ & -> & _)
                      |(? & _ & -> & _)]]]; set_unfold; naive_solver. }
    destruct r3 as [e3|]; [destruct H as [-> _]; by apply elem_of_nil in Hin|].
    destruct H as (r4 & H4 & _).
    destruct (CleanupUserRoles_sent _ _ _ H4 u r Hin) as (user & Huser & Hu).
    exists user. split; [|done].
    do 2 apply list_elem_of_further. apply elem_of_app. by right.
Qed.

(** X20. A delete request never offboards. Whatever the request and
    the clients' answers, the operation lists no repositories and no
    privileges; the only deletions it can make are, for a request that
    is not shared, of the repository and the privilege named after the
    request and of the role named after its user, and a shared request
    deletes nothing; every user it sends back is a fetched user with
    only the role list changed, so no user's status is changed; and the
    owner role is never added. *)
Theorem delete_request_scope (ToLower : string → string) (c : Config)
    (req : RepositoryRequest.t) (tr : list Step) (res : operationResult.t) :
  flowExec (attemptOperation ToLower c None MethodDelete req) tr res →
  let name := ToLower (RepositoryRequest.PackageManager req) +:+ "-release-"
                +:+ RepositoryRequest.AppID req in
  (∀ r, OnNexus (EvGetRepositories r) ∉ tr)
  ∧ (∀ r, OnNexus (EvGetPrivileges r) ∉ tr)
  ∧ (∀ ev, OnNexus ev ∈ tr → isDeletion ev = true →
       RepositoryRequest.Shared req = false
       ∧ ((∃ r, ev = EvDeleteRepository name r)
          ∨ (∃ r, ev = EvDeletePrivilege name r)
          ∨ (∃ r, ev = EvDeleteRole (RepositoryRequest.LdapUsername req) r)))
  ∧ (∀ u r, OnNexus (EvUpdateUser u r) ∈ tr →
       ∃ user,
         OnNexus (EvGetUser (RepositoryRequest.LdapUsername req)
                    (Some user, None)) ∈ tr
         ∧ u = User.setRoles (User.Roles u) user)
  ∧ (∀ c' r, EvAddOwnerRoleToUser c' r ∉ tr).
Proof.
  intros H name. unfold attemptOperation in H.
  destruct (CreateOpConfig ToLower c req MethodDelete) as [opConfig err] eqn:Hc.
  apply CreateOpConfig_inv in Hc
    as [[-> Herr]|(-> & cfg & -> & Hshared & Happ & Huser & Hrepo & Hpriv & Hrole)].
  { destruct err as [e|]; [|done]. cbn in H. destruct H as [-> ->].
    split_and!; intros; try apply not_elem_of_nil.
    - by apply elem_of_nil in H.
    - by apply elem_of_nil in H. }
  change (String.eqb MethodDelete MethodCreate) with false in H.
  change (String.eqb MethodDelete MethodDelete) with true in H. cbn iota in H.
  apply flowExec_bind in H as (tr1 & tr2 & [result opErr] & -> & Hrun & H).
  apply flowExec_lift in Hrun as (trn & -> & Hrun).
  destruct (Run_not_offboarding _ _ _ Hshared Hrun) as [_ Hevents].
  pose proof (Run_not_offboarding_sent _ _ _ Hshared Hrun) as Hsent.
  (* the IQ Server part reads Nexus and may remove the owner role *)
  assert (∀ step, step ∈ tr2 →
            (∃ ev, step = OnNexus ev ∧ isMutation ev = false
                   ∧ (∀ r, ev ≠ EvGetRepositories r)
                   ∧ (∀ r, ev ≠ EvGetPrivileges r))
            ∨ ∃ c' r, step = EvRemoveOwnerRoleFromUser c' r) as Hiq.
  { destruct opErr as [e|].
    { cbn in H. destruct H as [-> _]. by intros step ?%elem_of_nil. }
    apply flowExec_bind in H as (tr3 & tr4 & [result' opErr'] & -> & Hiq & H).
    assert (tr4 = []) as -> by (cbn in H; by destruct H).
    rewrite app_nil_r. unfold IQDeletionManager.Run in Hiq.
    apply flowExec_bind in Hiq as (tr5 & tr6 & err & -> & Hclean & Hiq).
    assert (tr6 = []) as -> by (destruct err; cbn in Hiq; by destruct Hiq).
    rewrite app_nil_r.
    unfold IQServerCleaner.CleanupUserFromOrganization in Hclean.
    destruct (String.eqb (OperationConfig.OrganizationID cfg) "").
    { cbn in Hclean. destruct Hclean as [-> _]. by intros step ?%elem_of_nil. }
    apply flowExec_bind in Hclean
      as (tr7 & tr8 & [removeOwner err'] & -> & Hd & Hclean).
    apply flowExec_lift in Hd as (trd & -> & Hd).
    assert (∀ ev, ev ∈ trd → isMutation ev = false
                             ∧ (∀ r, ev ≠ EvGetRepositories r)
                             ∧ (∀ r, ev ≠ EvGetPrivileges r)) as Hread.
    { apply exec_shouldRemoveOwnerRole in Hd.
      destruct Hd as [(_ & -> & _)|[(? & ? & -> & _)
                      |[(-> & _)|[(? & _ & -> & _)
                      |[(? & ? & ? & _ & -> & _)
                      |(? & ? & _ & -> & _)]]]]];
        intros ev Hev; set_unfold; naive_solver. }
    intros step [Hin|Hin]%elem_of_app.
    - apply elem_of_OnNexus in Hin as (ev & -> & Hin). left. exists ev.
      destruct (Hread ev Hin) as (? & ? & ?). done.
    - right. destruct err' as [e'|].
      { cbn in Hclean. destruct Hclean as [-> _]. by apply elem_of_nil in Hin. }
      destruct removeOwner; cbn [negb] in Hclean.
      + cbn in Hclean. destruct Hclean as (r & tr9 & -> & Hclean).
        assert (tr9 = []) as ->
          by (destruct r; cbn in Hclean; by destruct Hclean).
        apply list_elem_of_singleton in Hin as ->. by eexists _, _.
      + cbn in Hclean. destruct Hclean as [-> _]. by apply elem_of_nil in Hin. }
  split_and!.
  - intros r [Hin|Hin]%elem_of_app.
    + apply elem_of_OnNexus in Hin as (ev & [= <-] & Hin).
      destruct (Hevents _ Hin)
        as [(_ & [(? & [=])|[(? & [=])|(? & [=])]])
           |[(? & ? & [=])|[(? & ? & [=])|(? & ? & [=])]]].
    + destruct (Hiq _ Hin) as [(ev & [= <-] & _ & Hr & _)|(? & ? & [=])].
      by destruct (Hr r).
  - intros r [Hin|Hin]%elem_of_app.
    + apply elem_of_OnNexus in Hin as (ev & [= <-] & Hin).
      destruct (Hevents _ Hin)
        as [(_ & [(? & [=])|[(? & [=])|(? & [=])]])
           |[(? & ? & [=])|[(? & ? & [=])|(? & ? & [=])]]].
    + destruct (Hiq _ Hin) as [(ev & [= <-] & _ & _ & Hp)|(? & ? & [=])].
      by destruct (Hp r).
  - intros ev [Hin|Hin]%elem_of_app Hdel.
    + apply elem_of_OnNexus in Hin as (ev' & [= <-] & Hin).
      destruct (Hevents _ Hin)
        as [(Hns & Hkind)|[(? & ? & ->)|[(? & ? & ->)|(? & ? & ->)]]];
        try done.
      rewrite Hrole in Hns. rewrite Hpriv, Hrepo, Hrole in Hkind.
      destruct (RepositoryRequest.Shared req); [done|]. split; [done|].
      fold name in Hkind. done.
    + destruct (Hiq _ Hin) as [(ev' & [= <-] & Hmut & _)|(? & ? & [=])].
      destruct ev; done.
  - intros u r [Hin|Hin]%elem_of_app.
    + apply elem_of_OnNexus in Hin as (ev' & [= <-] & Hin).
      destruct (Hsent u r Hin) as (user & Hget & Hu). exists user.
      split; [|done]. apply elem_of_app. left. apply elem_of_OnNexus.
      rewrite <- Huser. by eexists.
    + destruct (Hiq _ Hin) as [(ev' & [= <-] & Hmut & _)|(? & ? & [=])]. done.
  - intros c' r [Hin|Hin]%elem_of_app.
    + by apply elem_of_OnNexus in Hin as (ev' & [=] & _).
    + destruct (Hiq _ Hin) as [(ev' & [=] & _)|(? & ? & [=])].
Qed.

Lemma delete_request_scope_witness :
  operationResult.Success
    (runFlow Examples.scriptedClient scriptedIQ
       (attemptOperation ToLowerASCII Examples.testConfig None MethodDelete
          Examples.appRequest) tt).1.1 = false
  ∧ ∀ r, OnNexus (EvGetRepositories r)
         ∉ (runFlow Examples.scriptedClient scriptedIQ
              (attemptOperation ToLowerASCII Examples.testConfig None
                 MethodDelete Examples.appRequest) tt).2.
Proof.
  split; [reflexivity|].
  exact (proj1 (delete_request_scope ToLowerASCII Examples.testConfig
                  Examples.appRequest _ _
                  (runFlow_flowExec Examples.scriptedClient scriptedIQ
                     (attemptOperation ToLowerASCII Examples.testConfig None
                        MethodDelete Examples.appRequest) tt))).
Defined.

Lemma Run_creation_success cfg tr result :
  exec (CreationManager.Run cfg) tr (result, None) →
  result = Some (CreationManager.creationResult cfg).
Proof.
  intros H. apply exec_Run_creation in H as (_ & tr1 & rest1 & r1 & _ & _ & H).
  destruct r1; [by destruct H|]. destruct H as (tr2 & rest2 & r2 & _ & _ & H).
  destruct r2; [by destruct H|]. destruct H as (tr3 & tr4 & r3 & _ & _ & H).
  destruct r3; [by destruct H|]. destruct H as (r4 & _ & H).
  destruct r4; by injection H.
Qed.

(** X21. A create request deletes nothing and never removes the owner
    role. The owner role is added, once and last, only for a descriptor
    with an organization id and only after the whole creation workflow
    succeeded, and then the operation succeeds exactly when that call
    does. An operation that succeeds has run the whole creation
    workflow, followed by the owner-role call unless the organization
    id is empty. *)
Theorem create_request_owner (ToLower : string → string) (c : Config)
    (req : RepositoryRequest.t) (tr : list Step) (res : operationResult.t) :
  flowExec (attemptOperation ToLower c None MethodCreate req) tr res →
  (∀ ev, OnNexus ev ∈ tr → isDeletion ev = false)
  ∧ (∀ c' r, EvRemoveOwnerRoleFromUser c' r ∉ tr)
  ∧ (∀ c' r, EvAddOwnerRoleToUser c' r ∈ tr →
       CreateOpConfig ToLower c req MethodCreate = (Some c', None)
       ∧ OperationConfig.OrganizationID c' ≠ ""
       ∧ ∃ trn,
           tr = (OnNexus <$> trn) ++ [EvAddOwnerRoleToUser c' r]
           ∧ exec (CreationManager.Run c') trn
               (Some (CreationManager.creationResult c'), None)
           ∧ (operationResult.Success res = true ↔ r = None))
  ∧ (operationResult.Success res = true →
     ∃ c' trn,
       CreateOpConfig ToLower c req MethodCreate = (Some c', None)
       ∧ exec (CreationManager.Run c') trn
           (Some (CreationManager.creationResult c'), None)
       ∧ tr = (OnNexus <$> trn)
                ++ (if decide (OperationConfig.OrganizationID c' = "") then []
                    else [EvAddOwnerRoleToUser c' None])).
Proof.
  intros H. unfold attemptOperation in H.
  destruct (CreateOpConfig ToLower c req MethodCreate) as [opConfig err] eqn:Hc.
  destruct (CreateOpConfig_inv _ _ _ _ _ _ Hc)
    as [[-> Herr]|(-> & cfg & -> & _)].
  { destruct err as [e|]; [|done]. cbn in H. destruct H as [-> ->].
    split_and!; try done; intros; try apply not_elem_of_nil.
    - by apply elem_of_nil in H.
    - by apply elem_of_nil in H. }
  change (String.eqb MethodCreate MethodCreate) with true in H. cbn iota in H.
  apply flowExec_bind in H as (tr1 & tr2 & [result opErr] & -> & Hrun & H).
  apply flowExec_lift in Hrun as (trn & -> & Hrun).
  destruct (exec_Run_creation _ _ _ Hrun) as [Hnodel _].
  assert (∀ step, step ∈ OnNexus <$> trn →
                  ∃ ev, step = OnNexus ev ∧ isDeletion ev = false) as Hsteps.
  { intros step (ev & -> & Hin)%elem_of_OnNexus. exists ev. auto. }
  destruct opErr as [e|].
  { cbn in H. destruct H as [-> ->]. rewrite app_nil_r.
    split_and!; try done.
    - intros ev Hin. destruct (Hsteps _ Hin) as (ev' & [= <-] & ?). done.
    - intros c' r Hin. by destruct (Hsteps _ Hin) as (ev' & [=] & _).
    - intros c' r Hin. by destruct (Hsteps _ Hin) as (ev' & [=] & _). }
  pose proof (Run_creation_success _ _ _ Hrun) as ->.
  destruct (String.eqb_spec (OperationConfig.OrganizationID cfg) "")
    as [Horg|Horg]; cbn [negb] in H.
  - cbn in H. destruct H as [-> ->]. rewrite app_nil_r.
    split_and!.
    + intros ev Hin. destruct (Hsteps _ Hin) as (ev' & [= <-] & ?). done.
    + intros c' r Hin. by destruct (Hsteps _ Hin) as (ev' & [=] & _).
    + intros c' r Hin. by destruct (Hsteps _ Hin) as (ev' & [=] & _).
    + intros _. exists cfg, trn. rewrite decide_True by done.
      by rewrite app_nil_r.
  - cbn in H. destruct H as (r & tr3 & -> & H). cbn in H. destruct H as [-> ->].
    split_and!.
    + intros ev [Hin|Hin]%elem_of_app.
      * destruct (Hsteps _ Hin) as (ev' & [= <-] & ?). done.
      * by apply list_elem_of_singleton in Hin.
    + intros c' r' [Hin|Hin]%elem_of_app.
      * by destruct (Hsteps _ Hin) as (ev' & [=] & _).
      * by apply list_elem_of_singleton in Hin.
    + intros c' r' [Hin|Hin]%elem_of_app.
      * by destruct (Hsteps _ Hin) as (ev' & [=] & _).
      * apply list_elem_of_singleton in Hin as [= -> ->].
        split_and!; [done|done|]. exists trn. split_and!; [done|done|].
        apply operationOutcome_Success.
    + intros ->%operationOutcome_Success. exists cfg, trn.
      by rewrite decide_False by done.
Qed.

Lemma create_request_owner_witness :
  ∃ c' trn,
    CreateOpConfig ToLowerASCII Examples.testConfig Examples.appRequest
      MethodCreate = (Some c', None)
    ∧ exec (CreationManager.Run c') trn
        (Some (CreationManager.creationResult c'), None)
    ∧ (runFlow Examples.scriptedClient scriptedIQ
         (attemptOperation ToLowerASCII Examples.testConfig None MethodCreate
            Examples.appRequest) tt).2
      = (OnNexus <$> trn)
          ++ (if decide (OperationConfig.OrganizationID c' = "") then []
              else [EvAddOwnerRoleToUser c' None]).
Proof.
  exact (proj2 (proj2 (proj2
           (create_request_owner ToLowerASCII Examples.testConfig
              Examples.appRequest _ _
              (runFlow_flowExec Examples.scriptedClient scriptedIQ
                 (attemptOperation ToLowerASCII Examples.testConfig None
                    MethodCreate Examples.appRequest) tt))))
           eq_refl).
Defined.

End OperationFacts.

(* ================================================================== *)
(** * Properties of the HTTP clients *)
(* ================================================================== *)

Module HTTPFacts.
Import GoStrings GoStringsFacts GoErrors Config Client Service ServiceFacts.
Import Creation HTTP.

(** ** Client methods and their runs *)

Lemma reqRun_reqExec {A : Type} (server : Backend) (p : Req A) :
  reqExec p (reqRun server p).2 (reqRun server p).1.
Proof.
  induction p as [a|method endpoint body params k IH]; simpl; [done|].
  specialize (IH (server method endpoint body params)).
  destruct (reqRun server (k (server method endpoint body params))) as [a tr].
  simpl in *. eauto.
Qed.

Lemma reqExec_bind {A B : Type} (p : Req A) (f : A → Req B) tr b :
  reqExec (p ≫= f) tr b
  ↔ ∃ tr1 tr2 a, tr = tr1 ++ tr2 ∧ reqExec p tr1 a ∧ reqExec (f a) tr2 b.
Proof.
  unfold mbind, Req_bind. revert tr.
  induction p as [a|method endpoint body params k IH]; intros tr; simpl.
  - split.
    + intros H. by exists [], tr, a.
    + by intros (tr1 & tr2 & a' & -> & [-> ->] & H).
  - split.
    + intros (x & tr' & -> & H).
      apply IH in H as (tr1 & tr2 & a & -> & H1 & H2).
      eexists (_ :: tr1), tr2, a. split; [done|]. split; [|done].
      by exists x, tr1.
    + intros (tr1 & tr2 & a & -> & (x & tr' & -> & H1) & H2).
      exists x, (tr' ++ tr2). split; [done|]. apply IH. naive_solver.
Qed.

Section Clients.
Context {runtime : Runtime}.

(** [DoReq] makes one request. It returns the transport error if there
    is one, an [HTTPError] with the status when the status is 400 or
    more, and the response otherwise. *)
Lemma reqExec_DoReq method endpoint body params tr res :
  reqExec (DoReq method endpoint body params) tr res →
  ∃ response err,
    tr = [exchange method endpoint body params (response, err)]
    ∧ ((∃ e, err = Some e ∧ res = (None, Some e))
       ∨ (err = None ∧ (400 ≤ Response.StatusCode response)%Z
          ∧ ∃ text,
              res = (None,
                     Some (HTTPError (Response.StatusCode response) text)))
       ∨ (err = None ∧ (Response.StatusCode response < 400)%Z
          ∧ res = (Some response, None))).
Proof.
  unfold DoReq. cbn. intros ([response err] & tr' & -> & H).
  exists response, err. destruct err as [e|].
  - cbn in H. destruct H as [-> ->]. split; [done|]. left. by exists e.
  - destruct (Z.leb_spec 400 (Response.StatusCode response)) as [Hge|Hlt].
    + cbn in H. destruct H as [-> ->]. split; [done|]. right. left.
      split_and!; [done|done|]. by eexists.
    + cbn in H. destruct H as [-> ->]. split; [done|]. right. right. done.
Qed.

Lemma isStatus_HTTPError status text code :
  isStatus (HTTPError status text) code = true ↔ status = code.
Proof. unfold isStatus. simpl. apply Z.eqb_eq. Qed.

Lemma deletedStatus_None response :
  deletedStatus (Some response) = None
  ↔ Response.StatusCode response = StatusNoContent
    ∨ Response.StatusCode response = StatusNotFound.
Proof.
  unfold deletedStatus.
  destruct (Z.eqb_spec (Response.StatusCode response) StatusNoContent);
    destruct (Z.eqb_spec (Response.StatusCode response) StatusNotFound);
    simpl; naive_solver.
Qed.

Lemma reqExec_DeleteRole name tr res :
  reqExec (DeleteRole name) tr res →
  ∃ response err,
    tr = [exchange "DELETE" ("/v1/security/roles/" +:+ name) NoBody ∅
            (response, err)]
    ∧ ((∃ e, err = Some e ∧ res = Some e)
       ∨ (err = None ∧ (400 ≤ Response.StatusCode response)%Z
          ∧ ∃ text, res = Some (HTTPError (Response.StatusCode response) text))
       ∨ (err = None ∧ (Response.StatusCode response < 400)%Z
          ∧ res = deletedStatus (Some response))).
Proof.
  intros H. unfold DeleteRole in H.
  apply reqExec_bind in H as (tr1 & tr2 & [resp err] & -> & Hreq & H).
  apply reqExec_DoReq in Hreq as (response & err' & -> & Hcases).
  exists response, err'.
  destruct Hcases as [(e & -> & [= -> ->])|[(-> & Hge & text & [= -> ->])
                      |(-> & Hlt & [= -> ->])]];
    cbn in H; destruct H as [-> ->]; (split; [done|]).
  - left. by exists e.
  - right. left. split_and!; [done|done|]. by exists text.
  - right. right. done.
Qed.

(** The two deletions that accept a 404. *)
Lemma reqExec_delete_lenient (p : Req (option error)) endpoint tr res :
  p = ('(resp, err) ← DoReq "DELETE" endpoint NoBody ∅;
       match err with
       | Some e => if isStatus e StatusNotFound then mret None else mret (Some e)
       | None => mret (deletedStatus resp)
       end) →
  reqExec p tr res →
  ∃ response err,
    tr = [exchange "DELETE" endpoint NoBody ∅ (response, err)]
    ∧ (err = None →
       (res = None ↔ Response.StatusCode response = StatusNoContent
                     ∨ Response.StatusCode response = StatusNotFound))
    ∧ (∀ e, err = Some e →
            (res = None ↔ AsHTTPError e = Some StatusNotFound)).
Proof.
  intros -> H.
  apply reqExec_bind in H as (tr1 & tr2 & [resp err] & -> & Hreq & H).
  apply reqExec_DoReq in Hreq as (response & err' & -> & Hcases).
  exists response, err'.
  destruct Hcases as [(e & -> & [= -> ->])|[(-> & Hge & text & [= -> ->])
                      |(-> & Hlt & [= -> ->])]].
  - unfold isStatus in H. destruct (AsHTTPError e) as [status|] eqn:Has.
    + destruct (Z.eqb_spec status StatusNotFound) as [->|Hne];
        cbn in H; destruct H as [-> ->]; (split; [done|]);
        (split; [done|]); intros e' [= <-]; rewrite Has; naive_solver.
    + cbn in H. destruct H as [-> ->]. split; [done|]. split; [done|].
      intros e' [= <-]. rewrite Has. naive_solver.
  - destruct (isStatus (HTTPError (Response.StatusCode response) text)
                StatusNotFound) eqn:Hs.
    + apply isStatus_HTTPError in Hs. cbn in H. destruct H as [-> ->].
      split; [done|]. split; [|done]. intros _. split; [by right|done].
    + assert (Response.StatusCode response ≠ StatusNotFound) as Hne.
      { intros Heq. apply (isStatus_HTTPError _ text) in Heq. congruence. }
      cbn in H. destruct H as [-> ->]. split; [done|]. split; [|done].
      intros _. split; [done|]. unfold StatusNoContent. intros [?|?]; [lia|done].
  - cbn in H. destruct H as [-> ->]. split; [done|]. split; [|done].
    intros _. apply deletedStatus_None.
Qed.

(** X22. Each deletion of the Nexus client is one DELETE request. When
    the request was answered, deleting a repository or a privilege
    succeeds exactly on status 204 or 404, so deleting what is already
    gone succeeds; deleting a role succeeds on status 204 only, and a
    404 comes back as an HTTP error. *)
Theorem deletion_status (name : string) (tr1 tr2 tr3 : list Exchange.t)
    (r1 r2 r3 : option error) :
  reqExec (DeleteRepository name) tr1 r1 →
  reqExec (DeletePrivilege name) tr2 r2 →
  reqExec (DeleteRole name) tr3 r3 →
  (∃ response err,
     tr1 = [exchange "DELETE" ("/v1/repositories/" +:+ name) NoBody ∅
              (response, err)]
     ∧ (err = None →
        (r1 = None ↔ Response.StatusCode response = 204
                      ∨ Response.StatusCode response = 404)))
  ∧ (∃ response err,
       tr2 = [exchange "DELETE" ("/v1/security/privileges/" +:+ name) NoBody ∅
                (response, err)]
       ∧ (err = None →
          (r2 = None ↔ Response.StatusCode response = 204
                        ∨ Response.StatusCode response = 404)))
  ∧ (∃ response err,
       tr3 = [exchange "DELETE" ("/v1/security/roles/" +:+ name) NoBody ∅
                (response, err)]
       ∧ (err = None →
          (r3 = None ↔ Response.StatusCode response = 204)
          ∧ (Response.StatusCode response = 404 →
             ∃ text, r3 = Some (HTTPError 404 text)))).
Proof.
  intros H1 H2 H3. split_and!.
  - destruct (reqExec_delete_lenient _ _ _ _ eq_refl H1)
      as (response & err & -> & Hok & _).
    by exists response, err.
  - destruct (reqExec_delete_lenient _ _ _ _ eq_refl H2)
      as (response & err & -> & Hok & _).
    by exists response, err.
  - apply reqExec_DeleteRole in H3 as (response & err & -> & Hcases).
    exists response, err. split; [done|]. intros ->.
    destruct Hcases as [(e & [=] & _)|[(_ & Hge & text & ->)|(_ & Hlt & ->)]].
    + split; [split; [done|lia]|]. intros Hs. exists text. by rewrite Hs.
    + split; [|lia]. rewrite deletedStatus_None.
      unfold StatusNoContent, StatusNotFound. split; [|by left].
      intros [?|?]; [done|lia].
Qed.

(** ** Roles over HTTP *)

Lemma reqExec_GetRole name tr res :
  reqExec (GetRole name) tr res →
  ∃ response err,
    tr = [exchange "GET" ("/v1/security/roles/" +:+ name) NoBody ∅
            (response, err)]
    ∧ (err = None → Response.StatusCode response = 404 → res = (None, None))
    ∧ (∀ role, res = (Some role, None) →
         err = None ∧ (Response.StatusCode response < 400)%Z
         ∧ unmarshalRole (Response.Body response) = (role, None))
    ∧ (∀ role, err = None → (Response.StatusCode response < 400)%Z →
         unmarshalRole (Response.Body response) = (role, None) →
         res = (Some role, None)).
Proof.
  intros H. unfold GetRole in H.
  apply reqExec_bind in H as (tr1 & tr2 & [resp err] & -> & Hreq & H).
  apply reqExec_DoReq in Hreq as (response & err' & -> & Hcases).
  exists response, err'.
  destruct Hcases as [(e & -> & [= -> ->])|[(-> & Hge & text & [= -> ->])
                      |(-> & Hlt & [= -> ->])]].
  - destruct (isStatus e StatusNotFound); cbn in H; destruct H as [-> ->];
      split_and!; done.
  - destruct (isStatus (HTTPError (Response.StatusCode response) text)
                StatusNotFound) eqn:Hs;
      cbn in H; destruct H as [-> ->]; split_and!; try done.
    + intros ? _ ?. lia.
    + intros _ Hnf. change 404 with StatusNotFound in Hnf.
      apply (isStatus_HTTPError _ text) in Hnf. congruence.
    + intros ? _ ?. lia.
  - destruct (unmarshalRole (Response.Body response)) as [role [e|]] eqn:Hdec;
      cbn in H; destruct H as [-> ->]; split_and!; try done.
    + intros _ ?. lia.
    + intros _ ?. lia.
    + intros role' [= <-]. done.
    + by intros role' _ _ [= <-].
Qed.

(** X23. Over the HTTP client, [ForceDeleteRole] is one DELETE request
    and, when the request was answered, succeeds exactly on status 204
    or 404: a role that is already gone is no failure. [CleanupRole]
    first looks the role up; a 404 there ends the step with success and
    no deletion. When it does delete, it is through the same DELETE
    request without the allowance: once that request was answered, the
    step succeeds exactly on status 204. *)
Theorem role_deletion_over_http (ToLower : string → string)
    (createProxyRepository : OperationConfig.t → Req (option error))
    (cfg : OperationConfig.t) (roleName : string)
    (tr1 tr2 : list Exchange.t) (r1 r2 : option error) :
  let impl := @nexusClient runtime ToLower createProxyRepository in
  reqExec (implement impl (NexusCleaner.ForceDeleteRole cfg roleName)) tr1 r1 →
  reqExec (implement impl (NexusCleaner.CleanupRole cfg)) tr2 r2 →
  (∃ response err,
     tr1 = [exchange "DELETE" ("/v1/security/roles/" +:+ roleName) NoBody ∅
              (response, err)]
     ∧ (err = None →
        (r1 = None ↔ Response.StatusCode response = 204
                      ∨ Response.StatusCode response = 404)))
  ∧ (∃ lookup lookupErr rest,
       tr2 = exchange "GET"
               ("/v1/security/roles/" +:+ OperationConfig.RoleName cfg)
               NoBody ∅ (lookup, lookupErr) :: rest
       ∧ (lookupErr = None → Response.StatusCode lookup = 404 →
          rest = [] ∧ r2 = None)
       ∧ (rest = []
          ∨ ∃ response err,
              rest = [exchange "DELETE"
                        ("/v1/security/roles/" +:+ OperationConfig.RoleName cfg)
                        NoBody ∅ (response, err)]
              ∧ (err = None →
                 (r2 = None ↔ Response.StatusCode response = 204)))).
Proof.
  intros impl H1 H2. split.
  - unfold NexusCleaner.ForceDeleteRole in H1.
    cbn -[DeleteRole] in H1.
    apply reqExec_bind in H1 as (tr & tr' & r & -> & Hdel & H1).
    apply reqExec_DeleteRole in Hdel as (response & err & -> & Hcases).
    exists response, err.
    assert (tr' = [] ∧ (r1 = None
                        ↔ r = None
                          ∨ ∃ e, r = Some e
                                 ∧ AsHTTPError e = Some StatusNotFound))
      as [-> Hr1].
    { destruct r as [e|].
      - destruct (AsHTTPError e) as [code|] eqn:Hcode.
        + destruct (Z.eqb_spec code StatusNotFound) as [->|Hne];
            cbn in H1; destruct H1 as [-> ->]; (split; [done|]).
          * split; [|done]. intros _. right. by exists e.
          * split; [done|]. intros [?|(e' & [= <-] & He')]; congruence.
        + cbn in H1. destruct H1 as [-> ->]. split; [done|].
          split; [done|]. intros [?|(e' & [= <-] & He')]; congruence.
      - cbn in H1. destruct H1 as [-> ->]. split; [done|]. split; [|done].
        intros _. by left. }
    split; [done|]. intros ->. rewrite Hr1.
    destruct Hcases as [(e & [=] & _)|[(_ & Hge & text & ->)|(_ & Hlt & ->)]].
    + split.
      * intros [?|(e' & [= <-] & He')]; [done|]. simpl in He'. right.
        unfold StatusNotFound in He'. congruence.
      * intros [?|Hs]; [lia|]. right. eexists. split; [done|]. simpl.
        by rewrite Hs.
    + rewrite deletedStatus_None. unfold StatusNoContent, StatusNotFound.
      split.
      * intros [?|(e' & He' & Has)]; [done|].
        unfold deletedStatus in He'.
        destruct (negb _ && negb _); [|done]. by injection He' as <-.
      * intros ?. by left.
  - unfold NexusCleaner.CleanupRole in H2.
    cbn -[GetRole DeleteRole] in H2.
    apply reqExec_bind in H2 as (tr & tr' & [role err] & -> & Hget & H2).
    apply reqExec_GetRole in Hget
      as (lookup & lookupErr & -> & Hgone & Hfound & _).
    exists lookup, lookupErr, tr'. split; [done|].
    destruct err as [e|].
    { cbn in H2. destruct H2 as [-> ->]. split; [|by left].
      intros Hok Hs. by specialize (Hgone Hok Hs). }
    destruct role as [role|].
    2:{ cbn in H2. destruct H2 as [-> ->]. split; [done|by left]. }
    destruct (Hfound role eq_refl) as (-> & Hlt & Hdec).
    split; [intros _ ?; lia|].
    cbn -[DeleteRole] in H2.
    destruct (Role.Privileges role) as [|p ps]; cbn -[DeleteRole] in H2.
    2:{ destruct H2 as [-> ->]. by left. }
    right.
    apply reqExec_bind in H2 as (trd & tr'' & r & -> & Hdel & H2).
    apply reqExec_DeleteRole in Hdel as (response & err & -> & Hcases).
    exists response, err.
    assert (tr'' = [] ∧ (r2 = None ↔ r = None)) as [-> Hr2].
    { destruct r; cbn in H2; destruct H2 as [-> ->]; done. }
    split; [done|]. intros ->. rewrite Hr2.
    destruct Hcases as [(e & [=] & _)|[(_ & Hge & text & ->)|(_ & Hlt' & ->)]].
    + split; [done|lia].
    + rewrite deletedStatus_None. unfold StatusNoContent, StatusNotFound.
      split; [intros [?|?]; [done|lia]|by left].
Qed.

(** ** Creation over HTTP *)

Lemma reqExec_GetRepository name tr res :
  reqExec (GetRepository name) tr res →
  ∃ response err,
    tr = [exchange "GET" ("/v1/repositories/" +:+ name) NoBody ∅
            (response, err)]
    ∧ (res.2 = None
       ↔ err = None ∧ (Response.StatusCode response < 400)%Z
         ∧ (unmarshalRepository (Response.Body response)).2 = None).
Proof.
  intros H. unfold GetRepository in H.
  apply reqExec_bind in H as (tr1 & tr2 & [resp err] & -> & Hreq & H).
  apply reqExec_DoReq in Hreq as (response & err' & -> & Hcases).
  exists response, err'.
  destruct Hcases as [(e & -> & [= -> ->])|[(-> & Hge & text & [= -> ->])
                      |(-> & Hlt & [= -> ->])]].
  - cbn in H. destruct H as [-> ->]. split; [done|]. simpl. naive_solver.
  - cbn in H. destruct H as [-> ->]. split; [done|]. simpl.
    split; [done|]. intros (_ & ? & _). lia.
  - destruct (unmarshalRepository (Response.Body response)) as [repo [e|]];
      cbn in H; destruct H as [-> ->]; (split; [done|]); simpl; naive_solver.
Qed.

(** X24. Over the HTTP client, [CreateRepository] first sends one GET
    for the repository. The repository counts as existing exactly when
    that request was answered with a status below 400 and a body that
    decodes; then nothing more is sent. In every other case, a server
    error or an undecodable body included, the creation request is made,
    and the step succeeds exactly when it does. *)
Theorem repository_creation_over_http (ToLower : string → string)
    (createProxyRepository : OperationConfig.t → Req (option error))
    (cfg : OperationConfig.t) (tr : list Exchange.t) (res : option error) :
  let impl := @nexusClient runtime ToLower createProxyRepository in
  reqExec (implement impl (NexusCreator.CreateRepository cfg)) tr res →
  ∃ lookup lookupErr rest,
    tr = exchange "GET"
           ("/v1/repositories/" +:+ OperationConfig.RepositoryName cfg)
           NoBody ∅ (lookup, lookupErr) :: rest
    ∧ let found :=
        lookupErr = None ∧ (Response.StatusCode lookup < 400)%Z
        ∧ (unmarshalRepository (Response.Body lookup)).2 = None in
      (found → rest = [] ∧ res = None)
      ∧ (¬ found →
         ∃ r, reqExec (createProxyRepository cfg) rest r
              ∧ (res = None ↔ r = None)).
Proof.
  intros impl H. unfold NexusCreator.CreateRepository in H.
  cbn -[GetRepository] in H.
  apply reqExec_bind in H as (tr1 & rest & [repo err] & -> & Hget & H).
  apply reqExec_GetRepository in Hget as (lookup & lookupErr & -> & Hfound).
  exists lookup, lookupErr, rest. split; [done|]. cbn [snd] in Hfound.
  destruct err as [e|].
  - split; [intros Hyes; by apply Hfound in Hyes|]. intros _.
    cbn in H. apply reqExec_bind in H as (tr2 & tr3 & r & -> & Hcreate & H).
    assert (tr3 = [] ∧ (res = None ↔ r = None)) as [-> Hres].
    { destruct r; cbn in H; destruct H as [-> ->]; done. }
    rewrite app_nil_r. by exists r.
  - cbn in H. destruct H as [-> ->]. split; [done|].
    intros Hno. destruct Hno. by apply Hfound.
Qed.

Lemma reqExec_CreateRole cfg tr res :
  reqExec (CreateRole cfg) tr res →
  ∃ response err,
    tr = [exchange "POST" "/v1/security/roles"
            (RoleConfig (OperationConfig.RoleName cfg)
               (OperationConfig.RoleName cfg)
               ("Role for " +:+ OperationConfig.LdapUsername cfg)
               [OperationConfig.PrivilegeName cfg] []) ∅ (response, err)]
    ∧ (err = None →
       (res = None ↔ (Response.StatusCode response < 400)%Z
                     ∨ Response.StatusCode response = 400)).
Proof.
  intros H. unfold CreateRole in H.
  apply reqExec_bind in H as (tr1 & tr2 & [resp err] & -> & Hreq & H).
  apply reqExec_DoReq in Hreq as (response & err' & -> & Hcases).
  exists response, err'.
  destruct Hcases as [(e & -> & [= -> ->])|[(-> & Hge & text & [= -> ->])
                      |(-> & Hlt & [= -> ->])]].
  - destruct (isStatus e StatusBadRequest); cbn in H; destruct H as [-> ->];
      done.
  - destruct (isStatus (HTTPError (Response.StatusCode response) text)
                StatusBadRequest) eqn:Hs;
      cbn in H; destruct H as [-> ->]; (split; [done|]); intros _.
    + apply isStatus_HTTPError in Hs. split; [by right|done].
    + split; [done|]. intros [?|Hbad]; [lia|].
      change 400 with StatusBadRequest in Hbad.
      apply (isStatus_HTTPError _ text) in Hbad. congruence.
  - cbn in H. destruct H as [-> ->]. split; [done|]. intros _.
    split; [by left|done].
Qed.

Lemma reqExec_UpdateRole role tr res :
  reqExec (UpdateRole role) tr res →
  (Role.ID role = "" ∧ tr = [] ∧ res ≠ None)
  ∨ (Role.ID role ≠ ""
     ∧ ∃ response err,
         tr = [exchange "PUT" ("/v1/security/roles/" +:+ Role.ID role)
                 (RoleBody role) ∅ (response, err)]
         ∧ (res = None
            ↔ err = None ∧ (Response.StatusCode response < 400)%Z)).
Proof.
  intros H. unfold UpdateRole in H.
  destruct (String.eqb_spec (Role.ID role) "") as [Hid|Hid].
  { cbn in H. destruct H as [-> ->]. by left. }
  right. split; [done|].
  apply reqExec_bind in H as (tr1 & tr2 & [resp err] & -> & Hreq & H).
  apply reqExec_DoReq in Hreq as (response & err' & -> & Hcases).
  exists response, err'.
  destruct Hcases as [(e & -> & [= -> ->])|[(-> & Hge & text & [= -> ->])
                      |(-> & Hlt & [= -> ->])]];
    cbn in H; destruct H as [-> ->]; (split; [done|]).
  - naive_solver.
  - split; [done|]. intros [_ ?]. lia.
  - done.
Qed.

(** X25. Over the HTTP client, [AddPrivilegeToRole] first sends one
    GET for the role. When that is answered 404 it posts a new role
    named after the descriptor, holding the one privilege, and once the
    POST was answered the step succeeds exactly on a status below 400 or
    on 400, which stands for a role that exists already. When the GET
    returns a role that lacks the privilege, the role is put back with
    the privilege appended to its privilege list and its other fields as
    decoded, unless the decoded role has an empty id:
    then the step fails and nothing is sent. *)
Theorem role_creation_over_http (ToLower : string → string)
    (createProxyRepository : OperationConfig.t → Req (option error))
    (cfg : OperationConfig.t) (tr : list Exchange.t) (res : option error) :
  let impl := @nexusClient runtime ToLower createProxyRepository in
  reqExec (implement impl (AddPrivilegeToRole cfg)) tr res →
  ∃ lookup lookupErr rest,
    tr = exchange "GET"
           ("/v1/security/roles/" +:+ OperationConfig.RoleName cfg)
           NoBody ∅ (lookup, lookupErr) :: rest
    ∧ (lookupErr = None → Response.StatusCode lookup = 404 →
       ∃ response err,
         rest = [exchange "POST" "/v1/security/roles"
                   (RoleConfig (OperationConfig.RoleName cfg)
                      (OperationConfig.RoleName cfg)
                      ("Role for " +:+ OperationConfig.LdapUsername cfg)
                      [OperationConfig.PrivilegeName cfg] []) ∅
                   (response, err)]
         ∧ (err = None →
            (res = None ↔ (Response.StatusCode response < 400)%Z
                          ∨ Response.StatusCode response = 400)))
    ∧ (∀ role,
         lookupErr = None → (Response.StatusCode lookup < 400)%Z →
         unmarshalRole (Response.Body lookup) = (role, None) →
         if decide (OperationConfig.PrivilegeName cfg ∈ Role.Privileges role)
         then rest = [] ∧ res = None
         else if decide (Role.ID role = "")
         then rest = [] ∧ res ≠ None
         else ∃ sent response err,
                rest = [exchange "PUT" ("/v1/security/roles/" +:+ Role.ID role)
                          (RoleBody sent) ∅ (response, err)]
                ∧ Role.Privileges sent
                  = Role.Privileges role ++ [OperationConfig.PrivilegeName cfg]
                ∧ Role.ID sent = Role.ID role
                ∧ Role.Name sent = Role.Name role
                ∧ Role.Description sent = Role.Description role
                ∧ Role.Roles sent = Role.Roles role
                ∧ (res = None
                   ↔ err = None ∧ (Response.StatusCode response < 400)%Z)).
Proof.
  intros impl H. unfold AddPrivilegeToRole in H.
  cbn -[GetRole CreateRole UpdateRole] in H.
  apply reqExec_bind in H as (tr1 & rest & [role err] & -> & Hget & H).
  apply reqExec_GetRole in Hget
    as (lookup & lookupErr & -> & Hgone & _ & Hdecoded).
  exists lookup, lookupErr, rest. split; [done|].
  assert (role = None → err = None →
          ∃ response cerr,
            rest = [exchange "POST" "/v1/security/roles"
                      (RoleConfig (OperationConfig.RoleName cfg)
                         (OperationConfig.RoleName cfg)
                         ("Role for " +:+ OperationConfig.LdapUsername cfg)
                         [OperationConfig.PrivilegeName cfg] []) ∅
                      (response, cerr)]
            ∧ (cerr = None →
               (res = None ↔ (Response.StatusCode response < 400)%Z
                             ∨ Response.StatusCode response = 400)))
    as Hcreate.
  { intros -> ->. cbn -[CreateRole] in H.
    apply reqExec_bind in H as (trc & tr' & r & -> & Hc & H).
    apply reqExec_CreateRole in Hc as (response & cerr & -> & Hok).
    assert (tr' = [] ∧ (res = None ↔ r = None)) as [-> Hres].
    { destruct r; cbn in H; destruct H as [-> ->]; done. }
    exists response, cerr. split; [done|]. intros Hc. rewrite Hres. auto. }
  split.
  - intros Hok Hs. specialize (Hgone Hok Hs). injection Hgone as -> ->. auto.
  - intros role' -> Hlt Hdec.
    specialize (Hdecoded role' eq_refl Hlt Hdec). injection Hdecoded as -> ->.
    clear Hcreate. cbn -[UpdateRole] in H.
    destruct (Contains (Role.Privileges role') (OperationConfig.PrivilegeName cfg))
      eqn:Hc.
    + apply Contains_true in Hc. rewrite decide_True by done.
      cbn in H. by destruct H as [-> ->].
    + apply Contains_false in Hc. rewrite decide_False by done.
      cbn -[UpdateRole] in H.
      apply reqExec_bind in H as (tru & tr' & r & -> & Hu & H).
      assert (tr' = [] ∧ (res = None ↔ r = None)) as [-> Hres].
      { destruct r; cbn in H; destruct H as [-> ->]; done. }
      rewrite app_nil_r.
      apply reqExec_UpdateRole in Hu
        as [(Hid & -> & Hr)|(Hid & response & uerr & -> & Hr)];
        cbn [Role.ID Role.setPrivileges] in Hid.
      * rewrite decide_True by done. split; [done|]. by rewrite Hres.
      * rewrite decide_False by done.
        exists (Role.setPrivileges
                  (Role.Privileges role'
                     ++ [OperationConfig.PrivilegeName cfg]) role'),
          response, uerr.
        split_and!; try done. by rewrite Hres.
Qed.

(** ** Users over HTTP *)

Lemma findUser_Some userID users u :
  findUser userID users = Some u
  ↔ ∃ before after,
      users = before ++ u :: after ∧ User.UserID u = userID
      ∧ ∀ v, v ∈ before → User.UserID v ≠ userID.
Proof.
  induction users as [|x users IH]; simpl.
  - split; [done|]. intros (before & after & Heq & _). by destruct before.
  - destruct (String.eqb_spec (User.UserID x) userID) as [Hx|Hx].
    + split.
      * intros [= ->]. exists [], users. split_and!; [done|done|].
        by intros v ?%elem_of_nil.
      * intros (before & after & Heq & Hid & Hnot).
        destruct before as [|y before]; simpl in Heq.
        { by injection Heq as ->. }
        injection Heq as <- _. destruct (Hnot x); [by left|done].
    + rewrite IH. split.
      * intros (before & after & -> & Hid & Hnot).
        exists (x :: before), after. split_and!; [done|done|].
        intros v [->|?]%elem_of_cons; auto.
      * intros (before & after & Heq & Hid & Hnot).
        destruct before as [|y before]; simpl in Heq.
        { injection Heq as -> _. done. }
        injection Heq as <- ->. exists before, after.
        split_and!; [done|done|]. intros v Hv. apply Hnot. by right.
Qed.

Lemma findUser_None userID users :
  findUser userID users = None ↔ ∀ v, v ∈ users → User.UserID v ≠ userID.
Proof.
  induction users as [|x users IH]; simpl.
  - split; [|done]. by intros _ v ?%elem_of_nil.
  - destruct (String.eqb_spec (User.UserID x) userID) as [Hx|Hx].
    + split; [done|]. intros Hall. destruct (Hall x); [by left|done].
    + rewrite IH. split.
      * intros Hall v [->|?]%elem_of_cons; auto.
      * intros Hall v Hv. apply Hall. by right.
Qed.

(** X26. [GetUser] sends one GET with the user id as the query
    parameter and returns the first decoded user whose id is exactly
    the one asked for: when the answer holds such a user the first one
    is returned, a user with another id is never returned, and
    when the answer holds no such user the result is no user and no
    error. [UpdateUser] refuses a user without an id before sending
    anything; otherwise it puts the user with the last name and the
    e-mail address replaced by fixed values and the other fields, the
    roles and the status among them, as given, and succeeds exactly
    when the request is answered with a status below 400. *)
Theorem users_over_http (userID : string) (user : User.t)
    (tr1 tr2 : list Exchange.t) (r1 : option User.t * option error)
    (r2 : option error) :
  reqExec (GetUser userID) tr1 r1 →
  reqExec (UpdateUser user) tr2 r2 →
  (∃ response err,
     tr1 = [exchange "GET" "/v1/security/users" NoBody {[ "userId" := userID ]}
              (response, err)]
     ∧ (∀ u, r1.1 = Some u →
          r1.2 = None ∧ User.UserID u = userID
          ∧ ∃ users before after,
              unmarshalUsers (Response.Body response) = (users, None)
              ∧ users = before ++ u :: after
              ∧ ∀ v, v ∈ before → User.UserID v ≠ userID)
     ∧ (∀ before u after,
          err = None → (Response.StatusCode response < 400)%Z →
          unmarshalUsers (Response.Body response)
          = (before ++ u :: after, None) →
          User.UserID u = userID →
          (∀ v, v ∈ before → User.UserID v ≠ userID) →
          r1 = (Some u, None))
     ∧ (∀ users, err = None → (Response.StatusCode response < 400)%Z →
          unmarshalUsers (Response.Body response) = (users, None) →
          (∀ v, v ∈ users → User.UserID v ≠ userID) →
          r1 = (None, None)))
  ∧ (User.UserID user = "" →
     tr2 = [] ∧ r2 = Some (errorString "update user: userId is empty"))
  ∧ (User.UserID user ≠ "" →
     ∃ response err,
       tr2 = [exchange "PUT" ("/v1/security/users/" +:+ User.UserID user)
                (UserBody
                   {| User.UserID := User.UserID user;
                      User.FirstName := User.FirstName user;
                      User.LastName := "useless";
                      User.EmailAddress := "useless@example.com";
                      User.Source := User.Source user;
                      User.Status := User.Status user;
                      User.Roles := User.Roles user |}) ∅ (response, err)]
       ∧ (r2 = None ↔ err = None ∧ (Response.StatusCode response < 400)%Z)).
Proof.
  intros H1 H2. split_and!.
  - unfold GetUser in H1.
    apply reqExec_bind in H1 as (tr & tr' & [resp err] & -> & Hreq & H1).
    apply reqExec_DoReq in Hreq as (response & err' & -> & Hcases).
    exists response, err'.
    destruct Hcases as [(e & -> & [= -> ->])|[(-> & Hge & text & [= -> ->])
                        |(-> & Hlt & [= -> ->])]].
    + cbn in H1. destruct H1 as [-> ->]. split_and!; done.
    + cbn in H1. destruct H1 as [-> ->]. split_and!; try done.
      * intros ? ? ? _ ?. lia.
      * intros ? _ ?. lia.
    + destruct (unmarshalUsers (Response.Body response)) as [users [e|]]
        eqn:Hdec; cbn in H1; destruct H1 as [-> ->]; split_and!; try done.
      * intros u Hu. simpl in Hu. split; [done|].
        apply findUser_Some in Hu as (before & after & -> & Hid & Hnot).
        split; [done|]. by exists (before ++ u :: after), before, after.
      * intros before u after _ _ [= ->] Hid Hnot. f_equal.
        apply findUser_Some. by exists before, after.
      * intros users' _ _ [= <-] Hnone. f_equal. by apply findUser_None.
  - intros Hid. unfold UpdateUser in H2. rewrite Hid in H2. cbn in H2.
    by destruct H2 as [-> ->].
  - intros Hid. unfold UpdateUser in H2.
    destruct (String.eqb_spec (User.UserID user) "") as [|_]; [done|].
    apply reqExec_bind in H2 as (tr & tr' & [resp err] & -> & Hreq & H2).
    apply reqExec_DoReq in Hreq as (response & err' & -> & Hcases).
    exists response, err'.
    destruct Hcases as [(e & -> & [= -> ->])|[(-> & Hge & text & [= -> ->])
                        |(-> & Hlt & [= -> ->])]];
      cbn in H2; destruct H2 as [-> ->]; (split; [done|]).
    + naive_solver.
    + split; [done|]. intros [_ ?]. lia.
    + done.
Qed.

(** ** The owner role over HTTP *)

Lemma findOwner_found roles id :
  findOwner roles = (id, None) → id ≠ "" →
  ∃ before owner after,
    roles = before ++ owner :: after
    ∧ IQRole.Name owner = "Owner" ∧ IQRole.ID owner = id
    ∧ ∀ r, r ∈ before → IQRole.Name r ≠ "Owner".
Proof.
  induction roles as [|x roles IH]; simpl; [by intros [= <-]|].
  destruct (String.eqb_spec (IQRole.Name x) "Owner") as [Hx|Hx].
  - destruct (String.eqb_spec (IQRole.ID x) "") as [Hid|Hid]; simpl; [done|].
    intros [= <-] _. exists [], x, roles. split_and!; try done.
    by intros r ?%elem_of_nil.
  - intros Hfind Hne. destruct (IH Hfind Hne)
      as (before & owner & after & -> & Hname & Hid & Hnot).
    exists (x :: before), owner, after. split_and!; try done.
    intros r [->|?]%elem_of_cons; auto.
Qed.

Lemma reqExec_FindOwnerRoleID tr res :
  reqExec FindOwnerRoleID tr res →
  ∃ response err,
    tr = [exchange "GET" "/api/v2/roles" NoBody ∅ (response, err)]
    ∧ (err = None → Response.StatusCode response = 404 → res = ("", None))
    ∧ (res.2 = None → res.1 ≠ "" →
       err = None ∧ (Response.StatusCode response < 400)%Z
       ∧ ∃ before owner after,
           unmarshalIQRoles (Response.Body response)
           = (before ++ owner :: after, None)
           ∧ IQRole.Name owner = "Owner" ∧ IQRole.ID owner = res.1
           ∧ ∀ r, r ∈ before → IQRole.Name r ≠ "Owner").
Proof.
  intros H. unfold FindOwnerRoleID, GetRoles in H.
  apply reqExec_bind in H as (tr1 & tr2 & [roles err] & -> & Hroles & H).
  apply reqExec_bind in Hroles as (tr3 & tr4 & [resp err0] & -> & Hreq & Hroles).
  apply reqExec_DoReq in Hreq as (response & err' & -> & Hcases).
  exists response, err'.
  destruct Hcases as [(e & -> & [= -> ->])|[(-> & Hge & text & [= -> ->])
                      |(-> & Hlt & [= -> ->])]].
  - destruct (isStatus e StatusNotFound); cbn in Hroles;
      destruct Hroles as [-> [= -> ->]]; cbn in H; destruct H as [-> ->];
      split_and!; done.
  - destruct (isStatus (HTTPError (Response.StatusCode response) text)
                StatusNotFound) eqn:Hs;
      cbn in Hroles; destruct Hroles as [-> [= -> ->]];
      cbn in H; destruct H as [-> ->]; split_and!; try done.
    intros _ Hnf. change 404 with StatusNotFound in Hnf.
    apply (isStatus_HTTPError _ text) in Hnf. congruence.
  - destruct (unmarshalIQRoles (Response.Body response)) as [decoded [e|]]
      eqn:Hdec; cbn in Hroles; destruct Hroles as [-> [= -> ->]];
      cbn in H; destruct H as [-> ->]; split_and!; try done.
    + intros _ ?. lia.
    + intros _ ?. lia.
    + intros Hok Hid. split_and!; [done|done|].
      destruct (findOwner decoded) as [id oe] eqn:Hfind. simpl in Hok, Hid.
      subst oe. destruct (findOwner_found _ _ Hfind Hid)
        as (before & owner & after & -> & Hname & Hidd & Hnot).
      by exists before, owner, after.
Qed.

(** X27. The two owner-role methods of the IQ Server client first list
    the roles with one GET. A second request is sent only when the
    listing was answered and decoded and holds a role named "Owner"
    whose id is not empty; it goes to the membership of the user in
    the organization under the id of the first such role: a PUT to add,
    a DELETE to remove. A listing answered 404 counts as no roles, so
    both methods fail without a second request. Once the second request
    was answered, adding succeeds exactly on a status below 400, and
    removing exactly on 200, 204 or 404. *)
Theorem owner_membership_over_http (opConfig : OperationConfig.t)
    (tr1 tr2 : list Exchange.t) (r1 r2 : option error) :
  reqExec (AddOwnerRoleToUser opConfig) tr1 r1 →
  reqExec (RemoveOwnerRoleFromUser opConfig) tr2 r2 →
  let sound (method : string) (tr : list Exchange.t) (r : option error)
        (accepted : Z → Prop) :=
    ∃ listing listErr rest,
      tr = exchange "GET" "/api/v2/roles" NoBody ∅ (listing, listErr) :: rest
      ∧ (listErr = None → Response.StatusCode listing = 404 →
         rest = [] ∧ r ≠ None)
      ∧ (r = None → rest ≠ [])
      ∧ (rest = []
         ∨ ∃ before owner after response err,
             unmarshalIQRoles (Response.Body listing)
             = (before ++ owner :: after, None)
             ∧ IQRole.Name owner = "Owner" ∧ IQRole.ID owner ≠ ""
             ∧ (∀ role, role ∈ before → IQRole.Name role ≠ "Owner")
             ∧ rest = [exchange method
                         (membershipEndpoint opConfig (IQRole.ID owner))
                         NoBody ∅ (response, err)]
             ∧ (err = None →
                (r = None ↔ accepted (Response.StatusCode response)))) in
  sound "PUT" tr1 r1 (λ status, (status < 400)%Z)
  ∧ sound "DELETE" tr2 r2
      (λ status, status = 200 ∨ status = 204 ∨ status = 404).
Proof.
  intros H1 H2 sound. split.
  - unfold AddOwnerRoleToUser in H1.
    apply reqExec_bind in H1 as (tr & rest & [roleID err] & -> & Hfind & H1).
    apply reqExec_FindOwnerRoleID in Hfind
      as (listing & listErr & -> & Hgone & Hfound).
    exists listing, listErr, rest. split; [done|]. cbn [fst snd] in Hfound.
    destruct err as [e|].
    { cbn in H1. destruct H1 as [-> ->]. split_and!; [done|done|by left]. }
    destruct (String.eqb_spec roleID "") as [->|Hid].
    { cbn in H1. destruct H1 as [-> ->]. split_and!; [done|done|by left]. }
    apply reqExec_bind in H1 as (trp & tr' & [resp perr] & -> & Hreq & H1).
    apply reqExec_DoReq in Hreq as (response & err' & -> & Hcases).
    assert (tr' = [] ∧ (r1 = None ↔ perr = None)) as [-> Hres].
    { destruct perr; cbn in H1; destruct H1 as [-> ->]; done. }
    destruct (Hfound eq_refl Hid)
      as (Hok & Hlt & before & owner & after & Hdec & Hname & Hidd & Hnot).
    split_and!.
    + intros _ ?. lia.
    + done.
    + right. exists before, owner, after, response, err'.
      subst roleID. split_and!; try done. intros ->. rewrite Hres.
      destruct Hcases as [(e & [=] & _)|[(_ & Hge & text & [= _ ->])
                          |(_ & Hlt' & [= _ ->])]].
      * split; [done|lia].
      * done.
  - unfold RemoveOwnerRoleFromUser in H2.
    apply reqExec_bind in H2 as (tr & rest & [roleID err] & -> & Hfind & H2).
    apply reqExec_FindOwnerRoleID in Hfind
      as (listing & listErr & -> & Hgone & Hfound).
    exists listing, listErr, rest. split; [done|]. cbn [fst snd] in Hfound.
    destruct err as [e|].
    { cbn in H2. destruct H2 as [-> ->]. split_and!; [done|done|by left]. }
    destruct (String.eqb_spec roleID "") as [->|Hid].
    { cbn in H2. destruct H2 as [-> ->]. split_and!; [done|done|by left]. }
    apply reqExec_bind in H2 as (trp & tr' & [resp perr] & -> & Hreq & H2).
    apply reqExec_DoReq in Hreq as (response & err' & -> & Hcases).
    destruct (Hfound eq_refl Hid)
      as (Hok & Hlt & before & owner & after & Hdec & Hname & Hidd & Hnot).
    assert (tr' = []) as ->.
    { destruct perr as [e|].
      - destruct (isStatus e StatusNotFound); cbn in H2; by destruct H2.
      - destruct resp as [resp|]; [|cbn in H2; by destruct H2].
        destruct (negb _ && negb _ && negb _); cbn in H2; by destruct H2. }
    split_and!.
    + intros _ ?. lia.
    + done.
    + right. exists before, owner, after, response, err'.
      subst roleID. split_and!; try done. intros ->.
      destruct Hcases as [(e & [=] & _)|[(_ & Hge & text & [= -> ->])
                          |(_ & Hlt' & [= -> ->])]].
      * destruct (isStatus (HTTPError (Response.StatusCode response) text)
                    StatusNotFound) eqn:Hs; cbn in H2; destruct H2 as [_ ->].
        -- apply isStatus_HTTPError in Hs. split; [|done]. intros _.
           right. right. done.
        -- split; [done|]. intros [?|[?|Hnf]]; [lia|lia|].
           change 404 with StatusNotFound in Hnf.
           apply (isStatus_HTTPError _ text) in Hnf. congruence.
      * unfold StatusOK, StatusNoContent, StatusNotFound in H2.
        destruct (Z.eqb_spec (Response.StatusCode response) 200);
          destruct (Z.eqb_spec (Response.StatusCode response) 204);
          destruct (Z.eqb_spec (Response.StatusCode response) 404);
          cbn in H2; destruct H2 as [_ ->]; naive_solver.
Qed.

End Clients.

Lemma deletion_status_witness :
  (reqRun emptyServer (DeleteRepository (runtime := scriptedRuntime) "gone")).1 = None
  ∧ ∃ text,
      (reqRun emptyServer (DeleteRole (runtime := scriptedRuntime) "gone")).1
      = Some (HTTPError 404 text).
Proof.
  split; [reflexivity|].
  destruct (deletion_status (runtime := scriptedRuntime) "gone" _ _ _ _ _ _
              (reqRun_reqExec emptyServer (DeleteRepository "gone"))
              (reqRun_reqExec emptyServer (DeletePrivilege "gone"))
              (reqRun_reqExec emptyServer (DeleteRole "gone")))
    as (_ & _ & response & err & Htr & Hok).
  injection Htr as <- <-. destruct (Hok eq_refl) as [_ Hgone].
  exact (Hgone eq_refl).
Defined.

Lemma role_deletion_over_http_witness :
  (reqRun emptyServer
     (implement (@nexusClient scriptedRuntime ToLowerASCII (λ _, mret None))
        (NexusCleaner.ForceDeleteRole Examples.standardConfig "gone"))).1 = None
  ∧ ∃ response err,
      (reqRun emptyServer
         (implement (@nexusClient scriptedRuntime ToLowerASCII (λ _, mret None))
            (NexusCleaner.ForceDeleteRole Examples.standardConfig "gone"))).2
      = [exchange "DELETE" "/v1/security/roles/gone" NoBody ∅ (response, err)].
Proof.
  split; [reflexivity|].
  destruct (role_deletion_over_http (runtime := scriptedRuntime) ToLowerASCII
              (λ _, mret None) Examples.standardConfig "gone" _ _ _ _
              (reqRun_reqExec emptyServer _) (reqRun_reqExec emptyServer _))
    as [(response & err & Htr & _) _].
  by exists response, err.
Defined.

Lemma repository_creation_over_http_witness :
  ∃ lookup lookupErr rest,
    (reqRun emptyServer
       (implement (@nexusClient scriptedRuntime ToLowerASCII (λ _, mret None))
          (NexusCreator.CreateRepository Examples.standardConfig))).2
    = exchange "GET" "/v1/repositories/npm-release-app1" NoBody ∅
        (lookup, lookupErr) :: rest.
Proof.
  destruct (repository_creation_over_http (runtime := scriptedRuntime)
              ToLowerASCII (λ _, mret None) Examples.standardConfig _ _
              (reqRun_reqExec emptyServer _))
    as (lookup & lookupErr & rest & Htr & _).
  by exists lookup, lookupErr, rest.
Defined.

Lemma role_creation_over_http_witness :
  ∃ lookup lookupErr rest,
    (reqRun emptyServer
       (implement (@nexusClient scriptedRuntime ToLowerASCII (λ _, mret None))
          (AddPrivilegeToRole Examples.standardConfig))).2
    = exchange "GET" "/v1/security/roles/app-role" NoBody ∅
        (lookup, lookupErr) :: rest.
Proof.
  destruct (role_creation_over_http (runtime := scriptedRuntime)
              ToLowerASCII (λ _, mret None) Examples.standardConfig _ _
              (reqRun_reqExec emptyServer _))
    as (lookup & lookupErr & rest & Htr & _).
  by exists lookup, lookupErr, rest.
Defined.

Lemma users_over_http_witness :
  (reqRun emptyServer (GetUser (runtime := scriptedRuntime) "user1")).1
  = (Some Examples.user1, None)
  ∧ ∃ response err,
      (reqRun emptyServer (GetUser (runtime := scriptedRuntime) "user1")).2
      = [exchange "GET" "/v1/security/users" NoBody {[ "userId" := "user1" ]}
           (response, err)].
Proof.
  split; [reflexivity|].
  destruct (users_over_http (runtime := scriptedRuntime) "user1"
              Examples.user1 _ _ _ _
              (reqRun_reqExec emptyServer _) (reqRun_reqExec emptyServer _))
    as ((response & err & Htr & _) & _).
  by exists response, err.
Defined.

Lemma owner_membership_over_http_witness :
  (reqRun emptyServer
     (RemoveOwnerRoleFromUser (runtime := scriptedRuntime)
        Examples.standardConfig)).1 = None
  ∧ ∃ listing listErr rest,
      (reqRun emptyServer
         (AddOwnerRoleToUser (runtime := scriptedRuntime)
            Examples.standardConfig)).2
      = exchange "GET" "/api/v2/roles" NoBody ∅ (listing, listErr) :: rest.
Proof.
  split; [reflexivity|].
  destruct (owner_membership_over_http (runtime := scriptedRuntime)
              Examples.standardConfig _ _ _ _
              (reqRun_reqExec emptyServer _) (reqRun_reqExec emptyServer _))
    as ((listing & listErr & rest & Htr & _) & _).
  by exists listing, listErr, rest.
Defined.

End HTTPFacts.
